(** * Field reconciliation scripts of clarance-f: a shallow embedding

    The Python scripts that analyse the PDF field dumps of sections 13
    and 16 are translated function by function.  Strings are Rocq
    strings (8-bit characters; field names of the form dumps are ASCII),
    Python integers are [Z], dict literals are association lists,
    dictionaries that are updated in a loop are [gmap]s, sets are
    [gset]s.  Code that can raise is written in a small error monad so
    that "never raises" is a theorem and not a convention. *)

From Stdlib Require Import ZArith QArith Ascii String DecimalString.
From stdpp Require Import base option list gmap strings sorting.

Local Open Scope Z_scope.

(** ** Python primitives *)

Module Py.

(** Exceptions the scripts could raise. *)
Inductive exn : Type :=
| ValueError
| KeyError
| ZeroDivisionError.

(** The value of an expression: a result or a raised exception. *)
Inductive res (A : Type) : Type :=
| Val (a : A)
| Exc (e : exn).
Arguments Val {A} a.
Arguments Exc {A} e.

(** The outcome of a statement inside a function body: control falls
    through to the next statement, the function returns, or an
    exception propagates. *)
Inductive flow (R : Type) : Type :=
| Pass
| Ret (r : R)
| Throw (e : exn).
Arguments Pass {R}.
Arguments Ret {R} r.
Arguments Throw {R} e.

Definition bind {A B : Type} (x : res A) (k : A -> res B) : res B :=
  match x with
  | Val a => k a
  | Exc e => Exc e
  end.

(** [x = e] followed by the statements [k x]. *)
Definition demand {A R : Type} (x : res A) (k : A -> flow R) : flow R :=
  match x with
  | Val a => k a
  | Exc e => Throw e
  end.

(** Statement sequencing. *)
Definition seq {R : Type} (s1 s2 : flow R) : flow R :=
  match s1 with
  | Pass => s2
  | Ret r => Ret r
  | Throw e => Throw e
  end.

(** A function whose body ends without [return] yields [None]. *)
Definition run {R : Type} (body : flow (option R)) : res (option R) :=
  match body with
  | Pass => Val None
  | Ret r => Val r
  | Throw e => Exc e
  end.

(** *** Strings *)

(** [s.startswith(p)], returning the remainder of [s] after [p]. *)
Fixpoint strip (p s : string) : option string :=
  match p with
  | EmptyString => Some s
  | String a p' =>
      match s with
      | EmptyString => None
      | String b s' => if Ascii.eqb a b then strip p' s' else None
      end
  end.

Definition startswith (p s : string) : bool :=
  match strip p s with
  | Some _ => true
  | None => false
  end.

(** [sub in s] *)
Fixpoint contains (sub s : string) : bool :=
  startswith sub s ||
  match s with
  | EmptyString => false
  | String _ s' => contains sub s'
  end.

(** [s.split(sep)] for a one-character separator. *)
Fixpoint split_go (sep : ascii) (cur : string) (s : string) : list string :=
  match s with
  | EmptyString => [cur]
  | String c s' =>
      if Ascii.eqb c sep then cur :: split_go sep EmptyString s'
      else split_go sep (cur +:+ String c EmptyString) s'
  end.

Definition split (sep : ascii) (s : string) : list string :=
  split_go sep EmptyString s.

Definition code (c : ascii) : Z := Z.of_N (N_of_ascii c).

Definition is_digit (c : ascii) : bool :=
  (48 <=? code c) && (code c <=? 57).

Definition is_upper (c : ascii) : bool :=
  (65 <=? code c) && (code c <=? 90).

Definition lower_char (c : ascii) : ascii :=
  if is_upper c then ascii_of_N (Z.to_N (code c + 32)) else c.

(** [s.lower()] on ASCII text. *)
Fixpoint lower (s : string) : string :=
  match s with
  | EmptyString => EmptyString
  | String c s' => String (lower_char c) (lower s')
  end.

(** [int(s)]: exact on non-empty digit strings, the only arguments
    the scripts pass; anything else is reported as [ValueError].
    CPython, since 3.11 and in the security releases of older versions,
    limits the digit string: beyond 4300 digits, unless configured
    otherwise, [int] raises [ValueError].  The limit is not modelled,
    so the definition is [int] for digit strings of at most 4300
    characters; a statement that nothing is raised on every name is
    made for names of at most that length. *)
Fixpoint int_go (acc : Z) (s : string) : res Z :=
  match s with
  | EmptyString => Val acc
  | String c s' =>
      if is_digit c then int_go (10 * acc + (code c - 48)) s'
      else Exc ValueError
  end.

Definition int (s : string) : res Z :=
  match s with
  | EmptyString => Exc ValueError
  | _ => int_go 0 s
  end.

(** [str(n)], the decimal text an f-string inserts for an integer. *)
Definition str (n : Z) : string :=
  NilZero.string_of_int (Z.to_int n).

(** *** Dict literals with integer keys *)

Definition dict : Type := list (Z * string).

Fixpoint dict_find (d : dict) (k : Z) : option string :=
  match d with
  | [] => None
  | (k', v) :: d' => if Z.eqb k k' then Some v else dict_find d' k
  end.

(** [k in d] *)
Definition dict_in (k : Z) (d : dict) : bool :=
  match dict_find d k with
  | Some _ => true
  | None => false
  end.

(** [d[k]] *)
Definition getitem (d : dict) (k : Z) : res string :=
  match dict_find d k with
  | Some v => Val v
  | None => Exc KeyError
  end.

(** *** Regular expressions

    A pattern is a matcher anchored at the start of its input, written
    in continuation-passing style so that greedy operators backtrack
    the way Python's [re] does: the longest repetition is tried first
    and shortened while the rest of the pattern fails. *)

Definition rx (A : Type) : Type := string -> option A.

(** The end of the pattern: the match succeeds with the captures. *)
Definition accept {A : Type} (a : A) : rx A := fun _ => Some a.

(** A literal. *)
Definition lit {A : Type} (l : string) (k : rx A) : rx A :=
  fun s =>
    match strip l s with
    | Some r => k r
    | None => None
    end.

(** [(\d+)]: one or more digits, captured. *)
Fixpoint digits_from {A : Type} (k : string -> rx A) (acc s : string)
  : option A :=
  match s with
  | EmptyString => None
  | String c s' =>
      if is_digit c then
        let acc' := acc +:+ String c EmptyString in
        match digits_from k acc' s' with
        | Some a => Some a
        | None => k acc' s'
        end
      else None
  end.

Definition digits {A : Type} (k : string -> rx A) : rx A :=
  digits_from k EmptyString.

(** [.*]: any characters except a newline, as many as possible. *)
Fixpoint dotstar {A : Type} (k : rx A) (s : string) : option A :=
  match s with
  | EmptyString => k EmptyString
  | String c s' =>
      if Ascii.eqb c "010"%char then k s
      else
        match dotstar k s' with
        | Some a => Some a
        | None => k s
        end
  end.

(** [[...]?]: an optional character of a class. *)
Definition opt_char {A : Type} (cls : ascii -> bool) (k : rx A) : rx A :=
  fun s =>
    match s with
    | EmptyString => k s
    | String c s' =>
        if cls c then
          match k s' with
          | Some a => Some a
          | None => k s
          end
        else k s
    end.

(** [(?:p)?] followed by [q]: try [p], otherwise continue with [q]. *)
Definition orelse {A : Type} (p q : rx A) : rx A :=
  fun s =>
    match p s with
    | Some a => Some a
    | None => q s
    end.

(** [re.search(p, s)]: the match at the leftmost position. *)
Fixpoint search {A : Type} (p : rx A) (s : string) : option A :=
  match p s with
  | Some a => Some a
  | None =>
      match s with
      | EmptyString => None
      | String _ s' => search p s'
      end
  end.

(** [tag\[(\d+)\]] *)
Definition pat_index (tag : string) : rx string :=
  lit tag $ lit "[" $ digits $ fun d => lit "]" $ accept d.

(** [DropDownList(\d+)\[(\d+)\]] *)
Definition pat_dropdown : rx (string * string) :=
  lit "DropDownList" $ digits $ fun d1 =>
  lit "[" $ digits $ fun d2 => lit "]" $ accept (d1, d2).

(** [#area\[(\d+)\].*#field\[(\d+)\]] *)
Definition pat_area_field : rx (string * string) :=
  lit "#area" $ lit "[" $ digits $ fun a => lit "]" $
  dotstar $
  lit "#field" $ lit "[" $ digits $ fun f => lit "]" $ accept (a, f).

(** [Table1\[(\d+)\].*Row(\d+)\[(\d+)\].*Cell(\d+)\[(\d+)\]]; the
    captures are groups 1 to 5. *)
Definition pat_table : rx (string * string * string * string * string) :=
  lit "Table1" $ lit "[" $ digits $ fun g1 => lit "]" $
  dotstar $
  lit "Row" $ digits $ fun g2 => lit "[" $ digits $ fun g3 => lit "]" $
  dotstar $
  lit "Cell" $ digits $ fun g4 => lit "[" $ digits $ fun g5 => lit "]" $
  accept (g1, g2, g3, g4, g5).

(** [section13[_-]?(\d+(?:-\d+)?)] *)
Definition pat_section : rx string :=
  lit "section13" $
  opt_char (fun c => Ascii.eqb c "_"%char || Ascii.eqb c "-"%char) $
  digits $ fun d1 =>
  orelse (lit "-" $ digits $ fun d2 => accept (d1 +:+ "-" +:+ d2))
         (accept d1).

End Py.

Import Py.

Notation "'let!' x ':=' e 'in' k" := (demand e (fun x => k))
  (at level 10, x name, e at level 100, k at level 200).
Notation "s1 ';;' s2" := (seq s1 s2) (at level 100, right associativity).

(** ** scripts/generate-field-mappings.py *)

Module GenerateFieldMappings.

(** The dict literals of [generate_logical_path], one per branch. *)

Definition federal_field_map : dict :=
  [(0, "supervisorName"); (1, "supervisorRank"); (2, "supervisorTitle");
   (3, "supervisorAddress"); (4, "supervisorCity"); (5, "supervisorZip");
   (6, "employerStreet"); (7, "employerCity"); (8, "employerZip");
   (9, "dutyStreet"); (10, "dutyCity"); (11, "dutyZip");
   (12, "extension"); (13, "otherExplanation");
   (14, "supervisorAddressAlt"); (15, "supervisorCityAlt");
   (16, "dutyStreetAlt"); (17, "dutyApoFpo"); (18, "dutyZipAlt");
   (19, "supervisorNameAlt")].

Definition federal_state_map : dict :=
  [(0, "supervisorState"); (1, "employerState"); (2, "dutyState");
   (3, "supervisorStateAlt"); (4, "dutyStateAlt")].

Definition federal_dropdown_map : dict :=
  [(4, "countryCode"); (17, "employerCountry");
   (18, "supervisorCountry"); (20, "dutyCountry")].

Definition federal_phone_map : dict :=
  [(0, "supervisorPhone"); (1, "employerPhone"); (2, "supervisorEmail");
   (3, "rankTitle"); (4, "dutyStation")].

Definition non_federal_field_map : dict :=
  [(0, "employerName"); (1, "positionTitle"); (2, "supervisorName");
   (3, "supervisorTitle"); (4, "employerStreet"); (5, "employerCity");
   (6, "employerZip"); (7, "employerPhone"); (8, "extension");
   (9, "dutyStreet"); (10, "dutyCity"); (11, "dutyZip");
   (12, "additionalInfo"); (13, "reasonForLeaving");
   (14, "supervisorAddress"); (15, "supervisorCity");
   (16, "supervisorStreet"); (17, "supervisorApoFpo");
   (18, "supervisorZip"); (19, "supervisorNameAlt");
   (20, "employerAddress2"); (21, "employerCity2");
   (22, "employerStreet2"); (23, "employerApoFpo"); (24, "employerZip2");
   (25, "employerNameAlt")].

Definition non_federal_radio_map : dict :=
  [(0, "employmentType"); (1, "hasAdditionalInfo");
   (2, "isCurrentEmployment")].

Definition non_federal_state_map : dict :=
  [(0, "employerState"); (1, "dutyState"); (2, "supervisorState");
   (3, "employerStateAlt"); (4, "dutyStateAlt");
   (5, "supervisorStateAlt"); (6, "additionalState")].

Definition non_federal_dropdown_map : dict :=
  [(4, "countryCode"); (13, "employerCountry"); (15, "dutyCountry");
   (16, "supervisorCountry")].

Definition non_federal_phone_map : dict :=
  [(0, "employerPhone"); (1, "dutyPhone"); (2, "supervisorEmail");
   (3, "supervisorPhone"); (4, "additionalPhone");
   (5, "emergencyContact")].

Definition self_employment_field_map : dict :=
  [(0, "businessName"); (1, "businessType"); (2, "businessDescription");
   (3, "businessStreet"); (4, "businessCity"); (5, "businessZip");
   (6, "businessPhone"); (7, "businessExtension"); (8, "businessEmail");
   (9, "businessAddress2"); (10, "businessCity2"); (11, "businessZip2");
   (12, "additionalInfo"); (13, "businessLicense");
   (14, "businessTaxId"); (15, "businessRevenue");
   (16, "businessEmployees"); (17, "businessApoFpo");
   (18, "businessZipAlt"); (19, "businessContact");
   (20, "businessAddress3"); (21, "businessCity3");
   (22, "businessStreet3"); (23, "businessApoFpo2");
   (24, "businessZip3"); (25, "businessNameAlt")].

Definition self_employment_radio_map : dict :=
  [(0, "businessType"); (1, "hasEmployees"); (2, "isCurrentBusiness")].

Definition self_employment_state_map : dict :=
  [(0, "businessState"); (1, "businessState2"); (2, "businessState3");
   (3, "businessStateAlt"); (4, "businessStateAlt2");
   (5, "businessStateAlt3"); (6, "additionalState")].

Definition self_employment_dropdown_map : dict :=
  [(4, "countryCode"); (9, "businessCountry"); (10, "businessCountry2");
   (11, "businessCountry3")].

Definition self_employment_phone_map : dict :=
  [(0, "businessPhone"); (1, "businessPhone2"); (2, "businessEmail");
   (3, "businessFax"); (4, "businessWebsite")].

Definition unemployment_field_map : dict :=
  [(0, "firstName"); (1, "lastName"); (2, "referenceStreet");
   (3, "referenceCity"); (4, "referenceZip"); (5, "referencePhone");
   (6, "referenceExtension"); (7, "referenceEmail");
   (8, "referenceAddress2"); (9, "referenceCity2");
   (10, "referenceStreet2"); (11, "referenceZip2");
   (12, "additionalInfo")].

Definition unemployment_radio_map : dict :=
  [(0, "hasReference"); (1, "receivedBenefits");
   (2, "isCurrentlyUnemployed")].

Definition unemployment_date_map : dict :=
  [(0, "fromDate"); (1, "toDate"); (2, "unemploymentStartDate");
   (3, "unemploymentEndDate"); (4, "benefitsStartDate");
   (5, "benefitsEndDate"); (6, "additionalFromDate");
   (7, "additionalToDate"); (8, "referenceFromDate");
   (9, "referenceToDate")].

Definition unemployment_state_map : dict :=
  [(0, "referenceState"); (1, "referenceState2"); (2, "additionalState")].

Definition unemployment_dropdown_map : dict :=
  [(4, "countryCode"); (6, "referenceCountry")].

Definition issues_field_map : dict :=
  [(0, "agencyName"); (1, "agencyAddress"); (2, "clearanceLevel");
   (3, "gapExplanation"); (4, "classificationLevel"); (5, "agencyCity");
   (6, "agencyStreet"); (7, "agencyZip"); (8, "agencyPhone");
   (9, "agencyContact"); (10, "agencyEmail"); (11, "additionalInfo")].

Definition issues_radio_map : dict :=
  [(0, "hasFederalEmployment"); (1, "hasGaps")].

Definition issues_date_map : dict :=
  [(0, "clearanceFromDate"); (1, "clearanceToDate");
   (2, "employmentFromDate"); (3, "employmentToDate");
   (4, "gapFromDate"); (5, "gapToDate"); (6, "additionalFromDate");
   (7, "additionalToDate")].

Definition issues_state_map : dict :=
  [(0, "agencyState"); (1, "agencyState2"); (2, "agencyState3");
   (3, "additionalState")].

Definition issues_dropdown_map : dict :=
  [(2, "agencyCountry")].

Definition issues_phone_map : dict :=
  [(0, "agencyPhone"); (1, "agencyPhone2"); (2, "agencyFax");
   (3, "agencyEmail"); (4, "contactPhone"); (5, "contactPhone2");
   (6, "contactEmail"); (7, "additionalPhone")].

(** The shape shared by the widget branches:
    [m = re.search(r'tag\[(\d+)\]', field_name)], then, [if m:],
    [num = int(m.group(1))] and the branch body. *)
Definition with_index {R : Type} (tag field_name : string)
    (body : Z -> flow R) : flow R :=
  match search (pat_index tag) field_name with
  | Some g => let! num := int g in body num
  | None => Pass
  end.

(** [if num in table: return f'{prefix}{table[num]}.value'] *)
Definition return_named (prefix : string) (table : dict) (num : Z)
  : flow (option string) :=
  if dict_in num table then
    let! v := getitem table num in
    Ret (Some (prefix +:+ v +:+ ".value"))
  else Pass.

(** [return f'{prefix}{stem}{num}.value'] *)
Definition return_numbered (prefix stem : string) (num : Z)
  : flow (option string) :=
  Ret (Some (prefix +:+ stem +:+ str num +:+ ".value")).

(** [m = re.search(r'DropDownList(\d+)\[(\d+)\]', field_name)] with
    [list_num = int(m.group(1))]; [item_num = int(m.group(2))] is
    evaluated too where the source computes it. *)
Definition with_dropdown {R : Type} (item_too : bool) (field_name : string)
    (body : Z -> flow R) : flow R :=
  match search pat_dropdown field_name with
  | Some (g1, g2) =>
      let! list_num := int g1 in
      if item_too then let! item_num := int g2 in body list_num
      else body list_num
  | None => Pass
  end.

(** The [Table1] branches: groups 1, 2 and 4 are converted. *)
Definition with_table {R : Type} (field_name : string)
    (body : Z -> Z -> Z -> flow R) : flow R :=
  match search pat_table field_name with
  | Some (g1, g2, _, g4, _) =>
      let! table_num := int g1 in
      let! row_num := int g2 in
      let! cell_num := int g4 in
      body table_num row_num cell_num
  | None => Pass
  end.

Definition return_table (prefix : string) (table_num row_num cell_num : Z)
  : flow (option string) :=
  Ret (Some (prefix +:+ "table" +:+ str table_num +:+ "Row" +:+ str row_num
             +:+ "Cell" +:+ str cell_num +:+ ".value")).

(** Lines 34-132: Federal Employment (13A.1). *)
Definition federal (field_name : string) : flow (option string) :=
  let prefix := "section13.federalEmployment.entries[0]." in
  if contains "TextField11" field_name then
    with_index "TextField11" field_name (return_named prefix federal_field_map)
  else if contains "RadioButtonList" field_name then
    with_index "RadioButtonList" field_name (fun num =>
      if num =? 0 then
        Ret (Some "section13.federalEmployment.entries[0].employmentType.value")
      else if num =? 1 then
        Ret (Some "section13.federalEmployment.entries[0].hasAdditionalInfo.value")
      else Pass)
  else if contains "From_Datefield_Name_2" field_name then
    with_index "From_Datefield_Name_2" field_name (fun num =>
      if num =? 0 then
        Ret (Some "section13.federalEmployment.entries[0].fromDate.value")
      else if num =? 1 then
        Ret (Some "section13.federalEmployment.entries[0].toDate.value")
      else Pass)
  else if contains "School6_State" field_name then
    with_index "School6_State" field_name (return_named prefix federal_state_map)
  else if contains "DropDownList" field_name then
    with_dropdown true field_name (return_named prefix federal_dropdown_map)
  else if contains "p3-t68" field_name then
    with_index "p3-t68" field_name (return_named prefix federal_phone_map)
  else if contains "#field" field_name then
    with_index "#field" field_name (return_numbered prefix "field")
  else if contains "p13a-1-1cb" field_name then
    Ret (Some "section13.federalEmployment.entries[0].checkbox.value")
  else Pass.

(** Lines 134-249: Non-Federal Employment (13A.2). *)
Definition non_federal (field_name : string) : flow (option string) :=
  let prefix := "section13.nonFederalEmployment.entries[0]." in
  if contains "TextField11" field_name then
    with_index "TextField11" field_name (return_named prefix non_federal_field_map)
  else if contains "RadioButtonList" field_name then
    with_index "RadioButtonList" field_name (return_named prefix non_federal_radio_map)
  else if contains "From_Datefield_Name_2" field_name then
    with_index "From_Datefield_Name_2" field_name (fun num =>
      if num =? 0 then
        Ret (Some "section13.nonFederalEmployment.entries[0].fromDate.value")
      else if num =? 1 then
        Ret (Some "section13.nonFederalEmployment.entries[0].toDate.value")
      else Pass)
  else if contains "School6_State" field_name then
    with_index "School6_State" field_name (return_named prefix non_federal_state_map)
  else if contains "DropDownList" field_name then
    with_dropdown false field_name (return_named prefix non_federal_dropdown_map)
  else if contains "p3-t68" field_name then
    with_index "p3-t68" field_name (return_named prefix non_federal_phone_map)
  else if contains "#field" field_name then
    with_index "#field" field_name (return_numbered prefix "field")
  else if contains "Table1" field_name then
    with_table field_name (return_table prefix)
  else Pass.

(** Lines 251-356: Self-Employment (13A.3). *)
Definition self_employment (field_name : string) : flow (option string) :=
  let prefix := "section13.selfEmployment.entries[0]." in
  if contains "TextField11" field_name then
    with_index "TextField11" field_name
      (return_named prefix self_employment_field_map)
  else if contains "RadioButtonList" field_name then
    with_index "RadioButtonList" field_name
      (return_named prefix self_employment_radio_map)
  else if contains "From_Datefield_Name_2" field_name then
    with_index "From_Datefield_Name_2" field_name (fun num =>
      if num =? 0 then
        Ret (Some "section13.selfEmployment.entries[0].fromDate.value")
      else if num =? 1 then
        Ret (Some "section13.selfEmployment.entries[0].toDate.value")
      else Pass)
  else if contains "School6_State" field_name then
    with_index "School6_State" field_name
      (return_named prefix self_employment_state_map)
  else if contains "DropDownList" field_name then
    with_dropdown false field_name
      (return_named prefix self_employment_dropdown_map)
  else if contains "p3-t68" field_name then
    with_index "p3-t68" field_name
      (return_named prefix self_employment_phone_map)
  else if contains "#field" field_name then
    with_index "#field" field_name (return_numbered prefix "field")
  else Pass.

(** Lines 358-454: Unemployment (13A.4). *)
Definition unemployment (field_name : string) : flow (option string) :=
  let prefix := "section13.unemployment.entries[0]." in
  if contains "TextField11" field_name then
    with_index "TextField11" field_name
      (return_named prefix unemployment_field_map)
  else if contains "RadioButtonList" field_name then
    with_index "RadioButtonList" field_name
      (return_named prefix unemployment_radio_map)
  else if contains "From_Datefield_Name_2" field_name then
    with_index "From_Datefield_Name_2" field_name
      (return_named prefix unemployment_date_map)
  else if contains "School6_State" field_name then
    with_index "School6_State" field_name
      (return_named prefix unemployment_state_map)
  else if contains "DropDownList" field_name then
    with_dropdown false field_name
      (return_named prefix unemployment_dropdown_map)
  else if contains "p3-t68" field_name then
    with_index "p3-t68" field_name (return_numbered prefix "phone")
  else if contains "#field" field_name then
    with_index "#field" field_name (return_numbered prefix "field")
  else if contains "#area" field_name then
    match search pat_area_field field_name with
    | Some (g1, g2) =>
        let! area_num := int g1 in
        let! field_num := int g2 in
        Ret (Some (prefix +:+ "area" +:+ str area_num +:+ "Field"
                   +:+ str field_num +:+ ".value"))
    | None => Pass
    end
  else Pass.

(** Lines 553-588: the [#area] branch of Employment Issues. *)
Definition issues_area (field_name : string) : flow (option string) :=
  let prefix := "section13.employmentRecordIssues." in
  with_index "#area" field_name (fun area_num =>
    let area := prefix +:+ "area" +:+ str area_num in
    if contains "TextField11" field_name then
      with_index "TextField11" field_name (return_numbered area "Text")
    else if contains "#field" field_name then
      with_index "#field" field_name (return_numbered area "Field")
    else if contains "DropDownList" field_name then
      with_dropdown true field_name (return_numbered area "Dropdown")
    else if contains "From_Datefield_Name_2" field_name then
      with_index "From_Datefield_Name_2" field_name (return_numbered area "Date")
    else if contains "School6_State" field_name then
      with_index "School6_State" field_name (return_numbered area "State")
    else if contains "p3-t68" field_name then
      with_index "p3-t68" field_name (return_numbered area "Phone")
    else Pass).

(** Lines 456-588: Employment Issues (13A.5). *)
Definition issues (field_name : string) : flow (option string) :=
  let prefix := "section13.employmentRecordIssues." in
  if contains "TextField11" field_name then
    with_index "TextField11" field_name (return_named prefix issues_field_map)
  else if contains "RadioButtonList" field_name then
    with_index "RadioButtonList" field_name (return_named prefix issues_radio_map)
  else if contains "From_Datefield_Name_2" field_name then
    with_index "From_Datefield_Name_2" field_name
      (return_named prefix issues_date_map)
  else if contains "School6_State" field_name then
    with_index "School6_State" field_name (return_named prefix issues_state_map)
  else if contains "DropDownList" field_name then
    with_dropdown false field_name (return_named prefix issues_dropdown_map)
  else if contains "p3-t68" field_name then
    with_index "p3-t68" field_name (return_named prefix issues_phone_map)
  else if contains "#field" field_name then
    with_index "#field" field_name (return_numbered prefix "field")
  else if contains "#area" field_name then
    issues_area field_name
  else Pass.

(** Lines 661-715.  Every [return] of the function is explicit except
    the last, which is [return None]. *)
Definition generate_additional_section_mapping
    (field_name section_prefix : string) : res (option string) :=
  let prefix := "section13." +:+ section_prefix +:+ ".entries[0]." in
  run (
    (if contains "TextField11" field_name then
       with_index "TextField11" field_name (return_numbered prefix "textField")
     else if contains "RadioButtonList" field_name then
       with_index "RadioButtonList" field_name
         (return_numbered prefix "radioButton")
     else if contains "From_Datefield_Name_2" field_name then
       with_index "From_Datefield_Name_2" field_name
         (return_numbered prefix "dateField")
     else if contains "School6_State" field_name then
       with_index "School6_State" field_name (return_numbered prefix "state")
     else if contains "DropDownList" field_name then
       with_dropdown true field_name (return_numbered prefix "dropdown")
     else if contains "p3-t68" field_name then
       with_index "p3-t68" field_name (return_numbered prefix "phone")
     else if contains "#field" field_name then
       with_index "#field" field_name (return_numbered prefix "field")
     else if contains "Table1" field_name then
       with_table field_name (return_table prefix)
     else Pass) ;;
    Ret None).

(** [return f(...)]: the callee's value or its exception. *)
Definition return_call {R : Type} (r : res R) : flow R :=
  let! v := r in Ret v.

(** Lines 34-601: the chain of section branches, in source order. *)
Definition section_chain (field_name : string) : flow (option string) :=
  if contains "section_13_1-2" field_name then
    federal field_name
  else if contains "section13_2" field_name
          && negb (contains "section13_2-2" field_name) then
    non_federal field_name
  else if contains "section13_3" field_name
          && negb (contains "section13_3-2" field_name) then
    self_employment field_name
  else if contains "section13_4" field_name then
    unemployment field_name
  else if contains "section13_5" field_name then
    issues field_name
  else if contains "section13_2-2" field_name then
    return_call (generate_additional_section_mapping field_name
                   "nonFederalEmploymentAdditional")
  else if contains "section13_3-2" field_name then
    return_call (generate_additional_section_mapping field_name
                   "selfEmploymentAdditional")
  else if contains "section13_4_3" field_name then
    return_call (generate_additional_section_mapping field_name
                   "unemploymentAdditional")
  else Pass.

(** Lines 607-655: the two locals [field_type] and [field_index] after
    the widget chain of the default fallback, or the path the
    [Table1] branch returns at once. *)
Inductive probe : Type :=
| Typed (field_type : string) (field_index : Z)
| Tabular (path : string).

(** [field_type = ftype], and [field_index] is overwritten only when
    the pattern matches; it keeps its initial [0] otherwise. *)
Definition typed_index (ftype tag field_name : string) : res probe :=
  match search (pat_index tag) field_name with
  | Some g => bind (int g) (fun field_index => Val (Typed ftype field_index))
  | None => Val (Typed ftype 0)
  end.

Definition classify_widget (field_name section_id : string) : res probe :=
  if contains "TextField11" field_name then
    typed_index "textField" "TextField11" field_name
  else if contains "RadioButtonList" field_name then
    typed_index "radioButton" "RadioButtonList" field_name
  else if contains "CheckBox" field_name then
    Val (Typed "checkBox" 0)
  else if contains "DropDownList" field_name then
    match search pat_dropdown field_name with
    | Some (g1, _) =>
        bind (int g1) (fun field_index => Val (Typed "dropdown" field_index))
    | None => Val (Typed "dropdown" 0)
    end
  else if contains "School6_State" field_name then
    typed_index "state" "School6_State" field_name
  else if contains "From_Datefield_Name_2" field_name then
    typed_index "dateField" "From_Datefield_Name_2" field_name
  else if contains "p3-t68" field_name then
    typed_index "phoneField" "p3-t68" field_name
  else if contains "#field" field_name then
    typed_index "genericField" "#field" field_name
  else if contains "Table1" field_name then
    match search pat_table field_name with
    | Some (g1, g2, _, g4, _) =>
        bind (int g1) (fun table_num =>
        bind (int g2) (fun row_num =>
        bind (int g4) (fun cell_num =>
          Val (Tabular ("section13.section" +:+ section_id +:+ ".table"
                        +:+ str table_num +:+ "Row" +:+ str row_num
                        +:+ "Cell" +:+ str cell_num +:+ ".value")))))
    | None => Val (Typed "tableField" 0)
    end
  else Val (Typed "unknown" 0).

(** Lines 603-657: the default fallback. *)
Definition fallback (field_name : string) : flow (option string) :=
  match search pat_section field_name with
  | Some section_id =>
      let! p := classify_widget field_name section_id in
      match p with
      | Tabular path => Ret (Some path)
      | Typed field_type field_index =>
          Ret (Some ("section13.section" +:+ section_id +:+ "." +:+ field_type
                     +:+ str field_index +:+ ".value"))
      end
  | None => Pass
  end.

(** [generate_logical_path(field_name, field_value, section_pattern)];
    the second and third parameters are never read, and the local
    [section_part] is never used. *)
Definition generate_logical_path (field_name : string) : res (option string) :=
  let pdf_parts := split "." field_name in
  run (
    (if (Z.of_nat (length pdf_parts) <? 2) then Ret None else Pass) ;;
    section_chain field_name ;;
    fallback field_name ;;
    Ret None).

(** *** [main], lines 733-769: the loop over [data['fields']] *)

(** An element of [data['fields']]: the loop skips what is not a dict
    and a dict without the key ['name'].  The loop also reads
    [field.get('value', '')], which [generate_logical_path] ignores. *)
Inductive item : Type :=
| NotADict
| NoName
| Named (field_name : string).

(** The three accumulators of [main]. *)
Record acc : Type := Acc {
  mappings : gmap string string;
  unmapped_fields : list string;
  section_stats : gmap string Z
}.

Definition initial : acc :=
  {| mappings := ∅; unmapped_fields := []; section_stats := ∅ |}.

(** [if logical_path:] is false for [None] and for the empty string. *)
Definition truthy (logical_path : option string) : option string :=
  match logical_path with
  | Some (String c p) => Some (String c p)
  | _ => None
  end.

(** Lines 752-767: the key of [section_stats] that is incremented. *)
Definition stats_key (field_name : string) : string :=
  if contains "section_13_1-2" field_name then "13A.1 Federal Employment"
  else if contains "section13_2" field_name
          && negb (contains "section13_2-2" field_name) then
    "13A.2 Non-Federal Employment"
  else if contains "section13_2-2" field_name then
    "13A.2 Additional Non-Federal"
  else if contains "section13_3" field_name
          && negb (contains "section13_3-2" field_name) then
    "13A.3 Self-Employment"
  else if contains "section13_3-2" field_name then
    "13A.3 Additional Self-Employment"
  else if contains "section13_4" field_name then "13A.4 Unemployment"
  else if contains "section13_5" field_name then "13A.5 Employment Issues"
  else "Other".

(** [d[k] += 1] on a [defaultdict(int)]. *)
Definition increment (k : string) (d : gmap string Z) : gmap string Z :=
  <[k := default 0 (d !! k) + 1]> d.

(** One iteration of the loop. *)
Definition step (st : acc) (field : item) : res acc :=
  match field with
  | NotADict | NoName => Val st
  | Named field_name =>
      bind (generate_logical_path field_name) (fun logical_path =>
        match truthy logical_path with
        | Some path =>
            Val {| mappings := <[path := field_name]> (mappings st);
                   unmapped_fields := unmapped_fields st;
                   section_stats := increment (stats_key field_name)
                                      (section_stats st) |}
        | None =>
            Val {| mappings := mappings st;
                   unmapped_fields := unmapped_fields st ++ [field_name];
                   section_stats := section_stats st |}
        end)
  end.

Fixpoint loop (st : acc) (fields : list item) : res acc :=
  match fields with
  | [] => Val st
  | field :: rest => bind (step st field) (fun st' => loop st' rest)
  end.

(** The accumulators [main] prints and writes out. *)
Definition main (fields : list item) : res acc := loop initial fields.


End GenerateFieldMappings.

(** ** The section 16 scripts *)

(** One element of the [fields] array of [section-16.json].  The scripts
    index ['name'] directly and read the other attributes with [.get]. *)
Record field : Type := Field {
  name : string;
  label : option string;
  type : option string;
  page : option Z
}.

Global Instance field_eq_dec : EqDecision field.
Proof. solve_decision. Defined.

(** [len(xs)] *)
Definition len {A : Type} (xs : list A) : Z := Z.of_nat (length xs).

(** [d[k].append(x)] on a [defaultdict(list)]. *)
Definition append_to `{Countable K} {A : Type} (k : K) (x : A)
    (d : gmap K (list A)) : gmap K (list A) :=
  <[k := default [] (d !! k) ++ [x]]> d.

(** [d.get(k, [])], also [d[k]] on a [defaultdict(list)]. *)
Definition get_list `{Countable K} {A : Type} (d : gmap K (list A)) (k : K)
  : list A :=
  default [] (d !! k).

(** [sum(xs)] *)
Definition sum (xs : list Z) : Z := foldr Z.add 0 xs.

(** [sorted(d.keys())] for integer keys. *)
Definition sorted_keys {A : Type} (d : gmap Z A) : list Z :=
  merge_sort Z.le (map_to_list d).*1.

(** *** verify_field_pattern.py *)

Module VerifyFieldPattern.

(** Line 44: the bucket of an index outside every range. *)
Definition unknown_person : Z := 0.

(** Lines 36-44: the person an index of [TextField11] belongs to. *)
Definition person_of_index (index : Z) : Z :=
  if (0 <=? index) && (index <=? 10) then 1
  else if (11 <=? index) && (index <=? 21) then 2
  else if (22 <=? index) && (index <=? 32) then 3
  else unknown_person.

(** Lines 25-48: [textfield_pattern] and [other_fields]. *)
Record split_fields : Type := SplitFields {
  textfield_pattern : gmap Z (list (Z * field));
  other_fields : list field
}.

Definition split_step (st : split_fields) (f : field) : res split_fields :=
  match search (pat_index "TextField11") (name f) with
  | Some g =>
      bind (int g) (fun index =>
        let person := person_of_index index in
        Val {| textfield_pattern :=
                 append_to person (index, f) (textfield_pattern st);
               other_fields := other_fields st |})
  | None =>
      Val {| textfield_pattern := textfield_pattern st;
             other_fields := other_fields st ++ [f] |}
  end.

Fixpoint split_loop (st : split_fields) (fs : list field) : res split_fields :=
  match fs with
  | [] => Val st
  | f :: rest => bind (split_step st f) (fun st' => split_loop st' rest)
  end.

(** Lines 83-87: [area_counts]. *)
Definition area_step (area_counts : gmap Z Z) (f : field) : res (gmap Z Z) :=
  match search (pat_index "#area") (name f) with
  | Some g =>
      bind (int g) (fun area =>
        Val (<[area := default 0 (area_counts !! area) + 1]> area_counts))
  | None => Val area_counts
  end.

Fixpoint area_loop (area_counts : gmap Z Z) (fs : list field)
  : res (gmap Z Z) :=
  match fs with
  | [] => Val area_counts
  | f :: rest => bind (area_step area_counts f) (fun c => area_loop c rest)
  end.

(** [sum(area_counts.values())] *)
Definition sum_values (d : gmap Z Z) : Z := sum (map_to_list d).*2.

(** What the function computes before the final printing. *)
Record report : Type := Report {
  pattern : split_fields;
  area_counts : gmap Z Z;
  remaining_fields : Z;
  shared_per_person : Z;
  person1_total : Z;
  person2_total : Z;
  person3_total : Z;
  foreign_org_total : Z;
  entries : list Z;
  total_calculated : Z
}.

Definition has (sub : string) (f : field) : bool := contains sub (name f).

Definition verify_field_pattern (fields : list field) : res report :=
  let section16_3_fields := List.filter (fun f => has "Section16_3" f) fields in
  bind (split_loop {| textfield_pattern := ∅; other_fields := [] |}
          section16_3_fields) (fun pat =>
  let suffix_fields := List.filter (fun f => has "suffix[" f) section16_3_fields in
  let phone_fields := List.filter (fun f => has "p3-t68[" f) section16_3_fields in
  let area_fields := List.filter (fun f => has "#area[" f) section16_3_fields in
  bind (area_loop ∅ area_fields) (fun counts =>
  let person1_textfields := len (get_list (textfield_pattern pat) 1) in
  let person2_textfields := len (get_list (textfield_pattern pat) 2) in
  let person3_textfields := len (get_list (textfield_pattern pat) 3) in
  let person1_area := default 0 (counts !! 0) in
  let person2_area := default 0 (counts !! 1) in
  let person3_area := default 0 (counts !! 2) in
  let remaining :=
    len (other_fields pat) - len suffix_fields - len phone_fields
    - sum_values counts in
  let shared := remaining `div` 3 in
  let p1 := person1_textfields + person1_area + 1 + 2 + shared in
  let p2 := person2_textfields + person2_area + 1 + 2 + shared in
  let p3 := person3_textfields + person3_area + 1 + 2 + shared in
  let section16_1_fields := List.filter (fun f => has "Section16_1" f) fields in
  let foreign := len section16_1_fields in
  let es := [foreign; p1; p2; p3] in
  Val {| pattern := pat; area_counts := counts;
         remaining_fields := remaining; shared_per_person := shared;
         person1_total := p1; person2_total := p2; person3_total := p3;
         foreign_org_total := foreign; entries := es;
         total_calculated := sum es |})).

End VerifyFieldPattern.

(** *** calculate_field_distribution.py *)

Module CalculateFieldDistribution.

(** Lines 21-29. *)
Definition section16_1_fields (fields : list field) : list field :=
  List.filter (fun f => contains "Section16_1" (name f)) fields.

Definition section16_3_fields (fields : list field) : list field :=
  List.filter (fun f => negb (contains "Section16_1" (name f))
                   && contains "Section16_3" (name f)) fields.

(** Lines 35-45: [section16_3_by_area] and [section16_3_shared]. *)
Record areas : Type := Areas {
  section16_3_by_area : gmap Z (list field);
  section16_3_shared : list field
}.

Definition area_step (st : areas) (f : field) : res areas :=
  match search (pat_index "#area") (name f) with
  | Some g =>
      bind (int g) (fun area =>
        Val {| section16_3_by_area := append_to area f (section16_3_by_area st);
               section16_3_shared := section16_3_shared st |})
  | None =>
      Val {| section16_3_by_area := section16_3_by_area st;
             section16_3_shared := section16_3_shared st ++ [f] |}
  end.

Fixpoint area_loop (st : areas) (fs : list field) : res areas :=
  match fs with
  | [] => Val st
  | f :: rest => bind (area_step st f) (fun st' => area_loop st' rest)
  end.

(** [a // b] and [a % b]; both raise when [b] is zero. *)
Definition floordiv (a b : Z) : res Z :=
  if b =? 0 then Exc ZeroDivisionError else Val (a `div` b).

Definition modulo (a b : Z) : res Z :=
  if b =? 0 then Exc ZeroDivisionError else Val (a `mod` b).

(** Lines 59-73: one row per person, [(area, area_specific,
    total_for_person)], with the two quantities printed before them. *)
Record distribution : Type := Distribution {
  shared_per_person : Z;
  remaining_shared : Z;
  per_person : list (Z * Z * Z)
}.

(** Lines 79-100: the four entries of the hypothesis test. *)
Record report : Type := Report {
  by_area : areas;
  total_area_fields : Z;
  shared_fields_count : Z;
  num_people : Z;
  distributed : option distribution;
  entries : option (list Z)
}.

(** Lines 60-73: the distribution printed when there is at least one
    area. *)
Definition distribute (groups : gmap Z (list field)) (shared_fields_count : Z)
  : res (option distribution) :=
  let num_people := Z.of_nat (size groups) in
  if 0 <? num_people then
    bind (floordiv shared_fields_count num_people) (fun per =>
    bind (modulo shared_fields_count num_people) (fun remaining =>
      Val (Some {| shared_per_person := per;
                   remaining_shared := remaining;
                   per_person :=
                     (fun area =>
                        let area_specific := len (get_list groups area) in
                        (area, area_specific, area_specific + per))
                     <$> sorted_keys groups |})))
  else Val None.

(** Lines 82-100: the entries of the hypothesis test, computed when
    there are exactly three areas. *)
Definition hypothesis_entries (entry1_fields : Z)
    (groups : gmap Z (list field)) (shared_fields_count : Z)
  : res (option (list Z)) :=
  let num_people := Z.of_nat (size groups) in
  if num_people =? 3 then
    bind (floordiv shared_fields_count 3) (fun per =>
      Val (Some [entry1_fields;
                 len (get_list groups 0) + per;
                 len (get_list groups 1) + per;
                 len (get_list groups 2) + per]))
  else Val None.

Definition calculate_field_distribution (fields : list field) : res report :=
  let s16_1 := section16_1_fields fields in
  let s16_3 := section16_3_fields fields in
  bind (area_loop {| section16_3_by_area := ∅; section16_3_shared := [] |}
          s16_3) (fun st =>
  let groups := section16_3_by_area st in
  let total_area := sum ((fun kv => len kv.2) <$> map_to_list groups) in
  let shared_count := len (section16_3_shared st) in
  bind (distribute groups shared_count) (fun dist =>
  bind (hypothesis_entries (len s16_1) groups shared_count) (fun es =>
  Val {| by_area := st; total_area_fields := total_area;
         shared_fields_count := shared_count;
         num_people := Z.of_nat (size groups);
         distributed := dist; entries := es |}))).

End CalculateFieldDistribution.

(** *** analyze_section16_structure.py *)

Module AnalyzeSection16Structure.

(** [Section16_(\d+)] *)
Definition pat_section16 : rx string :=
  lit "Section16_" $ digits $ fun d => accept d.

(** Lines 24-41: [section_groups], keyed by section and then by
    area; both keys are strings built from the captured text. *)
Definition group_step (section_groups : gmap string (gmap string (list field)))
    (f : field) : gmap string (gmap string (list field)) :=
  match search pat_section16 (name f) with
  | Some g =>
      let section := "Section16_" +:+ g in
      let area :=
        match search (pat_index "#area") (name f) with
        | Some a => "area_" +:+ a
        | None => "no_area"
        end in
      <[section := append_to area f (default ∅ (section_groups !! section))]>
        section_groups
  | None => section_groups
  end.

Definition section_groups (fields : list field)
  : gmap string (gmap string (list field)) :=
  foldl group_step ∅ fields.

(** [section_groups.get(section, {}).get(area, [])] *)
Definition group (groups : gmap string (gmap string (list field)))
    (section area : string) : list field :=
  get_list (default ∅ (groups !! section)) area.

(** Lines 61-62. *)
Definition section16_1_count (fields : list field) : Z :=
  len (group (section_groups fields) "Section16_1" "no_area").

Definition section16_3_areas (fields : list field) : Z :=
  Z.of_nat (size (default ∅ (section_groups fields !! "Section16_3"))).

End AnalyzeSection16Structure.

(** *** generate_section16_interfaces.py *)

Module GenerateSection16Interfaces.

(** Lines 29-34: [field_info]; every attribute has a default. *)
Record field_info : Type := FieldInfo {
  info_name : string;
  info_label : string;
  info_type : string;
  info_page : Z
}.

Definition field_info_of (f : field) : field_info :=
  {| info_name := name f;
     info_label := default "" (label f);
     info_type := default "" (type f);
     info_page := default 0 (page f) |}.

(** [d[k] = v] on a dict, which keeps the position of a key that is
    already present. *)
Fixpoint setitem {V : Type} (k : string) (v : V) (d : list (string * V))
  : list (string * V) :=
  match d with
  | [] => [(k, v)]
  | (k', v') :: d' =>
      if String.eqb k k' then (k, v) :: d' else (k', v') :: setitem k v d'
  end.

(** Lines 21-39: the two dicts keyed by field name. *)
Definition categorize (fields : list field)
  : list (string * field_info) * list (string * field_info) :=
  foldl (fun '(s16_1, s16_3) f =>
           if contains "Section16_1" (name f) then
             (setitem (name f) (field_info_of f) s16_1, s16_3)
           else if contains "Section16_3" (name f) then
             (s16_1, setitem (name f) (field_info_of f) s16_3)
           else (s16_1, s16_3))
        ([], []) fields.

(** Lines 110-124: the key of [groups] a field of [Section16_1] is
    appended to. *)
Definition group_16_1 (name : string) (fi : field_info) : string :=
  let label := lower (info_label fi) in
  if contains "organization" label || contains "TextField11[0]" name then
    "organization"
  else if contains "contact #1" label || contains "#area[2]" name then
    "contact1"
  else if contains "contact #2" label || contains "#area[5]" name then
    "contact2"
  else if contains "date" label || contains "From_Datefield" name then
    "dates"
  else if contains "position" label || contains "rank" label
          || contains "division" label then
    "service_details"
  else "other".

(** Lines 137-147: likewise for [Section16_3]. *)
Definition group_16_3 (name : string) (fi : field_info) : string :=
  let label := lower (info_label fi) in
  if contains "#area[0]" name || contains "entry #1" label then "person1"
  else if contains "#area[1]" name || contains "entry #2" label then "person2"
  else if contains "#area[2]" name || contains "entry #3" label then "person3"
  else "shared".

(** The initial [groups] dicts: every key is present with []. *)
Definition groups_16_1 : gmap string (list (string * field_info)) :=
  list_to_map [("organization", []); ("service_details", []);
               ("contact1", []); ("contact2", []); ("dates", []);
               ("other", [])].

Definition groups_16_3 : gmap string (list (string * field_info)) :=
  list_to_map [("person1", []); ("person2", []); ("person3", []);
               ("shared", [])].

Definition analyze_section16_1_fields (fields : list (string * field_info))
  : gmap string (list (string * field_info)) :=
  foldl (fun groups '(name, fi) =>
           append_to (group_16_1 name fi) (name, fi) groups)
        groups_16_1 fields.

Definition analyze_section16_3_fields (fields : list (string * field_info))
  : gmap string (list (string * field_info)) :=
  foldl (fun groups '(name, fi) =>
           append_to (group_16_3 name fi) (name, fi) groups)
        groups_16_3 fields.

End GenerateSection16Interfaces.

(** ** scripts/verify-section13-complete-1086.py *)

Module VerifySection13.

(** The JSON value of a field, as far as [analyze_all_fields]
    distinguishes it; an absent ['value'] reads as [None]. *)
Inductive pyvalue : Type :=
| VStr (s : string)
| VBool (b : bool)
| VList
| VNone
| VOther.

(** One element of [data['fields']]; every attribute is read with
    [.get]. *)
Record pdf_field : Type := PdfField {
  pdf_type : option string;
  pdf_name : option string;
  pdf_value : pyvalue;
  pdf_id : option string;
  pdf_unique_id : option string
}.

(** Lines 49-55: the dict appended to [by_type]. *)
Record entry : Type := Entry {
  index : Z;
  name : string;
  value : pyvalue;
  id : string;
  uniqueId : string
}.

(** Lines 32-39: [field_analysis]. *)
Record field_analysis : Type := FieldAnalysis {
  total_fields : Z;
  by_type : gmap string (list entry);
  by_value_type : gmap string (list pdf_field);
  string_values : gset string;
  field_names : gset string;
  unique_ids : gset string
}.

Definition value_kind (v : pyvalue) : string :=
  match v with
  | VStr _ => "string"
  | VBool _ => "boolean"
  | VList => "list"
  | VNone => "null"
  | VOther => "other"
  end.

(** Lines 41-71: one iteration; [i] is the position of the field. *)
Definition analyze_step (fa : field_analysis) (i : Z) (f : pdf_field)
  : field_analysis :=
  let field_type := default "unknown" (pdf_type f) in
  let field_name := default ("field_" +:+ str i) (pdf_name f) in
  let field_value := pdf_value f in
  let field_id := default "" (pdf_id f) in
  let unique_id := default "" (pdf_unique_id f) in
  {| total_fields := total_fields fa;
     by_type :=
       append_to field_type
         {| index := i; name := field_name; value := field_value;
            id := field_id; uniqueId := unique_id |}
         (by_type fa);
     by_value_type := append_to (value_kind field_value) f (by_value_type fa);
     string_values :=
       match field_value with
       | VStr s => {[s]} ∪ string_values fa
       | _ => string_values fa
       end;
     field_names := {[field_name]} ∪ field_names fa;
     unique_ids := {[unique_id]} ∪ unique_ids fa |}.

Fixpoint analyze_loop (fa : field_analysis) (i : Z) (fs : list pdf_field)
  : field_analysis :=
  match fs with
  | [] => fa
  | f :: rest => analyze_loop (analyze_step fa i f) (i + 1) rest
  end.

Definition analyze_all_fields (fields_array : list pdf_field) : field_analysis :=
  analyze_loop
    {| total_fields := len fields_array; by_type := ∅; by_value_type := ∅;
       string_values := ∅; field_names := ∅; unique_ids := ∅ |}
    0 fields_array.

(** Lines 77-83: the result of [extract_interface_mappings]. *)
Record interface_mappings : Type := InterfaceMappings {
  im_string_values : gset string;
  im_field_names : gset string;
  checkbox_fields : gset string;
  radio_fields : gset string;
  dropdown_fields : gset string
}.

(** Lines 125-132 and 166: [results]. *)
Record results : Type := Results {
  string_coverage : Q;
  checkbox_coverage : Q;
  radio_coverage : Q;
  dropdown_coverage : Q;
  total_coverage : Q;
  missing_fields : gmap string (list string);
  total_mapped : Z
}.

(** [a / b]: the quotient is kept exact instead of rounded to a
    float; it raises when [b] is zero. *)
Definition truediv (a b : Z) : res Q :=
  if b =? 0 then Exc ZeroDivisionError
  else Val (inject_Z a / inject_Z b)%Q.

(** [a / b * 100 if guard else 0] *)
Definition percent (guard : bool) (a b : Z) : res Q :=
  if guard then bind (truediv a b) (fun q => Val (q * 100)%Q) else Val 0%Q.

(** [bool(xs)] for a list and for a set. *)
Definition nonempty {A : Type} (xs : list A) : bool :=
  match xs with
  | [] => false
  | _ :: _ => true
  end.

Definition set_len (s : gset string) : Z := Z.of_nat (size s).

(** [set(xs)] *)
Definition set_of (xs : list string) : gset string := list_to_set xs.

(** Lines 142-160 repeat this for the three widget kinds:
    coverage, matches and missing names. *)
Definition widget_coverage (fa : field_analysis) (kind : string)
    (mapped : gset string) : res (Q * gset string * list string) :=
  let widget_fields := name <$> get_list (by_type fa) kind in
  let matches := set_of widget_fields ∩ mapped in
  bind (percent (nonempty widget_fields) (set_len matches) (len widget_fields))
    (fun coverage =>
       Val (coverage, matches, elements (set_of widget_fields ∖ mapped))).

(** Lines 123-168. *)
Definition verify_coverage (fa : field_analysis) (im : interface_mappings)
  : res results :=
  let string_matches := string_values fa ∩ im_string_values im in
  bind (percent (nonempty (elements (string_values fa)))
          (set_len string_matches) (set_len (string_values fa)))
    (fun strings =>
  let missing_strings := elements (string_values fa ∖ im_string_values im) in
  bind (widget_coverage fa "PDFCheckBox" (checkbox_fields im))
    (fun '(checkboxes, checkbox_matches, missing_checkboxes) =>
  bind (widget_coverage fa "PDFRadioGroup" (radio_fields im))
    (fun '(radios, radio_matches, missing_radios) =>
  bind (widget_coverage fa "PDFDropdown" (dropdown_fields im))
    (fun '(dropdowns, dropdown_matches, missing_dropdowns) =>
  let mapped :=
    set_len string_matches + set_len checkbox_matches
    + set_len radio_matches + set_len dropdown_matches in
  bind (percent (negb (total_fields fa =? 0)) mapped (total_fields fa))
    (fun total =>
  Val {| string_coverage := strings;
         checkbox_coverage := checkboxes;
         radio_coverage := radios;
         dropdown_coverage := dropdowns;
         total_coverage := total;
         missing_fields :=
           <["dropdowns" := missing_dropdowns]>
           (<["radios" := missing_radios]>
           (<["checkboxes" := missing_checkboxes]>
           (<["strings" := missing_strings]> ∅)));
         total_mapped := mapped |}))))).

End VerifySection13.

(** ** Further parts of the same scripts *)

(** *** scripts/generate-field-mappings.py, lines 771-775: the summary
    [main] prints after the loop *)

Module MainSummary.
Import GenerateFieldMappings.

(** The four printed quantities.  [data.get("fields", [])] is the whole
    list, the skipped elements included; the percentage is kept exact
    instead of formatted with one decimal. *)
Record summary : Type := Summary {
  total_processed : Z;
  successfully_mapped : Z;
  unmapped : Z;
  mapping_coverage : Q
}.

Definition summarize (fields : list item) (st : acc) : res summary :=
  let mapped := Z.of_nat (size (mappings st)) in
  bind (VerifySection13.truediv mapped (len fields)) (fun q =>
    Val {| total_processed := len fields;
           successfully_mapped := mapped;
           unmapped := len (unmapped_fields st);
           mapping_coverage := (q * 100)%Q |}).

(** The loop followed by the summary. *)
Definition main_summary (fields : list item) : res summary :=
  bind (main fields) (summarize fields).

End MainSummary.

(** *** generate_section16_interfaces.py, lines 269-276 *)

Module SafeNames.

(** [s.replace(old, '')] for a non-empty [old]: occurrences are removed
    from left to right and do not overlap; [skip] characters of an
    occurrence are still to be dropped. *)
Fixpoint remove_go (old : string) (skip : nat) (s : string) : string :=
  match s with
  | EmptyString => EmptyString
  | String c s' =>
      match skip with
      | S k => remove_go old k s'
      | O =>
          if startswith old s then remove_go old (String.length old - 1) s'
          else String c (remove_go old O s')
      end
  end.

Definition remove (old s : string) : string := remove_go old O s.

Definition is_lower (c : ascii) : bool :=
  (97 <=? code c) && (code c <=? 122).

(** The class [[a-zA-Z0-9_]]. *)
Definition is_word (c : ascii) : bool :=
  is_lower c || is_upper c || is_digit c || Ascii.eqb c "_"%char.

(** [re.sub(r'[^a-zA-Z0-9_]', '_', s)] *)
Fixpoint replace_non_word (s : string) : string :=
  match s with
  | EmptyString => EmptyString
  | String c s' =>
      String (if is_word c then c else "_"%char) (replace_non_word s')
  end.

(** [re.sub(r'_+', '_', s)]; [inside] tells that the previous character
    was an underscore of the run being replaced. *)
Fixpoint collapse_go (inside : bool) (s : string) : string :=
  match s with
  | EmptyString => EmptyString
  | String c s' =>
      if Ascii.eqb c "_"%char then
        if inside then collapse_go true s'
        else String "_"%char (collapse_go true s')
      else String c (collapse_go false s')
  end.

Definition collapse (s : string) : string := collapse_go false s.

(** [s.lstrip('_')] and [s.rstrip('_')] *)
Fixpoint lstrip (s : string) : string :=
  match s with
  | EmptyString => EmptyString
  | String c s' => if Ascii.eqb c "_"%char then lstrip s' else s
  end.

Fixpoint rstrip (s : string) : string :=
  match s with
  | EmptyString => EmptyString
  | String c s' =>
      match rstrip s' with
      | EmptyString =>
          if Ascii.eqb c "_"%char then EmptyString
          else String c EmptyString
      | rest => String c rest
      end
  end.

(** [s.strip('_')] *)
Definition strip_underscores (s : string) : string := rstrip (lstrip s).

Definition convert_to_safe_property_name (field_name : string) : string :=
  let safe_name := remove "form1[0]." field_name in
  let safe_name := replace_non_word safe_name in
  let safe_name := collapse safe_name in
  strip_underscores safe_name.

End SafeNames.

(** *** scripts/verify-section13-complete-1086.py, lines 75-121 *)

Module ExtractInterfaceMappings.
Import VerifySection13.

(** [.*?] under [re.DOTALL]: as few characters as possible, of any
    kind, before the rest of the pattern matches. *)
Fixpoint lazy_any {A : Type} (k : rx A) (s : string) : option A :=
  match k s with
  | Some a => Some a
  | None =>
      match s with
      | EmptyString => None
      | String _ s' => lazy_any k s'
      end
  end.

(** The end of a pattern whose match is read with [group(0)]: the
    continuation yields what is left of the input. *)
Definition rest : rx string := fun s => Some s.

(** The first [n] characters of [s]. *)
Fixpoint take_chars (n : nat) (s : string) : string :=
  match n, s with
  | S k, String c s' => String c (take_chars k s')
  | _, _ => EmptyString
  end.

(** [re.search(p, s, re.DOTALL).group(0)]: the text of the leftmost
    match, [None] when there is none. *)
Fixpoint search_text (p : rx string) (s : string) : option string :=
  match p s with
  | Some left_over =>
      Some (take_chars (String.length s - String.length left_over) s)
  | None =>
      match s with
      | EmptyString => None
      | String _ s' => search_text p s'
      end
  end.

(** [marker.*?closing] *)
Definition pat_block (marker closing : string) : rx string :=
  lit marker $ lazy_any $ lit closing $ rest.

(** [re.findall(r"'([^']+)'", text)].  [inside] is [None] outside
    quotes and holds the characters read since the opening quote
    otherwise; a quote that follows an opening quote at once is itself
    taken as the opening quote, and an unclosed quote yields nothing. *)
Fixpoint findall_quoted_go (inside : option string) (s : string) : list string :=
  match s with
  | EmptyString => []
  | String c s' =>
      if Ascii.eqb c "'"%char then
        match inside with
        | None => findall_quoted_go (Some EmptyString) s'
        | Some EmptyString => findall_quoted_go (Some EmptyString) s'
        | Some field => field :: findall_quoted_go None s'
        end
      else
        match inside with
        | None => findall_quoted_go None s'
        | Some field =>
            findall_quoted_go (Some (field +:+ String c EmptyString)) s'
        end
  end.

Definition findall_quoted (text : string) : list string :=
  findall_quoted_go None text.

(** The quoted texts of the block between [marker] and [closing]; no
    block, no texts. *)
Definition quoted_in_block (marker closing content : string) : list string :=
  match search_text (pat_block marker closing) content with
  | Some text => findall_quoted text
  | None => []
  end.

(** Lines 95-119 keep a quoted text only [if 'form1[0]' in field]. *)
Definition form_fields (xs : list string) : gset string :=
  list_to_set (List.filter (fun field => contains "form1[0]" field) xs).

Definition extract_interface_mappings (interface_content : string)
  : interface_mappings :=
  {| im_string_values :=
       list_to_set (quoted_in_block "SECTION13_FIELD_MAPPINGS" "} as const;"
                      interface_content);
     im_field_names := ∅;
     checkbox_fields :=
       form_fields (quoted_in_block "CHECKBOX_FIELDS:" "}," interface_content);
     radio_fields :=
       form_fields (quoted_in_block "RADIO_BUTTON_GROUPS:" "},"
                      interface_content);
     dropdown_fields :=
       form_fields (quoted_in_block "DROPDOWN_FIELDS:" "}" interface_content) |}.

End ExtractInterfaceMappings.

(** *** analyze_section16_structure.py, lines 44-54 *)

Module AnalyzeSection16Totals.

(** [total_counted]: the lengths of all lists of [section_groups]
    added up; the script walks the keys in sorted order, which does not
    change the sum. *)
Definition section_total (areas : gmap string (list field)) : Z :=
  sum ((fun kv => len kv.2) <$> map_to_list areas).

Definition total_counted (section_groups : gmap string (gmap string (list field)))
  : Z :=
  sum ((fun kv => section_total kv.2) <$> map_to_list section_groups).

End AnalyzeSection16Totals.

(** *** calculate_field_distribution.py, line 95, and
    verify_field_pattern.py, lines 146-147 *)

(** [total_calculated = entry1_fields + ... + entry4_fields], when the
    entries are computed. *)
Definition total_of_entries (entries : option (list Z)) : option Z :=
  sum <$> entries.

(** * Vocabulary of the properties *)

(** A digit string, as [\d+] captures it. *)
Fixpoint all_digits (s : string) : bool :=
  match s with
  | EmptyString => true
  | String c s' => is_digit c && all_digits s'
  end.

Definition numeral (s : string) : Prop :=
  s <> EmptyString /\ all_digits s = true.

(** What a successful match establishes about its captures. *)
Definition ensures {A : Type} (p : rx A) (P : A -> Prop) : Prop :=
  forall s a, p s = Some a -> P a.

(** A statement that raises nothing, and an expression that has a
    value. *)
Definition safe {R : Type} (s : flow R) : Prop :=
  match s with
  | Throw _ => False
  | _ => True
  end.

Definition ok {A : Type} (r : res A) : Prop :=
  match r with
  | Val _ => True
  | Exc _ => False
  end.

(** Every path a statement returns satisfies [P]. *)
Definition yields (P : string -> Prop) (s : flow (option string)) : Prop :=
  forall p, s = Ret (Some p) -> P p.

Definition under (prefix : string) (p : string) : Prop :=
  startswith prefix p = true.



(** The raw names [main] runs [generate_logical_path] on. *)
Definition names_of (fields : list GenerateFieldMappings.item) : list string :=
  omap (fun field =>
          match field with
          | GenerateFieldMappings.Named field_name => Some field_name
          | _ => None
          end) fields.

(** The path under which [main] records a name; [None] when the name
    is appended to [unmapped_fields]. *)
Definition path_of (field_name : string) : option string :=
  match GenerateFieldMappings.generate_logical_path field_name with
  | Val logical_path => GenerateFieldMappings.truthy logical_path
  | Exc _ => None
  end.

(** The last name of a batch that is given the path. *)
Fixpoint last_source (path : string) (names : list string) : option string :=
  match names with
  | [] => None
  | field_name :: rest =>
      match last_source path rest with
      | Some later => Some later
      | None =>
          if decide (path_of field_name = Some path) then Some field_name
          else None
      end
  end.

(** No two distinct names of the batch are given the same path. *)
Definition collision_free (names : list string) : Prop :=
  forall a b p,
    a ∈ names -> b ∈ names -> path_of a = Some p -> path_of b = Some p -> a = b.

(** The [TextField11] tokens of a list of fields, each with its index. *)
Definition textfield_tokens (fs : list field) : list (Z * field) :=
  omap (fun f =>
          match search (pat_index "TextField11") (name f) with
          | Some g =>
              match int g with
              | Val index => Some (index, f)
              | Exc _ => None
              end
          | None => None
          end) fs.

(** The explicit area index a field name carries, if any. *)
Definition area_of (f : field) : option Z :=
  match search (pat_index "#area") (name f) with
  | Some g =>
      match int g with
      | Val area => Some area
      | Exc _ => None
      end
  | None => None
  end.

(** The two keys under which [analyze_section16_structure] files a
    field. *)
Definition section_key (f : field) : option string :=
  match search AnalyzeSection16Structure.pat_section16 (name f) with
  | Some g => Some ("Section16_" +:+ g)
  | None => None
  end.

Definition area_key (f : field) : string :=
  match search (pat_index "#area") (name f) with
  | Some a => "area_" +:+ a
  | None => "no_area"
  end.

(** [s.endswith(suffix)] *)
Fixpoint endswith (suffix s : string) : bool :=
  String.eqb s suffix ||
  match s with
  | EmptyString => false
  | String _ s' => endswith suffix s'
  end.

(** [sum(d.values())] for a dict of counters. *)
Definition total_of `{Countable K} (d : gmap K Z) : Z :=
  sum (map_to_list d).*2.

(** The names of a batch that are given a path. *)
Definition mapped_names (names : list string) : list string :=
  filter (fun n => is_Some (path_of n)) names.

(** A path that ends in [.value]. *)
Definition valued (p : string) : Prop := endswith ".value" p = true.

(** Every character of a string satisfies a test. *)
Fixpoint all_chars (test : ascii -> bool) (s : string) : bool :=
  match s with
  | EmptyString => true
  | String c s' => test c && all_chars test s'
  end.

(** The last field of a list that has the given name. *)
Definition last_named (k : string) (fs : list field) : option field :=
  last (filter (fun f => name f = k) fs).

(** The fields of a dump with their positions, counted from [start]. *)
Fixpoint indexed (start : Z) (fs : list VerifySection13.pdf_field)
  : list (Z * VerifySection13.pdf_field) :=
  match fs with
  | [] => []
  | f :: rest => (start, f) :: indexed (start + 1) rest
  end.

(** What [analyze_all_fields] reads from the field at position [i]. *)
Definition type_of (f : VerifySection13.pdf_field) : string :=
  default "unknown" (VerifySection13.pdf_type f).

Definition name_of (i : Z) (f : VerifySection13.pdf_field) : string :=
  default ("field_" +:+ str i) (VerifySection13.pdf_name f).

Definition entry_of (i : Z) (f : VerifySection13.pdf_field)
  : VerifySection13.entry :=
  {| VerifySection13.index := i;
     VerifySection13.name := name_of i f;
     VerifySection13.value := VerifySection13.pdf_value f;
     VerifySection13.id := default "" (VerifySection13.pdf_id f);
     VerifySection13.uniqueId := default "" (VerifySection13.pdf_unique_id f) |}.

(** A character other than the single quote. *)
Definition not_quote (c : ascii) : bool := negb (Ascii.eqb c "'"%char).

(** A text [re.findall(r"'([^']+)'", ...)] can capture. *)
Definition quotable (x : string) : Prop :=
  x <> EmptyString /\ all_chars not_quote x = true.

(** A block of the interface file as it is written: quoted texts, each
    after some text, and a last text before the block is closed. *)
Fixpoint block_body (items : list (string * string)) (last : string) : string :=
  match items with
  | [] => last
  | (before, x) :: others =>
      before +:+ "'" +:+ x +:+ "'" +:+ block_body others last
  end.

(** A text without quote and without closing brace. *)
Definition plain_char (c : ascii) : bool :=
  not_quote c && negb (Ascii.eqb c "}"%char).

Definition plain (s : string) : Prop := all_chars plain_char s = true.

Definition plain_block (items : list (string * string)) (last : string) : Prop :=
  Forall (fun p => plain p.1 /\ plain p.2 /\ p.2 <> EmptyString) items
  /\ plain last.

(** The four ways [verify_field_pattern] counts a field of Section16_3:
    as a text field, as a suffix, as a phone number and under an
    area. *)
Definition is_textfield (f : field) : bool :=
  bool_decide (is_Some (search (pat_index "TextField11") (name f))).

Definition has_area (f : field) : bool := bool_decide (is_Some (area_of f)).

Definition class_count (f : field) : Z :=
  Z.b2z (is_textfield f)
  + Z.b2z (VerifyFieldPattern.has "suffix[" f)
  + Z.b2z (VerifyFieldPattern.has "p3-t68[" f)
  + Z.b2z (has_area f).

(** * Properties *)

(** ** The definitions at work *)

Section Examples.
Import GenerateFieldMappings.

Example search_is_leftmost :
  search (pat_index "TextField11") "TextField11[a].TextField11[03].TextField11[4]"
  = Some "03".
Proof. reflexivity. Qed.

Example dotstar_is_greedy :
  search pat_table "Table1[0].Row2[0].Row3[1].Cell4[0].Cell5[7]"
  = Some ("0", "3", "1", "5", "7").
Proof. reflexivity. Qed.

Example section_pattern :
  search pat_section "form1[0].section13_2-2[0].TextField11[1]" = Some "2-2"
  /\ search pat_section "form1[0].section13_4_3[0].TextField11[1]" = Some "4"
  /\ search pat_section "form1[0].section_13_1-2[0].TextField11[1]" = None.
Proof. repeat split. Qed.

Example int_of_text :
  int "007" = Val 7 /\ int "" = Exc ValueError /\ int "1a" = Exc ValueError
  /\ str 13 = "13".
Proof. repeat split. Qed.

Example split_on_dots :
  split "." "form1[0].section13_4[0].TextField11[3]"
  = ["form1[0]"; "section13_4[0]"; "TextField11[3]"].
Proof. reflexivity. Qed.

Example path_of_table_lookup :
  generate_logical_path "form1[0].section13_4[0].TextField11[3]"
  = Val (Some "section13.unemployment.entries[0].referenceCity.value").
Proof. reflexivity. Qed.

Example path_of_additional_form :
  generate_logical_path "form1[0].section13_2-2[0].Table1[0].Row2[0].Cell3[0]"
  = Val (Some "section13.nonFederalEmploymentAdditional.entries[0].table0Row2Cell3.value").
Proof. reflexivity. Qed.

Example field_tag_before_area_tag :
  generate_logical_path "form1[0].section13_4[0].#area[1].#field[7]"
  = Val (Some "section13.unemployment.entries[0].field7.value").
Proof. reflexivity. Qed.

Example person_of_some_indices :
  VerifyFieldPattern.person_of_index 10 = 1
  /\ VerifyFieldPattern.person_of_index 11 = 2
  /\ VerifyFieldPattern.person_of_index 32 = 3
  /\ VerifyFieldPattern.person_of_index 33 = VerifyFieldPattern.unknown_person.
Proof. repeat split. Qed.

End Examples.

(** ** Strings and patterns *)

Section Strings.

Lemma strip_app (a b s r : string) :
  strip (a +:+ b) s = Some r -> exists r', strip a s = Some r'.
Proof.
  revert s; induction a as [|c a IH]; intros s; simpl.
  - eauto.
  - destruct s as [|d s]; [discriminate|].
    destruct (Ascii.eqb c d); [apply IH | discriminate].
Qed.

Lemma strip_self (a r : string) : strip a (a +:+ r) = Some r.
Proof.
  induction a as [|c a IH]; simpl; [reflexivity|].
  rewrite Ascii.eqb_refl. exact IH.
Qed.

Lemma strip_inv (a s r : string) : strip a s = Some r -> s = a +:+ r.
Proof.
  revert s; induction a as [|c a IH]; intros s; simpl.
  - intros [= ->]. reflexivity.
  - destruct s as [|d s]; [discriminate|].
    destruct (Ascii.eqb_spec c d) as [->|]; [|discriminate].
    intros H. rewrite (IH s H). reflexivity.
Qed.

Lemma startswith_app (a b s : string) :
  startswith (a +:+ b) s = true -> startswith a s = true.
Proof.
  unfold startswith. destruct (strip (a +:+ b) s) eqn:E; [|discriminate].
  apply strip_app in E as [r' ->]. reflexivity.
Qed.

Lemma startswith_self (a r : string) : startswith a (a +:+ r) = true.
Proof. unfold startswith. rewrite strip_self. reflexivity. Qed.

Lemma startswith_inv (a s : string) :
  startswith a s = true -> exists r, s = a +:+ r.
Proof.
  unfold startswith. destruct (strip a s) eqn:E; [|discriminate].
  intros _. eexists. apply strip_inv, E.
Qed.

(** A name that contains a text contains each of its prefixes. *)
Lemma contains_app (a b s : string) :
  contains (a +:+ b) s = true -> contains a s = true.
Proof.
  induction s as [|c s IH]; simpl.
  - rewrite !orb_false_r. apply startswith_app.
  - intros [H|H]%orb_true_iff; apply orb_true_iff.
    + left. eapply startswith_app, H.
    + right. apply IH, H.
Qed.

Lemma contains_app_false (a b s : string) :
  contains a s = false -> contains (a +:+ b) s = false.
Proof.
  intros H. destruct (contains (a +:+ b) s) eqn:E; [|reflexivity].
  apply contains_app in E. congruence.
Qed.

Lemma all_digits_app (a b : string) :
  all_digits (a +:+ b) = all_digits a && all_digits b.
Proof.
  induction a as [|c a IH]; simpl; [reflexivity|].
  rewrite IH, andb_assoc. reflexivity.
Qed.

Lemma int_go_digits (s : string) (acc : Z) :
  all_digits s = true -> 0 <= acc ->
  exists z, int_go acc s = Val z /\ 0 <= z.
Proof.
  revert acc; induction s as [|c s IH]; intros acc; simpl.
  - eauto.
  - intros [Hc Hs]%andb_true_iff Hacc. rewrite Hc.
    apply IH; [exact Hs|].
    unfold is_digit in Hc. apply andb_true_iff in Hc as [H1 _].
    apply Z.leb_le in H1. lia.
Qed.

(** [int] succeeds on what [\d+] captures. *)
Lemma int_numeral (s : string) :
  numeral s -> exists z, int s = Val z /\ 0 <= z.
Proof.
  intros [Hne Hd]. destruct s as [|c s]; [congruence|].
  unfold int. apply int_go_digits; [exact Hd | lia].
Qed.

Lemma accept_ensures {A : Type} (a : A) (P : A -> Prop) :
  P a -> ensures (accept a) P.
Proof. intros H s a' [= <-]. exact H. Qed.

Lemma lit_ensures {A : Type} (l : string) (k : rx A) (P : A -> Prop) :
  ensures k P -> ensures (lit l k) P.
Proof.
  intros H s a. unfold lit. destruct (strip l s); [apply H | discriminate].
Qed.

Lemma digits_from_ensures {A : Type} (k : string -> rx A) (P : A -> Prop)
    (acc : string) :
  all_digits acc = true ->
  (forall d, numeral d -> ensures (k d) P) ->
  ensures (digits_from k acc) P.
Proof.
  intros Hacc Hk s. revert acc Hacc.
  induction s as [|c s IH]; intros acc Hacc a; simpl; [discriminate|].
  destruct (is_digit c) eqn:Hc; [|discriminate].
  assert (Hacc' : all_digits (acc +:+ String c EmptyString) = true).
  { rewrite all_digits_app, Hacc. simpl. rewrite Hc. reflexivity. }
  destruct (digits_from k _ s) eqn:E.
  - intros [= <-]. eapply IH; eassumption.
  - apply Hk. split; [|exact Hacc'].
    destruct acc; discriminate.
Qed.

Lemma digits_ensures {A : Type} (k : string -> rx A) (P : A -> Prop) :
  (forall d, numeral d -> ensures (k d) P) -> ensures (digits k) P.
Proof. apply digits_from_ensures. reflexivity. Qed.

Lemma dotstar_ensures {A : Type} (k : rx A) (P : A -> Prop) :
  ensures k P -> ensures (dotstar k) P.
Proof.
  intros H s. induction s as [|c s IH]; intros a; simpl.
  - apply H.
  - destruct (Ascii.eqb c _); [apply H|].
    destruct (dotstar k s) eqn:E; [intros [= <-]; apply IH; reflexivity|].
    apply H.
Qed.

Lemma search_ensures {A : Type} (p : rx A) (P : A -> Prop) :
  ensures p P -> ensures (search p) P.
Proof.
  intros H s. induction s as [|c s IH]; intros a; simpl.
  - destruct (p EmptyString) eqn:E; [intros [= <-]; eapply H, E | discriminate].
  - destruct (p (String c s)) eqn:E; [intros [= <-]; eapply H, E | apply IH].
Qed.

Lemma pat_index_numeral (tag : string) :
  ensures (search (pat_index tag)) numeral.
Proof.
  apply search_ensures. unfold pat_index.
  do 2 apply lit_ensures. apply digits_ensures; intros d Hd.
  apply lit_ensures, accept_ensures, Hd.
Qed.

Lemma pat_dropdown_numeral :
  ensures (search pat_dropdown) (fun g => numeral g.1 /\ numeral g.2).
Proof.
  apply search_ensures. unfold pat_dropdown.
  apply lit_ensures, digits_ensures; intros d1 H1.
  apply lit_ensures, digits_ensures; intros d2 H2.
  apply lit_ensures, accept_ensures. split; assumption.
Qed.

Lemma pat_area_field_numeral :
  ensures (search pat_area_field) (fun g => numeral g.1 /\ numeral g.2).
Proof.
  apply search_ensures. unfold pat_area_field.
  do 2 apply lit_ensures. apply digits_ensures; intros d1 H1.
  apply lit_ensures, dotstar_ensures. do 2 apply lit_ensures.
  apply digits_ensures; intros d2 H2.
  apply lit_ensures, accept_ensures. split; assumption.
Qed.

Lemma pat_table_numeral :
  ensures (search pat_table)
    (fun '(g1, g2, _, g4, _) => numeral g1 /\ numeral g2 /\ numeral g4).
Proof.
  apply search_ensures. unfold pat_table.
  do 2 apply lit_ensures. apply digits_ensures; intros g1 H1.
  apply lit_ensures, dotstar_ensures, lit_ensures.
  apply digits_ensures; intros g2 H2.
  apply lit_ensures, digits_ensures; intros g3 H3.
  apply lit_ensures, dotstar_ensures, lit_ensures.
  apply digits_ensures; intros g4 H4.
  apply lit_ensures, digits_ensures; intros g5 H5.
  apply lit_ensures, accept_ensures. auto.
Qed.


End Strings.

(** ** [generate_logical_path] raises nothing *)

Section NeverRaises.
Import GenerateFieldMappings.

Lemma ok_val {A : Type} (r : res A) : ok r -> exists a, r = Val a.
Proof. destruct r; [eauto | contradiction]. Qed.

Lemma with_index_safe {R : Type} (tag n : string) (body : Z -> flow R) :
  (forall num, 0 <= num -> safe (body num)) -> safe (with_index tag n body).
Proof.
  intros H. unfold with_index.
  destruct (search (pat_index tag) n) as [g|] eqn:E; [|exact I].
  apply pat_index_numeral, int_numeral in E as (z & -> & Hz).
  apply H, Hz.
Qed.

Lemma return_named_safe (prefix : string) (table : dict) (num : Z) :
  safe (return_named prefix table num).
Proof.
  unfold return_named, dict_in, getitem.
  destruct (dict_find table num); exact I.
Qed.

Lemma return_numbered_safe (prefix stem : string) (num : Z) :
  safe (return_numbered prefix stem num).
Proof. exact I. Qed.

Lemma with_dropdown_safe {R : Type} (item_too : bool) (n : string)
    (body : Z -> flow R) :
  (forall num, 0 <= num -> safe (body num)) ->
  safe (with_dropdown item_too n body).
Proof.
  intros H. unfold with_dropdown.
  destruct (search pat_dropdown n) as [[g1 g2]|] eqn:E; [|exact I].
  apply pat_dropdown_numeral in E as [H1 H2]. simpl in H1, H2.
  apply int_numeral in H1 as (z1 & -> & Hz1).
  apply int_numeral in H2 as (z2 & -> & Hz2).
  destruct item_too; apply H, Hz1.
Qed.

Lemma with_table_safe {R : Type} (n : string) (body : Z -> Z -> Z -> flow R) :
  (forall t r c, safe (body t r c)) -> safe (with_table n body).
Proof.
  intros H. unfold with_table.
  destruct (search pat_table n) as [[[[[g1 g2] g3] g4] g5]|] eqn:E; [|exact I].
  apply pat_table_numeral in E as (H1 & H2 & H4).
  apply int_numeral in H1 as (z1 & -> & _).
  apply int_numeral in H2 as (z2 & -> & _).
  apply int_numeral in H4 as (z4 & -> & _).
  apply H.
Qed.

Lemma seq_safe {R : Type} (s1 s2 : flow R) :
  safe s1 -> safe s2 -> safe (s1 ;; s2).
Proof. destruct s1; simpl; auto. Qed.

Lemma run_ok {R : Type} (s : flow (option R)) : safe s -> ok (run s).
Proof. destruct s; simpl; auto. Qed.

Lemma return_call_safe {R : Type} (r : res R) : ok r -> safe (return_call r).
Proof. destruct r; simpl; auto. Qed.

Ltac safe_step :=
  match goal with
  | |- safe (if ?b then _ else _) => destruct b
  | |- safe (with_index _ _ _) => apply with_index_safe; intros ? ?
  | |- safe (with_dropdown _ _ _) => apply with_dropdown_safe; intros ? ?
  | |- safe (with_table _ _) => apply with_table_safe; intros ? ? ?
  | |- safe (return_named _ _ _) => apply return_named_safe
  | |- safe (return_numbered _ _ _) => exact I
  | |- safe (return_table _ _ _ _) => exact I
  | |- safe (Ret _) => exact I
  | |- safe Pass => exact I
  | |- safe (_ ;; _) => apply seq_safe
  end.

Ltac safe_chain := repeat safe_step.

Lemma federal_safe (n : string) : safe (federal n).
Proof. unfold federal. safe_chain. Qed.

Lemma non_federal_safe (n : string) : safe (non_federal n).
Proof. unfold non_federal. safe_chain. Qed.

Lemma self_employment_safe (n : string) : safe (self_employment n).
Proof. unfold self_employment. safe_chain. Qed.

Lemma unemployment_safe (n : string) : safe (unemployment n).
Proof.
  unfold unemployment. safe_chain.
  destruct (search pat_area_field n) as [[g1 g2]|] eqn:E; [|exact I].
  apply pat_area_field_numeral in E as [H1 H2]. simpl in H1, H2.
  apply int_numeral in H1 as (z1 & -> & _).
  apply int_numeral in H2 as (z2 & -> & _).
  exact I.
Qed.

Lemma issues_safe (n : string) : safe (issues n).
Proof. unfold issues, issues_area. safe_chain. Qed.

Lemma generate_additional_section_mapping_ok (n section_prefix : string) :
  ok (generate_additional_section_mapping n section_prefix).
Proof.
  unfold generate_additional_section_mapping. apply run_ok. safe_chain.
Qed.

Lemma section_chain_safe (n : string) : safe (section_chain n).
Proof.
  unfold section_chain.
  repeat match goal with
         | |- safe (if ?b then _ else _) => destruct b
         end;
    auto using federal_safe, non_federal_safe, self_employment_safe,
      unemployment_safe, issues_safe, return_call_safe,
      generate_additional_section_mapping_ok.
  exact I.
Qed.

Lemma typed_index_ok (ftype tag n : string) : ok (typed_index ftype tag n).
Proof.
  unfold typed_index.
  destruct (search (pat_index tag) n) as [g|] eqn:E; [|exact I].
  apply pat_index_numeral, int_numeral in E as (z & -> & _). exact I.
Qed.

Lemma classify_widget_ok (n section_id : string) :
  ok (classify_widget n section_id).
Proof.
  unfold classify_widget.
  repeat match goal with
         | |- ok (if ?b then _ else _) => destruct b
         | |- ok (typed_index _ _ _) => apply typed_index_ok
         | |- ok (Val _) => exact I
         end.
  - destruct (search pat_dropdown n) as [[g1 g2]|] eqn:E; [|exact I].
    apply pat_dropdown_numeral in E as [H1 _]. simpl in H1.
    apply int_numeral in H1 as (z1 & -> & _). exact I.
  - destruct (search pat_table n) as [[[[[g1 g2] g3] g4] g5]|] eqn:E; [|exact I].
    apply pat_table_numeral in E as (H1 & H2 & H4).
    apply int_numeral in H1 as (z1 & -> & _).
    apply int_numeral in H2 as (z2 & -> & _).
    apply int_numeral in H4 as (z4 & -> & _).
    exact I.
Qed.

Lemma fallback_safe (n : string) : safe (fallback n).
Proof.
  unfold fallback. destruct (search pat_section n) as [sid|]; [|exact I].
  destruct (ok_val _ (classify_widget_ok n sid)) as [p ->].
  destruct p; exact I.
Qed.

Lemma generate_logical_path_ok (n : string) : ok (generate_logical_path n).
Proof.
  unfold generate_logical_path. apply run_ok.
  repeat apply seq_safe;
    auto using section_chain_safe, fallback_safe.
  - destruct (_ <? _); exact I.
  - exact I.
Qed.

End NeverRaises.

(** ** Where the paths of [generate_logical_path] lie *)

Section Paths.
Import GenerateFieldMappings.

Lemma under_self (prefix rest : string) : under prefix (prefix +:+ rest).
Proof. apply startswith_self. Qed.

Lemma under_weaken (a b p : string) : under (a +:+ b) p -> under a p.
Proof. apply startswith_app. Qed.

Lemma append_cons (x : ascii) (a b : string) :
  String x a +:+ b = String x (a +:+ b).
Proof. reflexivity. Qed.

Lemma append_assoc (a b c : string) : (a +:+ b) +:+ c = a +:+ (b +:+ c).
Proof.
  induction a as [|x a IH]; [reflexivity|].
  rewrite !append_cons, IH. reflexivity.
Qed.

Lemma append_empty (a : string) : a +:+ EmptyString = a.
Proof.
  induction a as [|x a IH]; [reflexivity|].
  rewrite append_cons, IH. reflexivity.
Qed.

Lemma yields_weaken (P Q : string -> Prop) (s : flow (option string)) :
  (forall p, P p -> Q p) -> yields P s -> yields Q s.
Proof. intros H Hs p E. apply H, Hs, E. Qed.

Lemma yields_pass (P : string -> Prop) : yields P Pass.
Proof. intros p [=]. Qed.

Lemma yields_demand {A : Type} (P : string -> Prop) (r : res A)
    (k : A -> flow (option string)) :
  (forall a, yields P (k a)) -> yields P (demand r k).
Proof. intros H. destruct r; simpl; [apply H | intros p [=]]. Qed.

Lemma with_index_yields (P : string -> Prop) (tag n : string)
    (body : Z -> flow (option string)) :
  (forall num, yields P (body num)) -> yields P (with_index tag n body).
Proof.
  intros H. unfold with_index.
  destruct (search (pat_index tag) n); [|apply yields_pass].
  apply yields_demand, H.
Qed.

Lemma with_dropdown_yields (P : string -> Prop) (item_too : bool) (n : string)
    (body : Z -> flow (option string)) :
  (forall num, yields P (body num)) -> yields P (with_dropdown item_too n body).
Proof.
  intros H. unfold with_dropdown.
  destruct (search pat_dropdown n) as [[g1 g2]|]; [|apply yields_pass].
  apply yields_demand; intros list_num.
  destruct item_too; [apply yields_demand; intros _|]; apply H.
Qed.

Lemma with_table_yields (P : string -> Prop) (n : string)
    (body : Z -> Z -> Z -> flow (option string)) :
  (forall t r c, yields P (body t r c)) -> yields P (with_table n body).
Proof.
  intros H. unfold with_table.
  destruct (search pat_table n) as [[[[[g1 g2] g3] g4] g5]|];
    [|apply yields_pass].
  do 3 (apply yields_demand; intros ?). apply H.
Qed.

Lemma return_named_yields (prefix : string) (table : dict) (num : Z) :
  yields (under prefix) (return_named prefix table num).
Proof.
  unfold return_named. destruct (dict_in num table); [|apply yields_pass].
  apply yields_demand; intros v p [= <-]. apply under_self.
Qed.

Lemma return_numbered_yields (prefix stem : string) (num : Z) :
  yields (under prefix) (return_numbered prefix stem num).
Proof. intros p [= <-]. apply under_self. Qed.

Lemma return_table_yields (prefix : string) (t r c : Z) :
  yields (under prefix) (return_table prefix t r c).
Proof. intros p [= <-]. apply under_self. Qed.

Ltac yields_step :=
  match goal with
  | |- yields _ (if ?b then _ else _) => destruct b
  | |- yields _ (with_index _ _ _) => apply with_index_yields; intros ?
  | |- yields _ (with_dropdown _ _ _) => apply with_dropdown_yields; intros ?
  | |- yields _ (with_table _ _) => apply with_table_yields; intros ? ? ?
  | |- yields _ (return_named _ _ _) => apply return_named_yields
  | |- yields _ (return_numbered _ _ _) => apply return_numbered_yields
  | |- yields _ (return_table _ _ _ _) => apply return_table_yields
  | |- yields _ (Ret (Some _)) => intros ? [= <-]; reflexivity
  | |- yields _ Pass => apply yields_pass
  end.

Ltac yields_chain := cbv zeta; repeat yields_step.

Lemma federal_yields (n : string) :
  yields (under "section13.federalEmployment.entries[0].") (federal n).
Proof. unfold federal. yields_chain. Qed.

Lemma non_federal_yields (n : string) :
  yields (under "section13.nonFederalEmployment.entries[0].") (non_federal n).
Proof. unfold non_federal. yields_chain. Qed.

Lemma self_employment_yields (n : string) :
  yields (under "section13.selfEmployment.entries[0].") (self_employment n).
Proof. unfold self_employment. yields_chain. Qed.

Lemma unemployment_yields (n : string) :
  yields (under "section13.unemployment.entries[0].") (unemployment n).
Proof.
  unfold unemployment. yields_chain.
  destruct (search pat_area_field n) as [[g1 g2]|]; [|apply yields_pass].
  do 2 (apply yields_demand; intros ?).
  intros p [= <-]. apply under_self.
Qed.

Lemma issues_yields (n : string) :
  yields (under "section13.employmentRecordIssues.") (issues n).
Proof.
  unfold issues, issues_area. yields_chain;
    (eapply yields_weaken; [apply under_weaken|]); yields_chain.
Qed.

Lemma generate_additional_section_mapping_under (n section_prefix p : string) :
  generate_additional_section_mapping n section_prefix = Val (Some p) ->
  under ("section13." +:+ section_prefix +:+ ".entries[0].") p.
Proof.
  unfold generate_additional_section_mapping.
  match goal with
  | |- run (?s ;; _) = _ -> _ =>
      assert (H : yields (under ("section13." +:+ section_prefix
                                 +:+ ".entries[0].")) s)
        by yields_chain;
      destruct s as [|[q|]|e]; simpl; try discriminate
  end.
  intros [= <-]. apply H. reflexivity.
Qed.

Lemma fallback_yields (n : string) :
  yields (under "section13.section") (fallback n).
Proof.
  unfold fallback. destruct (search pat_section n) as [sid|];
    [|apply yields_pass].
  unfold classify_widget.
  repeat match goal with
         | |- yields _ (demand (if ?b then _ else _) _) => destruct b
         end;
    try (unfold typed_index;
         match goal with
         | |- context [search ?p n] => destruct (search p n)
         end;
         [destruct (int _)|]; simpl; intros p [= <-]; apply under_self).
  - simpl; intros p [= <-]; apply under_self.
  - destruct (search pat_dropdown n) as [[g1 g2]|];
      [destruct (int g1)|]; simpl; intros p [= <-]; apply under_self.
  - destruct (search pat_table n) as [[[[[g1 g2] g3] g4] g5]|].
    + destruct (int g1); simpl; [|intros p [=]].
      destruct (int g2); simpl; [|intros p [=]].
      destruct (int g4); simpl; intros p [= <-]. apply under_self.
    + simpl; intros p [= <-]; apply under_self.
  - simpl; intros p [= <-]; apply under_self.
Qed.

End Paths.

(** ** The unemployment branches *)

Section Unemployment.
Import GenerateFieldMappings.

Lemma section13_4_3_in_section13_4 (n : string) :
  contains "section13_4_3" n = true -> contains "section13_4" n = true.
Proof. apply (contains_app "section13_4" "_3"). Qed.

Lemma yields_return_call (P : string -> Prop) (r : res (option string)) :
  (forall p, r = Val (Some p) -> P p) -> yields P (return_call r).
Proof.
  intros H. destruct r as [v|e]; simpl; [|intros p [=]].
  intros p [= ->]. apply H. reflexivity.
Qed.

Lemma excluded (K B : string) :
  (forall r, startswith B (K +:+ r) = false) ->
  forall p, under K p -> ~ under B p.
Proof.
  intros H p [r ->]%startswith_inv Hb. unfold under in Hb.
  rewrite H in Hb. discriminate.
Qed.

Lemma section_chain_never_additional (n : string) :
  yields (fun p => ~ under "section13.unemploymentAdditional" p)
    (section_chain n).
Proof.
  unfold section_chain.
  destruct (contains "section_13_1-2" n).
  { eapply yields_weaken; [|apply federal_yields].
    apply excluded. reflexivity. }
  destruct (_ && _).
  { eapply yields_weaken; [|apply non_federal_yields].
    apply excluded. reflexivity. }
  destruct (_ && _).
  { eapply yields_weaken; [|apply self_employment_yields].
    apply excluded. reflexivity. }
  destruct (contains "section13_4" n) eqn:E4.
  { eapply yields_weaken; [|apply unemployment_yields].
    apply excluded. reflexivity. }
  destruct (contains "section13_5" n).
  { eapply yields_weaken; [|apply issues_yields].
    apply excluded. reflexivity. }
  destruct (contains "section13_2-2" n).
  { apply yields_return_call. intros p Hp.
    apply generate_additional_section_mapping_under in Hp.
    revert p Hp. apply excluded. reflexivity. }
  destruct (contains "section13_3-2" n).
  { apply yields_return_call. intros p Hp.
    apply generate_additional_section_mapping_under in Hp.
    revert p Hp. apply excluded. reflexivity. }
  destruct (contains "section13_4_3" n) eqn:E43; [|apply yields_pass].
  apply section13_4_3_in_section13_4 in E43. congruence.
Qed.

(** The two places a path of [generate_logical_path] comes from. *)
Lemma generate_logical_path_source (n p : string) :
  generate_logical_path n = Val (Some p) ->
  section_chain n = Ret (Some p)
  \/ section_chain n = Pass /\ fallback n = Ret (Some p).
Proof.
  unfold generate_logical_path. destruct (_ <? _); [discriminate|].
  simpl. destruct (section_chain n) as [|r|e]; simpl.
  - destruct (fallback n) as [|r|e]; simpl; try discriminate.
    intros [= ->]. auto.
  - intros [= ->]. auto.
  - discriminate.
Qed.

Lemma never_additional (n p : string) :
  generate_logical_path n = Val (Some p) ->
  ~ under "section13.unemploymentAdditional" p.
Proof.
  intros [H|[_ H]]%generate_logical_path_source.
  - eapply section_chain_never_additional, H.
  - apply fallback_yields in H. revert p H. apply excluded. reflexivity.
Qed.

End Unemployment.

Section UnemploymentClaims.
Import GenerateFieldMappings.

(** C10, as stated, fails: a name of the additional unemployment
    form whose [TextField11] index is outside the table of the
    unemployment branch leaves that branch without a [return] and is
    given a path by the default fallback, which is not under
    [section13.unemployment.entries[0]]. *)
Lemma section13_4_3_fallback_path :
  contains "section13_4_3" "form1[0].section13_4_3[0].TextField11[13]" = true
  /\ generate_logical_path "form1[0].section13_4_3[0].TextField11[13]"
     = Val (Some "section13.section4.textField13.value")
  /\ ~ under "section13.unemployment.entries[0]"
       "section13.section4.textField13.value".
Proof. split; [|split]; [reflexivity | reflexivity | discriminate]. Qed.

(** C10 (amended).  For every raw field name that contains
    [section13_4_3]: no path it is given lies under
    [section13.unemploymentAdditional], because the name also
    contains [section13_4] and the earlier branch takes it; when none
    of the three branches before that one applies, the name is
    handled by the unemployment branch, and a path it is given lies
    under [section13.unemployment.entries[0].] or is a default
    fallback path under [section13.section]; and a name of the base
    form and a name of the additional form can be given the same
    path. *)
Theorem unemployment_additional_shadowed (n : string) :
  contains "section13_4_3" n = true ->
  (forall p, generate_logical_path n = Val (Some p) ->
             ~ under "section13.unemploymentAdditional" p)
  /\ (contains "section_13_1-2" n = false ->
      contains "section13_2" n && negb (contains "section13_2-2" n) = false ->
      contains "section13_3" n && negb (contains "section13_3-2" n) = false ->
      section_chain n = unemployment n
      /\ exists r, generate_logical_path n = Val r
         /\ forall p, r = Some p ->
              under "section13.unemployment.entries[0]." p
              \/ under "section13.section" p)
  /\ exists a b p,
       a <> b
       /\ contains "section13_4_3" a = false
       /\ contains "section13_4_3" b = true
       /\ generate_logical_path a = Val (Some p)
       /\ generate_logical_path b = Val (Some p).
Proof.
  intros H43. split; [|split].
  - intros p. apply never_additional.
  - intros H1 H2 H3.
    assert (Hchain : section_chain n = unemployment n).
    { unfold section_chain.
      rewrite H1, H2, H3, (section13_4_3_in_section13_4 n H43).
      reflexivity. }
    split; [exact Hchain|].
    destruct (ok_val _ (generate_logical_path_ok n)) as [r Hr].
    exists r. split; [exact Hr|]. intros p ->.
    apply generate_logical_path_source in Hr as [Hr|[_ Hr]].
    + left. rewrite Hchain in Hr. eapply unemployment_yields, Hr.
    + right. eapply fallback_yields, Hr.
  - exists "form1[0].section13_4[0].TextField11[0]",
           "form1[0].section13_4_3[0].TextField11[0]",
           "section13.unemployment.entries[0].firstName.value".
    repeat split; try reflexivity. discriminate.
Qed.

Lemma unemployment_additional_shadowed_witness :
  section_chain "form1[0].section13_4_3[0].TextField11[3]"
  = unemployment "form1[0].section13_4_3[0].TextField11[3]".
Proof.
  apply (unemployment_additional_shadowed
           "form1[0].section13_4_3[0].TextField11[3]");
    reflexivity.
Defined.

End UnemploymentClaims.

(** ** Totality of [generate_logical_path] *)

Section Totality.
Import GenerateFieldMappings.


Lemma split_go_nonempty (sep : ascii) (s cur : string) :
  (1 <= length (split_go sep cur s))%nat.
Proof.
  revert cur; induction s as [|c s IH]; intros cur; simpl; [lia|].
  destruct (Ascii.eqb c sep); [simpl; lia | apply IH].
Qed.

Lemma split_go_separator (sep : ascii) (s cur : string) :
  contains (String sep EmptyString) s = true ->
  (2 <= length (split_go sep cur s))%nat.
Proof.
  revert cur; induction s as [|c s IH]; intros cur; simpl.
  - discriminate.
  - unfold startswith. simpl. rewrite Ascii.eqb_sym.
    destruct (Ascii.eqb c sep).
    + intros _. simpl. pose proof (split_go_nonempty sep s EmptyString). lia.
    + simpl. apply IH.
Qed.









End Totality.

(** ** The loop of [main] *)

Section MainLoop.
Import GenerateFieldMappings.

Lemma increment_comm (k1 k2 : string) (d : gmap string Z) :
  increment k1 (increment k2 d) = increment k2 (increment k1 d).
Proof.
  destruct (decide (k1 = k2)) as [->|Hne]; [reflexivity|].
  unfold increment. apply map_eq; intros k.
  rewrite !lookup_insert. repeat case_decide; subst; try done.
Qed.

Lemma foldl_permutation {A B : Type} (f : B -> A -> B) (l l' : list A) :
  (forall b x y, f (f b x) y = f (f b y) x) ->
  l ≡ₚ l' -> forall b, foldl f b l = foldl f b l'.
Proof.
  intros Hf. induction 1 as [|x l l' _ IH|x y l|l l' l'' _ IH1 _ IH2];
    intros b; simpl.
  - reflexivity.
  - apply IH.
  - rewrite Hf. reflexivity.
  - rewrite IH1. apply IH2.
Qed.

Lemma step_named (st : acc) (n : string) :
  step st (Named n) =
  Val match path_of n with
      | Some path =>
          {| mappings := <[path := n]> (mappings st);
             unmapped_fields := unmapped_fields st;
             section_stats := increment (stats_key n) (section_stats st) |}
      | None =>
          {| mappings := mappings st;
             unmapped_fields := unmapped_fields st ++ [n];
             section_stats := section_stats st |}
      end.
Proof.
  unfold step, path_of.
  destruct (ok_val _ (generate_logical_path_ok n)) as [r ->]. simpl.
  destruct (truthy r); reflexivity.
Qed.

(** The three accumulators after the loop, in terms of the batch. *)
Lemma loop_spec (fields : list item) (st : acc) :
  exists st',
    loop st fields = Val st'
    /\ (forall p, mappings st' !! p =
                  match last_source p (names_of fields) with
                  | Some n => Some n
                  | None => mappings st !! p
                  end)
    /\ unmapped_fields st' =
       unmapped_fields st ++ filter (fun n => path_of n = None) (names_of fields)
    /\ section_stats st' =
       foldl (fun d n => increment (stats_key n) d) (section_stats st)
         (filter (fun n => is_Some (path_of n)) (names_of fields)).
Proof.
  revert st; induction fields as [|field rest IH]; intros st.
  - exists st. simpl. rewrite app_nil_r. auto.
  - destruct field as [| |n]; [apply IH | apply IH |].
    change (loop st (Named n :: rest))
      with (bind (step st (Named n)) (fun st1 => loop st1 rest)).
    rewrite step_named. simpl bind.
    change (names_of (Named n :: rest)) with (n :: names_of rest).
    rewrite !filter_cons.
    destruct (path_of n) as [path|] eqn:Hn.
    + destruct (IH {| mappings := <[path := n]> (mappings st);
                      unmapped_fields := unmapped_fields st;
                      section_stats :=
                        increment (stats_key n) (section_stats st) |})
        as (st' & Hloop & Hmap & Hun & Hstats).
      exists st'. simpl in *. split; [exact Hloop|]. split; [|split].
      * intros p. rewrite Hmap, Hn.
        destruct (last_source p (names_of rest)); [reflexivity|].
        case_decide as Hp.
        -- injection Hp as ->. apply lookup_insert_eq.
        -- apply lookup_insert_ne. congruence.
      * exact Hun.
      * exact Hstats.
    + destruct (IH {| mappings := mappings st;
                      unmapped_fields := unmapped_fields st ++ [n];
                      section_stats := section_stats st |})
        as (st' & Hloop & Hmap & Hun & Hstats).
      exists st'. simpl in *. split; [exact Hloop|]. split; [|split].
      * intros p. rewrite Hmap, Hn.
        destruct (last_source p (names_of rest)); reflexivity.
      * rewrite Hun, <- app_assoc. reflexivity.
      * exact Hstats.
Qed.

Lemma last_source_Some (p n : string) (names : list string) :
  last_source p names = Some n -> n ∈ names /\ path_of n = Some p.
Proof.
  induction names as [|m names IH]; simpl; [discriminate|].
  destruct (last_source p names).
  - intros [= <-]. destruct IH as [? ?]; [reflexivity|].
    split; [by right | done].
  - case_decide; [|discriminate]. intros [= <-]. split; [by left | done].
Qed.

Lemma last_source_is_Some (p n : string) (names : list string) :
  n ∈ names -> path_of n = Some p -> is_Some (last_source p names).
Proof.
  induction names as [|m names IH]; simpl.
  - intros H. by apply elem_of_nil in H.
  - intros [->|H]%elem_of_cons Hp.
    + destruct (last_source p names); [eauto|].
      rewrite decide_True by exact Hp. eauto.
    + destruct (IH H Hp) as [x ->]. eauto.
Qed.

Lemma last_source_permutation (p : string) (l l' : list string) :
  l ≡ₚ l' -> is_Some (last_source p l) -> is_Some (last_source p l').
Proof.
  intros Hperm [n [Hin Hp]%last_source_Some].
  eapply last_source_is_Some; [|exact Hp]. by rewrite <- Hperm.
Qed.

End MainLoop.

Section MainClaims.
Import GenerateFieldMappings.

(** C1, as stated, fails: two distinct raw names with the same logical
    path leave a single entry in [mappings], the one of the later name;
    the earlier name is overwritten and nothing records the collision. *)
Lemma main_overwrites_earlier_name :
  "form1[0].section13_4[0].TextField11[0]"
  <> "form1[0].section13_4_3[0].TextField11[0]"
  /\ path_of "form1[0].section13_4[0].TextField11[0]"
     = Some "section13.unemployment.entries[0].firstName.value"
  /\ path_of "form1[0].section13_4_3[0].TextField11[0]"
     = Some "section13.unemployment.entries[0].firstName.value"
  /\ exists st,
       main [Named "form1[0].section13_4[0].TextField11[0]";
             Named "form1[0].section13_4_3[0].TextField11[0]"] = Val st
       /\ map_to_list (mappings st)
          = [("section13.unemployment.entries[0].firstName.value",
              "form1[0].section13_4_3[0].TextField11[0]")]
       /\ unmapped_fields st = [].
Proof.
  split; [discriminate|]. split; [reflexivity|]. split; [reflexivity|].
  eexists. split; [vm_compute; reflexivity|].
  split; vm_compute; reflexivity.
Qed.

(** C1 (amended).  For every batch, [main] returns its accumulators,
    and [mappings] holds under each logical path the last raw name of
    the batch that resolves to it: when two distinct raw names resolve
    to the same path the later one replaces the earlier one, and the
    script keeps no list of collisions. *)
Theorem main_keeps_last_name (fields : list item) :
  exists st,
    main fields = Val st
    /\ (forall p, mappings st !! p = last_source p (names_of fields))
    /\ (forall p n, mappings st !! p = Some n ->
                    n ∈ names_of fields /\ path_of n = Some p)
    /\ unmapped_fields st
       = filter (fun n => path_of n = None) (names_of fields).
Proof.
  destruct (loop_spec fields initial) as (st & Hloop & Hmap & Hun & _).
  exists st. split; [exact Hloop|].
  assert (Hlast : forall p, mappings st !! p = last_source p (names_of fields)).
  { intros p. rewrite Hmap. simpl. rewrite lookup_empty.
    destruct (last_source p (names_of fields)); reflexivity. }
  split; [exact Hlast|]. split; [|exact Hun].
  intros p n. rewrite Hlast. apply last_source_Some.
Qed.

(** C5, as stated, fails: two batches that are permutations of each
    other, with two names that share a path, end with different
    [mappings]. *)
Lemma main_depends_on_order :
  [Named "form1[0].section13_4[0].TextField11[0]";
   Named "form1[0].section13_4_3[0].TextField11[0]"]
  ≡ₚ [Named "form1[0].section13_4_3[0].TextField11[0]";
      Named "form1[0].section13_4[0].TextField11[0]"]
  /\ exists st st',
       main [Named "form1[0].section13_4[0].TextField11[0]";
             Named "form1[0].section13_4_3[0].TextField11[0]"] = Val st
       /\ main [Named "form1[0].section13_4_3[0].TextField11[0]";
                Named "form1[0].section13_4[0].TextField11[0]"] = Val st'
       /\ mappings st !! "section13.unemployment.entries[0].firstName.value"
          = Some "form1[0].section13_4_3[0].TextField11[0]"
       /\ mappings st' !! "section13.unemployment.entries[0].firstName.value"
          = Some "form1[0].section13_4[0].TextField11[0]"
       /\ mappings st <> mappings st'.
Proof.
  split; [apply perm_swap|].
  eexists. eexists. split; [vm_compute; reflexivity|].
  split; [vm_compute; reflexivity|].
  split; [vm_compute; reflexivity|].
  split; [vm_compute; reflexivity|].
  intros H.
  apply (f_equal (fun m : gmap string string =>
    m !! "section13.unemployment.entries[0].firstName.value")) in H.
  vm_compute in H. discriminate.
Qed.

(** C5 (amended).  For batches that are permutations of each other,
    [main] ends with the same set of logical paths in [mappings], the
    same [section_stats] and the same unmapped names up to order; the
    [mappings] themselves are equal when no two distinct names of the
    batch share a path.  The path of a name never depends on the other
    records. *)
Theorem main_permutation (fields fields' : list item) :
  fields ≡ₚ fields' ->
  exists st st',
    main fields = Val st
    /\ main fields' = Val st'
    /\ dom (mappings st) = dom (mappings st')
    /\ section_stats st = section_stats st'
    /\ unmapped_fields st ≡ₚ unmapped_fields st'
    /\ (collision_free (names_of fields) -> mappings st = mappings st').
Proof.
  intros Hperm.
  assert (Hnames : names_of fields ≡ₚ names_of fields')
    by (unfold names_of; rewrite Hperm; reflexivity).
  destruct (loop_spec fields initial) as (st & Hloop & Hmap & Hun & Hstats).
  destruct (loop_spec fields' initial) as (st' & Hloop' & Hmap' & Hun' & Hstats').
  assert (Hlast : forall p, mappings st !! p = last_source p (names_of fields)).
  { intros p. rewrite Hmap. simpl. rewrite lookup_empty.
    destruct (last_source p (names_of fields)); reflexivity. }
  assert (Hlast' : forall p, mappings st' !! p = last_source p (names_of fields')).
  { intros p. rewrite Hmap'. simpl. rewrite lookup_empty.
    destruct (last_source p (names_of fields')); reflexivity. }
  exists st, st'. split; [exact Hloop|]. split; [exact Hloop'|].
  split; [|split; [|split]].
  - apply set_eq; intros p. rewrite !elem_of_dom, Hlast, Hlast'.
    split; apply last_source_permutation; [done | by symmetry].
  - rewrite Hstats, Hstats'. apply foldl_permutation.
    + intros d x y. apply increment_comm.
    + rewrite Hnames. reflexivity.
  - rewrite Hun, Hun', Hnames. reflexivity.
  - intros Hfree. apply map_eq; intros p. rewrite Hlast, Hlast'.
    destruct (last_source p (names_of fields)) as [n|] eqn:E.
    + apply last_source_Some in E as [Hin Hp].
      destruct (last_source_is_Some p n (names_of fields')) as [n' E'];
        [by rewrite <- Hnames | exact Hp |].
      rewrite E'. apply last_source_Some in E' as [Hin' Hp'].
      f_equal. apply (Hfree n n' p); [done | by rewrite Hnames | done | done].
    + destruct (last_source p (names_of fields')) as [n'|] eqn:E';
        [|reflexivity].
      assert (Hsome : is_Some (last_source p (names_of fields))).
      { eapply last_source_permutation; [symmetry; exact Hnames|].
        rewrite E'. eauto. }
      rewrite E in Hsome. by destruct Hsome.
Qed.

Lemma main_permutation_witness :
  exists st st',
    main [Named "form1[0].section13_4[0].TextField11[0]"; Named "plain"] = Val st
    /\ main [Named "plain"; Named "form1[0].section13_4[0].TextField11[0]"]
       = Val st'
    /\ dom (mappings st) = dom (mappings st')
    /\ section_stats st = section_stats st'
    /\ unmapped_fields st ≡ₚ unmapped_fields st'
    /\ (collision_free
          (names_of [Named "form1[0].section13_4[0].TextField11[0]";
                     Named "plain"]) ->
        mappings st = mappings st').
Proof.
  apply (main_permutation
           [Named "form1[0].section13_4[0].TextField11[0]"; Named "plain"]
           [Named "plain"; Named "form1[0].section13_4[0].TextField11[0]"]).
  apply perm_swap.
Defined.

End MainClaims.


(** ** The group resolver of [verify_field_pattern] *)

Section Resolver.
Import VerifyFieldPattern.

Lemma get_list_append_to `{Countable K} {A : Type} (k p : K) (x : A)
    (d : gmap K (list A)) :
  get_list (append_to k x d) p =
  if decide (k = p) then get_list d p ++ [x] else get_list d p.
Proof.
  unfold get_list, append_to. case_decide as E.
  - subst. rewrite lookup_insert_eq. reflexivity.
  - rewrite lookup_insert_ne by exact E. reflexivity.
Qed.

Lemma split_loop_spec (fs : list field) (st : split_fields) :
  exists st',
    split_loop st fs = Val st'
    /\ (forall person,
          get_list (textfield_pattern st') person =
          get_list (textfield_pattern st) person
          ++ filter (fun t => person_of_index t.1 = person) (textfield_tokens fs))
    /\ other_fields st' =
       other_fields st
       ++ filter (fun f => search (pat_index "TextField11") (name f) = None) fs.
Proof.
  revert st; induction fs as [|f fs IH]; intros st.
  - exists st. simpl. split; [reflexivity|].
    split; [intros person|]; rewrite app_nil_r; reflexivity.
  - simpl split_loop. unfold split_step, textfield_tokens.
    rewrite filter_cons. simpl omap.
    destruct (search (pat_index "TextField11") (name f)) as [g|] eqn:E.
    + destruct (int_numeral g (pat_index_numeral _ _ _ E)) as (index & -> & _).
      simpl bind.
      destruct (IH {| textfield_pattern :=
                        append_to (person_of_index index) (index, f)
                          (textfield_pattern st);
                      other_fields := other_fields st |})
        as (st' & Hloop & Hpat & Hother).
      exists st'. split; [exact Hloop|]. simpl in Hpat, Hother.
      split; [|rewrite decide_False by discriminate; exact Hother].
      intros person. rewrite Hpat, get_list_append_to, filter_cons. simpl.
      fold (textfield_tokens fs).
      case_decide; [rewrite <- app_assoc|]; reflexivity.
    + simpl bind.
      destruct (IH {| textfield_pattern := textfield_pattern st;
                      other_fields := other_fields st ++ [f] |})
        as (st' & Hloop & Hpat & Hother).
      exists st'. split; [exact Hloop|]. simpl in Hpat, Hother.
      split; [exact Hpat|].
      rewrite decide_True by reflexivity.
      rewrite Hother, <- app_assoc. reflexivity.
Qed.


Lemma person_of_index_cases (index : Z) :
  (0 <= index <= 10 /\ person_of_index index = 1)
  \/ (11 <= index <= 21 /\ person_of_index index = 2)
  \/ (22 <= index <= 32 /\ person_of_index index = 3)
  \/ ((index < 0 \/ 32 < index) /\ person_of_index index = unknown_person).
Proof.
  unfold person_of_index.
  repeat match goal with
         | |- context [?a <=? ?b] => destruct (Z.leb_spec a b)
         end; simpl; lia.
Qed.


End Resolver.


(** ** Areas and shared fields of section 16 *)

Section Areas.
Import CalculateFieldDistribution.

Lemma area_of_search (f : field) (g : string) :
  search (pat_index "#area") (name f) = Some g ->
  exists area, int g = Val area /\ area_of f = Some area.
Proof.
  intros E. unfold area_of. rewrite E.
  destruct (int_numeral g (pat_index_numeral _ _ _ E)) as (area & -> & _).
  eauto.
Qed.

Lemma area_of_no_match (f : field) :
  search (pat_index "#area") (name f) = None -> area_of f = None.
Proof. intros E. unfold area_of. rewrite E. reflexivity. Qed.

Lemma area_loop_spec (fs : list field) (st : areas) :
  exists st',
    area_loop st fs = Val st'
    /\ (forall k,
          get_list (section16_3_by_area st') k =
          get_list (section16_3_by_area st) k
          ++ filter (fun f => area_of f = Some k) fs)
    /\ section16_3_shared st' =
       section16_3_shared st ++ filter (fun f => area_of f = None) fs.
Proof.
  revert st; induction fs as [|f fs IH]; intros st.
  - exists st. simpl. split; [reflexivity|].
    split; [intros k|]; rewrite app_nil_r; reflexivity.
  - simpl area_loop. unfold area_step. rewrite !filter_cons.
    destruct (search (pat_index "#area") (name f)) as [g|] eqn:E.
    + destruct (area_of_search f g E) as (area & -> & Ha). simpl bind.
      destruct (IH {| section16_3_by_area :=
                        append_to area f (section16_3_by_area st);
                      section16_3_shared := section16_3_shared st |})
        as (st' & Hloop & Hby & Hshared).
      exists st'. split; [exact Hloop|]. simpl in Hby, Hshared.
      split.
      * intros k. rewrite Hby, get_list_append_to, filter_cons, Ha.
        destruct (decide (area = k)) as [->|Hne].
        -- rewrite decide_True by reflexivity.
           rewrite <- app_assoc. reflexivity.
        -- rewrite decide_False by congruence. reflexivity.
      * rewrite Ha, decide_False by discriminate. exact Hshared.
    + rewrite (area_of_no_match f E). simpl bind.
      destruct (IH {| section16_3_by_area := section16_3_by_area st;
                      section16_3_shared := section16_3_shared st ++ [f] |})
        as (st' & Hloop & Hby & Hshared).
      exists st'. split; [exact Hloop|]. simpl in Hby, Hshared.
      split.
      * intros k. rewrite Hby, filter_cons, (area_of_no_match f E).
        rewrite decide_False by discriminate. reflexivity.
      * rewrite decide_True by reflexivity.
        rewrite Hshared, <- app_assoc. reflexivity.
Qed.

Lemma sum_app (xs ys : list Z) : sum (xs ++ ys) = sum xs + sum ys.
Proof. induction xs as [|x xs IH]; simpl; [reflexivity|]. rewrite IH. lia. Qed.

Lemma sum_permutation (xs ys : list Z) : xs ≡ₚ ys -> sum xs = sum ys.
Proof.
  induction 1 as [|x l l' _ IH|x y l|l l' l'' _ IH1 _ IH2]; simpl; lia.
Qed.




Lemma distribute_spec (groups : gmap Z (list field)) (shared_count : Z) :
  exists dist,
    distribute groups shared_count = Val dist
    /\ match dist with
       | Some d =>
           0 < Z.of_nat (size groups)
           /\ shared_per_person d = shared_count `div` Z.of_nat (size groups)
           /\ remaining_shared d = shared_count `mod` Z.of_nat (size groups)
           /\ per_person d =
              (fun area =>
                 let area_specific := len (get_list groups area) in
                 (area, area_specific, area_specific + shared_per_person d))
              <$> sorted_keys groups
       | None => Z.of_nat (size groups) = 0
       end.
Proof.
  unfold distribute.
  destruct (Z.ltb_spec 0 (Z.of_nat (size groups))) as [Hpos|Hle].
  - unfold floordiv, modulo.
    destruct (Z.eqb_spec (Z.of_nat (size groups)) 0) as [E|_]; [lia|].
    simpl. eexists. split; [reflexivity|]. simpl. auto.
  - exists None. split; [reflexivity|]. lia.
Qed.

Lemma hypothesis_entries_ok (entry1 : Z) (groups : gmap Z (list field))
    (shared_count : Z) :
  exists es, hypothesis_entries entry1 groups shared_count = Val es.
Proof.
  unfold hypothesis_entries. destruct (_ =? 3); [|eauto].
  unfold floordiv. simpl. eauto.
Qed.

Lemma calculate_field_distribution_spec (fields : list field) :
  exists r,
    calculate_field_distribution fields = Val r
    /\ (forall k,
          get_list (section16_3_by_area (by_area r)) k =
          filter (fun f => area_of f = Some k) (section16_3_fields fields))
    /\ section16_3_shared (by_area r) =
       filter (fun f => area_of f = None) (section16_3_fields fields)
    /\ shared_fields_count r = len (section16_3_shared (by_area r))
    /\ num_people r = Z.of_nat (size (section16_3_by_area (by_area r)))
    /\ total_area_fields r =
       sum ((fun kv => len kv.2)
              <$> map_to_list (section16_3_by_area (by_area r)))
    /\ match distributed r with
       | Some d =>
           0 < num_people r
           /\ shared_per_person d = shared_fields_count r `div` num_people r
           /\ remaining_shared d = shared_fields_count r `mod` num_people r
           /\ per_person d =
              (fun area =>
                 let area_specific :=
                   len (get_list (section16_3_by_area (by_area r)) area) in
                 (area, area_specific, area_specific + shared_per_person d))
              <$> sorted_keys (section16_3_by_area (by_area r))
       | None => num_people r = 0
       end.
Proof.
  unfold calculate_field_distribution.
  destruct (area_loop_spec (section16_3_fields fields)
              {| section16_3_by_area := ∅; section16_3_shared := [] |})
    as (st & -> & Hby & Hshared).
  simpl bind. simpl in Hby, Hshared.
  destruct (distribute_spec (section16_3_by_area st)
              (len (section16_3_shared st))) as (dist & -> & Hdist).
  simpl bind.
  destruct (hypothesis_entries_ok (len (section16_1_fields fields))
              (section16_3_by_area st) (len (section16_3_shared st)))
    as (es & ->).
  simpl bind. eexists. split; [reflexivity|]. simpl.
  split; [intros k; rewrite Hby; reflexivity|].
  split; [exact Hshared|].
  repeat split; try reflexivity. exact Hdist.
Qed.

Lemma group_step_spec (groups : gmap string (gmap string (list field)))
    (f : field) (s a : string) :
  AnalyzeSection16Structure.group
    (AnalyzeSection16Structure.group_step groups f) s a
  = AnalyzeSection16Structure.group groups s a
    ++ (if decide (section_key f = Some s /\ area_key f = a) then [f] else []).
Proof.
  unfold AnalyzeSection16Structure.group,
    AnalyzeSection16Structure.group_step, section_key.
  fold (area_key f).
  destruct (search AnalyzeSection16Structure.pat_section16 (name f)) as [g|].
  - destruct (decide ("Section16_" +:+ g = s)) as [<-|Hne].
    + rewrite lookup_insert_eq. simpl. rewrite get_list_append_to.
      destruct (decide (area_key f = a)) as [<-|Hna].
      * rewrite decide_True by auto. reflexivity.
      * rewrite decide_False by (intros [_ ?]; done).
        rewrite app_nil_r. reflexivity.
    + rewrite lookup_insert_ne by exact Hne.
      rewrite decide_False by (intros [[= ?] _]; done).
      rewrite app_nil_r. reflexivity.
  - rewrite decide_False by (intros [[=] _]).
    rewrite app_nil_r. reflexivity.
Qed.

Lemma section_groups_spec (fields : list field) (s a : string) :
  AnalyzeSection16Structure.group
    (AnalyzeSection16Structure.section_groups fields) s a
  = filter (fun f => section_key f = Some s /\ area_key f = a) fields.
Proof.
  unfold AnalyzeSection16Structure.section_groups.
  assert (H : forall acc,
    AnalyzeSection16Structure.group
      (foldl AnalyzeSection16Structure.group_step acc fields) s a
    = AnalyzeSection16Structure.group acc s a
      ++ filter (fun f => section_key f = Some s /\ area_key f = a) fields).
  { induction fields as [|f fs IH]; intros acc; simpl.
    - rewrite app_nil_r. reflexivity.
    - rewrite IH, group_step_spec, filter_cons, <- app_assoc.
      destruct (decide _); reflexivity. }
  rewrite H. reflexivity.
Qed.

End Areas.

Section AreaClaims.
Import CalculateFieldDistribution.



Lemma elem_of_section16_3_fields (fields : list field) (f : field) :
  f ∈ fields ->
  contains "Section16_1" (name f) = false ->
  contains "Section16_3" (name f) = true ->
  f ∈ section16_3_fields fields.
Proof.
  intros Hin H1 H3. unfold section16_3_fields.
  apply list_elem_of_In, filter_In. split; [by apply list_elem_of_In|].
  rewrite H1, H3. reflexivity.
Qed.

End AreaClaims.


(** ** Grouping by name and label *)

Section Grouping.
Import GenerateSection16Interfaces.

Lemma groups_16_3_initial (key : string) : get_list groups_16_3 key = [].
Proof.
  unfold get_list, groups_16_3. simpl.
  repeat (rewrite lookup_insert; case_decide; [reflexivity|]).
  rewrite lookup_empty. reflexivity.
Qed.

Lemma groups_16_1_initial (key : string) : get_list groups_16_1 key = [].
Proof.
  unfold get_list, groups_16_1. simpl.
  repeat (rewrite lookup_insert; case_decide; [reflexivity|]).
  rewrite lookup_empty. reflexivity.
Qed.

Lemma foldl_append_to (key_of : string -> field_info -> string)
    (fields : list (string * field_info))
    (groups : gmap string (list (string * field_info))) (key : string) :
  get_list (foldl (fun groups '(name, fi) =>
                     append_to (key_of name fi) (name, fi) groups)
              groups fields) key
  = get_list groups key ++ filter (fun e => key_of e.1 e.2 = key) fields.
Proof.
  revert groups; induction fields as [|[n fi] fields IH]; intros groups; simpl.
  - rewrite app_nil_r. reflexivity.
  - rewrite IH, get_list_append_to, filter_cons. simpl.
    case_decide; [rewrite <- app_assoc|]; reflexivity.
Qed.

Lemma analyze_section16_3_fields_spec (fields : list (string * field_info))
    (key : string) :
  get_list (analyze_section16_3_fields fields) key
  = filter (fun e => group_16_3 e.1 e.2 = key) fields.
Proof.
  unfold analyze_section16_3_fields.
  rewrite foldl_append_to, groups_16_3_initial. reflexivity.
Qed.

Lemma analyze_section16_1_fields_spec (fields : list (string * field_info))
    (key : string) :
  get_list (analyze_section16_1_fields fields) key
  = filter (fun e => group_16_1 e.1 e.2 = key) fields.
Proof.
  unfold analyze_section16_1_fields.
  rewrite foldl_append_to, groups_16_1_initial. reflexivity.
Qed.

(** C9, as stated, fails: two fields that differ in their label only
    are put in different groups, because the label is searched for
    "entry #1". *)
Lemma label_decides_the_group :
  group_16_3 "form1[0].Section16_3[0].TextField11[5]"
    {| info_name := "form1[0].Section16_3[0].TextField11[5]";
       info_label := "Entry #1 Last name";
       info_type := "PDFTextField"; info_page := 30 |}
  = "person1"
  /\ group_16_3 "form1[0].Section16_3[0].TextField11[5]"
       {| info_name := "form1[0].Section16_3[0].TextField11[5]";
          info_label := "Last name";
          info_type := "PDFTextField"; info_page := 30 |}
     = "shared"
  /\ group_16_1 "form1[0].Section16_1[0].TextField11[5]"
       {| info_name := "form1[0].Section16_1[0].TextField11[5]";
          info_label := "Rank";
          info_type := "PDFTextField"; info_page := 29 |}
     = "service_details"
  /\ group_16_1 "form1[0].Section16_1[0].TextField11[5]"
       {| info_name := "form1[0].Section16_1[0].TextField11[5]";
          info_label := "Name";
          info_type := "PDFTextField"; info_page := 29 |}
     = "other".
Proof. repeat split; vm_compute; reflexivity. Qed.

(** C9 (amended).  The group of a field is a deterministic function of
    its name and of its label in lower case; the declared type and the
    page are not read.  Two fields with the same name whose labels
    agree up to letter case get the same group, and each of
    [analyze_section16_1_fields] and [analyze_section16_3_fields] files
    every field under the key this function gives. *)
Theorem group_depends_on_name_and_label (fields : list (string * field_info))
    (n : string) (fi fi' : field_info) :
  lower (info_label fi) = lower (info_label fi') ->
  group_16_3 n fi = group_16_3 n fi'
  /\ group_16_1 n fi = group_16_1 n fi'
  /\ (forall key,
        get_list (analyze_section16_3_fields fields) key
        = filter (fun e => group_16_3 e.1 e.2 = key) fields)
  /\ (forall key,
        get_list (analyze_section16_1_fields fields) key
        = filter (fun e => group_16_1 e.1 e.2 = key) fields).
Proof.
  intros H. unfold group_16_3, group_16_1. rewrite H.
  split; [reflexivity|]. split; [reflexivity|].
  split; intros key;
    [apply analyze_section16_3_fields_spec
    | apply analyze_section16_1_fields_spec].
Qed.

Lemma group_depends_on_name_and_label_witness :
  group_16_3 "form1[0].Section16_3[0].TextField11[5]"
    {| info_name := "form1[0].Section16_3[0].TextField11[5]";
       info_label := "Entry #1 Last name";
       info_type := "PDFTextField"; info_page := 30 |}
  = group_16_3 "form1[0].Section16_3[0].TextField11[5]"
      {| info_name := "form1[0].Section16_3[0].TextField11[5]";
         info_label := "ENTRY #1 LAST NAME";
         info_type := "PDFDropdown"; info_page := 31 |}.
Proof.
  apply (group_depends_on_name_and_label []). reflexivity.
Defined.

End Grouping.

(** ** Coverage never raises *)

Section Coverage.
Import VerifySection13.

Lemma percent_val (guard : bool) (a b : Z) :
  (guard = true -> b <> 0) ->
  exists q, percent guard a b = Val q /\ (guard = false -> q = 0%Q).
Proof.
  intros H. unfold percent, truediv. destruct guard.
  - destruct (Z.eqb_spec b 0) as [E|_]; [by destruct (H eq_refl)|].
    simpl. eexists. split; [reflexivity | discriminate].
  - eauto.
Qed.

Lemma nonempty_len {A : Type} (xs : list A) :
  nonempty xs = true -> len xs <> 0.
Proof. destruct xs; [discriminate|]. unfold len. simpl. lia. Qed.

Lemma nonempty_elements (s : gset string) :
  nonempty (elements s) = true -> set_len s <> 0.
Proof. apply nonempty_len. Qed.

Lemma widget_coverage_val (fa : field_analysis) (kind : string)
    (mapped : gset string) :
  exists q,
    widget_coverage fa kind mapped
    = Val (q, set_of (name <$> get_list (by_type fa) kind) ∩ mapped,
           elements (set_of (name <$> get_list (by_type fa) kind) ∖ mapped))
    /\ (get_list (by_type fa) kind = [] -> q = 0%Q).
Proof.
  unfold widget_coverage.
  destruct (percent_val (nonempty (name <$> get_list (by_type fa) kind))
              (set_len (set_of (name <$> get_list (by_type fa) kind) ∩ mapped))
              (len (name <$> get_list (by_type fa) kind))
              (nonempty_len _)) as (q & -> & Hq).
  simpl. exists q. split; [reflexivity|].
  intros E. apply Hq. rewrite E. reflexivity.
Qed.

(** C8.  [verify_coverage] never raises: for every field analysis and
    every set of interface mappings, among them the analysis of an
    empty list of fields, categories without any field and mappings
    that miss fields, it returns its results.  Every division is
    guarded, a category without fields has coverage 0, and the fields
    that are not covered are carried in the results. *)
Theorem verify_coverage_never_raises (fa : field_analysis)
    (im : interface_mappings) :
  exists r,
    verify_coverage fa im = Val r
    /\ missing_fields r !! "strings"
       = Some (elements (string_values fa ∖ im_string_values im))
    /\ missing_fields r !! "checkboxes"
       = Some (elements
                 (set_of (name <$> get_list (by_type fa) "PDFCheckBox")
                  ∖ checkbox_fields im))
    /\ missing_fields r !! "radios"
       = Some (elements
                 (set_of (name <$> get_list (by_type fa) "PDFRadioGroup")
                  ∖ radio_fields im))
    /\ missing_fields r !! "dropdowns"
       = Some (elements
                 (set_of (name <$> get_list (by_type fa) "PDFDropdown")
                  ∖ dropdown_fields im))
    /\ (elements (string_values fa) = [] -> string_coverage r = 0%Q)
    /\ (get_list (by_type fa) "PDFCheckBox" = [] -> checkbox_coverage r = 0%Q)
    /\ (get_list (by_type fa) "PDFRadioGroup" = [] -> radio_coverage r = 0%Q)
    /\ (get_list (by_type fa) "PDFDropdown" = [] -> dropdown_coverage r = 0%Q)
    /\ (total_fields fa = 0 -> total_coverage r = 0%Q)
    /\ forall fields_array,
         exists r', verify_coverage (analyze_all_fields fields_array) im = Val r'.
Proof.
  assert (Hval : forall fa', exists r,
    verify_coverage fa' im = Val r
    /\ missing_fields r !! "strings"
       = Some (elements (string_values fa' ∖ im_string_values im))
    /\ missing_fields r !! "checkboxes"
       = Some (elements
                 (set_of (name <$> get_list (by_type fa') "PDFCheckBox")
                  ∖ checkbox_fields im))
    /\ missing_fields r !! "radios"
       = Some (elements
                 (set_of (name <$> get_list (by_type fa') "PDFRadioGroup")
                  ∖ radio_fields im))
    /\ missing_fields r !! "dropdowns"
       = Some (elements
                 (set_of (name <$> get_list (by_type fa') "PDFDropdown")
                  ∖ dropdown_fields im))
    /\ (elements (string_values fa') = [] -> string_coverage r = 0%Q)
    /\ (get_list (by_type fa') "PDFCheckBox" = [] -> checkbox_coverage r = 0%Q)
    /\ (get_list (by_type fa') "PDFRadioGroup" = [] -> radio_coverage r = 0%Q)
    /\ (get_list (by_type fa') "PDFDropdown" = [] -> dropdown_coverage r = 0%Q)
    /\ (total_fields fa' = 0 -> total_coverage r = 0%Q)).
  { intros fa'. unfold verify_coverage.
    destruct (percent_val (nonempty (elements (string_values fa')))
                (set_len (string_values fa' ∩ im_string_values im))
                (set_len (string_values fa'))
                (nonempty_elements _)) as (q1 & -> & H1).
    simpl bind.
    destruct (widget_coverage_val fa' "PDFCheckBox" (checkbox_fields im))
      as (q2 & -> & H2).
    simpl bind.
    destruct (widget_coverage_val fa' "PDFRadioGroup" (radio_fields im))
      as (q3 & -> & H3).
    simpl bind.
    destruct (widget_coverage_val fa' "PDFDropdown" (dropdown_fields im))
      as (q4 & -> & H4).
    simpl bind.
    match goal with
    | |- context [percent ?g ?a ?b] =>
        destruct (percent_val g a b) as (q5 & -> & H5)
    end.
    { intros Hg Hz. rewrite Hz in Hg. discriminate. }
    simpl bind. eexists. split; [reflexivity|]. simpl.
    repeat split; try done.
    - intros E. apply H1. rewrite E. reflexivity.
    - intros E. apply H5. rewrite E. reflexivity. }
  destruct (Hval fa) as (r & Hr).
  exists r. repeat split; try apply Hr.
  intros fields_array. destruct (Hval (analyze_all_fields fields_array))
    as (r' & Hr' & _). eauto.
Qed.

Lemma verify_coverage_never_raises_witness :
  exists r,
    verify_coverage (analyze_all_fields [])
      {| im_string_values := ∅; im_field_names := ∅; checkbox_fields := ∅;
         radio_fields := ∅; dropdown_fields := ∅ |} = Val r
    /\ total_coverage r = 0%Q.
Proof.
  destruct (verify_coverage_never_raises (analyze_all_fields [])
              {| im_string_values := ∅; im_field_names := ∅;
                 checkbox_fields := ∅; radio_fields := ∅;
                 dropdown_fields := ∅ |})
    as (r & Hr & _ & _ & _ & _ & _ & _ & _ & _ & Htotal & _).
  exists r. split; [exact Hr|]. apply Htotal. reflexivity.
Defined.

End Coverage.

(** * Further properties *)

(** ** The paths of [generate_logical_path] *)

Section PathShape.
Import GenerateFieldMappings.

Lemma endswith_self (suffix : string) : endswith suffix suffix = true.
Proof.
  destruct suffix as [|c s]; [reflexivity|].
  change (String.eqb (String c s) (String c s) || endswith (String c s) s
          = true).
  rewrite String.eqb_refl. reflexivity.
Qed.

Lemma endswith_app (suffix a b : string) :
  endswith suffix b = true -> endswith suffix (a +:+ b) = true.
Proof.
  intros H. induction a as [|c a IH]; [exact H|].
  rewrite append_cons. simpl. rewrite IH. apply orb_true_r.
Qed.

Ltac close_valued :=
  lazymatch goal with
  | |- endswith _ (_ +:+ _) = true => apply endswith_app; close_valued
  | |- valued _ => unfold valued; close_valued
  | |- _ => apply endswith_self
  end.

Lemma return_named_valued (prefix : string) (table : dict) (num : Z) :
  yields valued (return_named prefix table num).
Proof.
  unfold return_named. destruct (dict_in num table); [|apply yields_pass].
  apply yields_demand; intros v p [= <-].
  close_valued.
Qed.

Lemma return_numbered_valued (prefix stem : string) (num : Z) :
  yields valued (return_numbered prefix stem num).
Proof. intros p [= <-]. close_valued. Qed.

Lemma return_table_valued (prefix : string) (t r c : Z) :
  yields valued (return_table prefix t r c).
Proof. intros p [= <-]. close_valued. Qed.

Ltac valued_step :=
  match goal with
  | |- yields _ (if ?b then _ else _) => destruct b
  | |- yields _ (with_index _ _ _) => apply with_index_yields; intros ?
  | |- yields _ (with_dropdown _ _ _) => apply with_dropdown_yields; intros ?
  | |- yields _ (with_table _ _) => apply with_table_yields; intros ? ? ?
  | |- yields _ (return_named _ _ _) => apply return_named_valued
  | |- yields _ (return_numbered _ _ _) => apply return_numbered_valued
  | |- yields _ (return_table _ _ _ _) => apply return_table_valued
  | |- yields _ (Ret (Some _)) => intros ? [= <-]; reflexivity
  | |- yields _ Pass => apply yields_pass
  end.

Ltac valued_chain := cbv zeta; repeat valued_step.

Lemma federal_valued (n : string) : yields valued (federal n).
Proof. unfold federal. valued_chain. Qed.

Lemma non_federal_valued (n : string) : yields valued (non_federal n).
Proof. unfold non_federal. valued_chain. Qed.

Lemma self_employment_valued (n : string) : yields valued (self_employment n).
Proof. unfold self_employment. valued_chain. Qed.

Lemma unemployment_valued (n : string) : yields valued (unemployment n).
Proof.
  unfold unemployment. valued_chain.
  destruct (search pat_area_field n) as [[g1 g2]|]; [|apply yields_pass].
  do 2 (apply yields_demand; intros ?).
  intros p [= <-]. close_valued.
Qed.

Lemma issues_valued (n : string) : yields valued (issues n).
Proof. unfold issues, issues_area. valued_chain. Qed.

Lemma generate_additional_section_mapping_valued (n section_prefix p : string) :
  generate_additional_section_mapping n section_prefix = Val (Some p) ->
  valued p.
Proof.
  unfold generate_additional_section_mapping.
  match goal with
  | |- run (?s ;; _) = _ -> _ =>
      assert (H : yields valued s) by valued_chain;
      destruct s as [|[q|]|e]; simpl; try discriminate
  end.
  intros [= <-]. apply H. reflexivity.
Qed.

Lemma fallback_valued (n : string) : yields valued (fallback n).
Proof.
  unfold fallback. destruct (search pat_section n) as [sid|];
    [|apply yields_pass].
  destruct (classify_widget n sid) as [[ftype findex|path]|e] eqn:E; simpl.
  - intros p [= <-]. close_valued.
  - intros p [= <-]. unfold classify_widget in E.
    repeat match type of E with
           | (if ?b then _ else _) = _ => destruct b
           end;
      try (unfold typed_index in E;
           match type of E with
           | context [search ?q n] => destruct (search q n)
           end;
           [destruct (int _)|]; discriminate).
    + discriminate.
    + destruct (search pat_dropdown n) as [[g1 g2]|];
        [destruct (int g1)|]; discriminate.
    + destruct (search pat_table n) as [[[[[g1 g2] g3] g4] g5]|];
        [|discriminate].
      destruct (int g1); [|discriminate]. destruct (int g2); [|discriminate].
      destruct (int g4); [|discriminate]. simpl in E. injection E as <-.
      close_valued.
    + discriminate.
  - intros p [=].
Qed.

Lemma section_chain_valued (n : string) : yields valued (section_chain n).
Proof.
  unfold section_chain.
  repeat match goal with
         | |- yields _ (if ?b then _ else _) => destruct b
         end;
    auto using federal_valued, non_federal_valued, self_employment_valued,
      unemployment_valued, issues_valued, yields_pass;
    apply yields_return_call; intros p;
    apply generate_additional_section_mapping_valued.
Qed.

Lemma section_chain_roots (n : string) :
  yields (fun p =>
            under "section13.federalEmployment.entries[0]." p
            \/ under "section13.nonFederalEmployment.entries[0]." p
            \/ under "section13.selfEmployment.entries[0]." p
            \/ under "section13.unemployment.entries[0]." p
            \/ under "section13.employmentRecordIssues." p
            \/ under "section13.nonFederalEmploymentAdditional.entries[0]." p
            \/ under "section13.selfEmploymentAdditional.entries[0]." p)
    (section_chain n).
Proof.
  unfold section_chain.
  destruct (contains "section_13_1-2" n).
  { eapply yields_weaken; [|apply federal_yields].
    intros p Hp. left. exact Hp. }
  destruct (_ && _).
  { eapply yields_weaken; [|apply non_federal_yields].
    intros p Hp. right; left. exact Hp. }
  destruct (_ && _).
  { eapply yields_weaken; [|apply self_employment_yields].
    intros p Hp. do 2 right; left. exact Hp. }
  destruct (contains "section13_4" n) eqn:E4.
  { eapply yields_weaken; [|apply unemployment_yields].
    intros p Hp. do 3 right; left. exact Hp. }
  destruct (contains "section13_5" n).
  { eapply yields_weaken; [|apply issues_yields].
    intros p Hp. do 4 right; left. exact Hp. }
  destruct (contains "section13_2-2" n).
  { apply yields_return_call. intros p Hp.
    apply generate_additional_section_mapping_under in Hp.
    do 5 right; left. exact Hp. }
  destruct (contains "section13_3-2" n).
  { apply yields_return_call. intros p Hp.
    apply generate_additional_section_mapping_under in Hp.
    do 6 right. exact Hp. }
  destruct (contains "section13_4_3" n) eqn:E43; [|apply yields_pass].
  apply section13_4_3_in_section13_4 in E43. congruence.
Qed.

Lemma generate_logical_path_roots (n p : string) :
  generate_logical_path n = Val (Some p) ->
  under "section13.federalEmployment.entries[0]." p
  \/ under "section13.nonFederalEmployment.entries[0]." p
  \/ under "section13.selfEmployment.entries[0]." p
  \/ under "section13.unemployment.entries[0]." p
  \/ under "section13.employmentRecordIssues." p
  \/ under "section13.nonFederalEmploymentAdditional.entries[0]." p
  \/ under "section13.selfEmploymentAdditional.entries[0]." p
  \/ under "section13.section" p.
Proof.
  intros [H|[_ H]]%generate_logical_path_source.
  - apply section_chain_roots in H.
    destruct H as [H|[H|[H|[H|[H|[H|H]]]]]];
      [left | right; left | do 2 right; left | do 3 right; left
      | do 4 right; left | do 5 right; left | do 6 right; left]; exact H.
  - apply fallback_yields in H. do 7 right. exact H.
Qed.

(** X1.  Every logical path [generate_logical_path] returns lies under
    one of eight roots: the four repeated sections always with entry
    index 0, the employment record issues, the two additional forms
    with entry index 0, or the default fallback [section13.section]. *)
Theorem paths_lie_under_known_roots (n p : string) :
  generate_logical_path n = Val (Some p) ->
  under "section13.federalEmployment.entries[0]." p
  \/ under "section13.nonFederalEmployment.entries[0]." p
  \/ under "section13.selfEmployment.entries[0]." p
  \/ under "section13.unemployment.entries[0]." p
  \/ under "section13.employmentRecordIssues." p
  \/ under "section13.nonFederalEmploymentAdditional.entries[0]." p
  \/ under "section13.selfEmploymentAdditional.entries[0]." p
  \/ under "section13.section" p.
Proof. apply generate_logical_path_roots. Qed.

Lemma paths_lie_under_known_roots_witness :
  under "section13.federalEmployment.entries[0]."
    "section13.unemployment.entries[0].field7.value"
  \/ under "section13.nonFederalEmployment.entries[0]."
       "section13.unemployment.entries[0].field7.value"
  \/ under "section13.selfEmployment.entries[0]."
       "section13.unemployment.entries[0].field7.value"
  \/ under "section13.unemployment.entries[0]."
       "section13.unemployment.entries[0].field7.value"
  \/ under "section13.employmentRecordIssues."
       "section13.unemployment.entries[0].field7.value"
  \/ under "section13.nonFederalEmploymentAdditional.entries[0]."
       "section13.unemployment.entries[0].field7.value"
  \/ under "section13.selfEmploymentAdditional.entries[0]."
       "section13.unemployment.entries[0].field7.value"
  \/ under "section13.section" "section13.unemployment.entries[0].field7.value".
Proof.
  apply (paths_lie_under_known_roots
           "form1[0].section13_4[1].#area[1].#field[7]").
  reflexivity.
Defined.

(** X2.  A path [generate_logical_path] returns is never the empty
    string and always ends in [.value]; so the test [if logical_path:]
    of [main] sends to the unmapped names exactly those for which the
    function returns [None]. *)
Theorem paths_end_in_value (n : string) (r : option string) :
  generate_logical_path n = Val r ->
  truthy r = r
  /\ path_of n = r
  /\ forall p, r = Some p -> p <> EmptyString /\ endswith ".value" p = true.
Proof.
  intros Hr.
  assert (Hp : forall p, r = Some p ->
                 p <> EmptyString /\ endswith ".value" p = true).
  { intros p ->. split.
    - intros ->. apply generate_logical_path_roots in Hr.
      destruct Hr as [H|[H|[H|[H|[H|[H|[H|H]]]]]]]; discriminate H.
    - apply generate_logical_path_source in Hr as [H|[_ H]].
      + eapply section_chain_valued, H.
      + eapply fallback_valued, H. }
  assert (Ht : truthy r = r).
  { destruct r as [[|c p]|]; try reflexivity.
    destruct (Hp EmptyString eq_refl) as [Hne _]. congruence. }
  split; [exact Ht|]. split; [|exact Hp].
  unfold path_of. rewrite Hr. exact Ht.
Qed.

Lemma paths_end_in_value_witness :
  path_of "form1[0].section13_5[0].#area[2]"
  = Some "section13.section5.unknown0.value".
Proof.
  apply (paths_end_in_value "form1[0].section13_5[0].#area[2]"). reflexivity.
Defined.

End PathShape.

(** ** Additional forms and the counts of [main] *)

Section MainCounts.
Import GenerateFieldMappings.

Lemma generate_logical_path_chain_return (n : string) (r : res (option string)) :
  contains "." n = true ->
  section_chain n = return_call r ->
  generate_logical_path n = r.
Proof.
  intros Hdot Hchain. unfold generate_logical_path.
  pose proof (split_go_separator "." n EmptyString Hdot) as Hlen.
  fold (split "." n) in Hlen.
  destruct (Z.ltb_spec (Z.of_nat (length (split "." n))) 2) as [?|_]; [lia|].
  rewrite Hchain. destruct r as [v|e]; reflexivity.
Qed.

(** X3.  A name of an additional form is mapped by
    [generate_additional_section_mapping] alone: for a name with a dot
    that no earlier branch takes, [generate_logical_path] returns what
    that function returns, for [section13_2-2] with the prefix
    [nonFederalEmploymentAdditional] and for [section13_3-2] with
    [selfEmploymentAdditional].  The default fallback is never reached,
    so such a name without a known widget gets [None]. *)
Theorem additional_forms_use_their_own_mapping (n : string) :
  contains "." n = true ->
  contains "section_13_1-2" n = false ->
  contains "section13_4" n = false ->
  contains "section13_5" n = false ->
  (contains "section13_2-2" n = true ->
   contains "section13_3" n && negb (contains "section13_3-2" n) = false ->
   generate_logical_path n =
   generate_additional_section_mapping n "nonFederalEmploymentAdditional")
  /\ (contains "section13_2" n = false ->
      contains "section13_3-2" n = true ->
      generate_logical_path n =
      generate_additional_section_mapping n "selfEmploymentAdditional").
Proof.
  intros Hdot H1 H4 H5. split.
  - intros H22 H3. apply generate_logical_path_chain_return; [exact Hdot|].
    unfold section_chain. rewrite H1, H22, H3, H4, H5.
    rewrite andb_false_r. reflexivity.
  - intros H2 H32. apply generate_logical_path_chain_return; [exact Hdot|].
    unfold section_chain. rewrite H1, H2, H32, H4, H5.
    rewrite (contains_app_false "section13_2" "-2" n H2 :
               contains "section13_2-2" n = false).
    rewrite andb_false_r. reflexivity.
Qed.

Lemma additional_forms_use_their_own_mapping_witness :
  generate_logical_path "form1[0].section13_2-2[0].CheckBox[3]"
  = generate_additional_section_mapping
      "form1[0].section13_2-2[0].CheckBox[3]" "nonFederalEmploymentAdditional"
  /\ generate_logical_path "form1[0].section13_3-2[0].p3-t68[1]"
     = generate_additional_section_mapping
         "form1[0].section13_3-2[0].p3-t68[1]" "selfEmploymentAdditional".
Proof.
  split.
  - apply (proj1 (additional_forms_use_their_own_mapping
                    "form1[0].section13_2-2[0].CheckBox[3]"
                    eq_refl eq_refl eq_refl eq_refl)); reflexivity.
  - apply (proj2 (additional_forms_use_their_own_mapping
                    "form1[0].section13_3-2[0].p3-t68[1]"
                    eq_refl eq_refl eq_refl eq_refl)); reflexivity.
Defined.


Lemma total_of_insert `{Countable K} (k : K) (v : Z) (d : gmap K Z) :
  total_of (<[k := v]> d) = total_of d - default 0 (d !! k) + v.
Proof.
  unfold total_of. destruct (d !! k) as [w|] eqn:E; simpl.
  - rewrite <- (insert_delete_eq d).
    rewrite (sum_permutation _ (v :: (map_to_list (delete k d)).*2)).
    2:{ rewrite map_to_list_insert by apply lookup_delete_eq. reflexivity. }
    rewrite (sum_permutation ((map_to_list d).*2)
               (w :: (map_to_list (delete k d)).*2)).
    2:{ rewrite <- (map_to_list_delete d k w E). reflexivity. }
    simpl. lia.
  - rewrite (sum_permutation _ (v :: (map_to_list d).*2)).
    2:{ rewrite map_to_list_insert by exact E. reflexivity. }
    simpl. lia.
Qed.

Lemma total_of_increment (k : string) (d : gmap string Z) :
  total_of (increment k d) = total_of d + 1.
Proof. unfold increment. rewrite total_of_insert. lia. Qed.

Lemma total_of_stats (names : list string) (d : gmap string Z) :
  total_of (foldl (fun d n => increment (stats_key n) d) d names)
  = total_of d + len names.
Proof.
  unfold len. revert d; induction names as [|n names IH]; intros d; simpl.
  - lia.
  - rewrite IH, total_of_increment. lia.
Qed.

Lemma length_remove_dups `{EqDecision A} (l : list A) :
  (length (remove_dups l) <= length l)%nat.
Proof.
  induction l as [|x l IH]; simpl; [lia|].
  destruct (decide_rel elem_of x l); simpl; lia.
Qed.

Lemma length_omap_path_of (names : list string) :
  length (omap path_of names) = length (mapped_names names).
Proof.
  unfold mapped_names. induction names as [|n names IH]; [reflexivity|].
  rewrite filter_cons. cbn [omap list_omap].
  fold (omap path_of names).
  destruct (decide (is_Some (path_of n))) as [[p Hp]|Hn].
  - rewrite Hp. simpl. by rewrite IH.
  - destruct (path_of n) as [p|]; [destruct Hn; eauto|]. exact IH.
Qed.

Lemma length_mapped_unmapped (names : list string) :
  (length (mapped_names names)
   + length (filter (fun n => path_of n = None) names) = length names)%nat.
Proof.
  unfold mapped_names. induction names as [|n names IH]; [reflexivity|].
  rewrite !filter_cons.
  destruct (decide (is_Some (path_of n))) as [[p Hp]|Hn].
  - rewrite decide_False by (rewrite Hp; discriminate). simpl. lia.
  - rewrite decide_True; [simpl; lia|].
    destruct (path_of n) as [p|]; [destruct Hn; eauto | reflexivity].
Qed.

Lemma length_names_of (fields : list item) :
  (length (names_of fields) <= length fields)%nat.
Proof.
  induction fields as [|field fields IH]; [reflexivity|].
  destruct field as [| |n].
  - change (names_of (NotADict :: fields)) with (names_of fields). simpl. lia.
  - change (names_of (NoName :: fields)) with (names_of fields). simpl. lia.
  - change (names_of (Named n :: fields)) with (n :: names_of fields).
    simpl. lia.
Qed.

Lemma main_counts_spec (fields : list item) :
  exists st,
    main fields = Val st
    /\ size (mappings st)
       = length (remove_dups (omap path_of (names_of fields)))
    /\ (size (mappings st) <= length (mapped_names (names_of fields)))%nat
    /\ total_of (section_stats st) = len (mapped_names (names_of fields))
    /\ len (mapped_names (names_of fields)) + len (unmapped_fields st)
       = len (names_of fields)
    /\ len (names_of fields) <= len fields.
Proof.
  destruct (loop_spec fields initial) as (st & Hloop & Hmap & Hun & Hstats).
  exists st. split; [exact Hloop|].
  assert (Hsize : size (mappings st)
                  = length (remove_dups (omap path_of (names_of fields)))).
  { rewrite <- (size_dom (D := gset string)).
    rewrite <- (size_list_to_set (C := gset string))
      by apply NoDup_remove_dups.
    f_equal. apply set_eq; intros p.
    rewrite elem_of_dom, elem_of_list_to_set, elem_of_remove_dups,
      list_elem_of_omap, Hmap.
    simpl. rewrite lookup_empty. split.
    - destruct (last_source p (names_of fields)) as [n|] eqn:E;
        [|intros [? [=]]].
      intros _. exists n. by apply last_source_Some.
    - intros (n & Hin & Hp).
      destruct (last_source_is_Some p n _ Hin Hp) as [m ->]. eauto. }
  split; [exact Hsize|]. split; [|split; [|split]].
  - rewrite Hsize, <- length_omap_path_of. apply length_remove_dups.
  - rewrite Hstats. unfold mapped_names. simpl.
    rewrite total_of_stats. unfold total_of.
    rewrite map_to_list_empty. simpl. lia.
  - rewrite Hun. simpl. unfold len.
    pose proof (length_mapped_unmapped (names_of fields)). lia.
  - unfold len. pose proof (length_names_of fields). lia.
Qed.

(** X4.  After the loop of [main], the number of mappings is the
    number of distinct logical paths the batch produces, which is at
    most the number of names that are given a path; the counters of
    [section_stats] add up to the number of names that are given a
    path; and every name is counted as mapped or as unmapped, the
    elements without a name being skipped. *)
Theorem main_counts (fields : list item) :
  exists st,
    main fields = Val st
    /\ size (mappings st)
       = length (remove_dups (omap path_of (names_of fields)))
    /\ (size (mappings st) <= length (mapped_names (names_of fields)))%nat
    /\ total_of (section_stats st) = len (mapped_names (names_of fields))
    /\ len (mapped_names (names_of fields)) + len (unmapped_fields st)
       = len (names_of fields)
    /\ len (names_of fields) <= len fields.
Proof. apply main_counts_spec. Qed.

Lemma percent_bounds (a b : Z) :
  0 <= a <= b -> 0 < b ->
  (0 <= inject_Z a / inject_Z b * 100 <= 100)%Q.
Proof.
  intros Ha Hb. destruct b as [|pb|pb]; try lia.
  unfold Qle, Qdiv, Qmult, Qinv, inject_Z. simpl. split; nia.
Qed.

(** X5.  The summary [main] prints divides the number of mappings by
    the length of the field list without a guard: on an empty list it
    raises [ZeroDivisionError]; on any other list it is computed, the
    coverage lies between 0 and 100, and the mapped and unmapped
    counts together do not exceed the number of fields processed. *)
Theorem main_summary_coverage (fields : list item) :
  (fields = [] -> MainSummary.main_summary fields = Exc ZeroDivisionError)
  /\ (fields <> [] ->
      exists s,
        MainSummary.main_summary fields = Val s
        /\ (0 <= MainSummary.mapping_coverage s <= 100)%Q
        /\ MainSummary.successfully_mapped s + MainSummary.unmapped s
           <= MainSummary.total_processed s).
Proof.
  split; [intros ->; reflexivity|].
  intros Hne.
  destruct (main_counts_spec fields)
    as (st & Hmain & _ & Hsize & _ & Hsum & Hlen).
  unfold MainSummary.main_summary, MainSummary.summarize.
  rewrite Hmain. simpl bind. unfold VerifySection13.truediv.
  assert (Hpos : 0 < len fields).
  { unfold len. destruct fields; [congruence | simpl; lia]. }
  destruct (Z.eqb_spec (len fields) 0) as [E|_]; [lia|].
  simpl. eexists. split; [reflexivity|]. simpl.
  split; [apply percent_bounds; [|exact Hpos]|]; unfold len in *; lia.
Qed.

Lemma main_summary_coverage_witness :
  MainSummary.main_summary [] = Exc ZeroDivisionError
  /\ exists s,
       MainSummary.main_summary [NoName] = Val s
       /\ (0 <= MainSummary.mapping_coverage s <= 100)%Q
       /\ MainSummary.successfully_mapped s + MainSummary.unmapped s
          <= MainSummary.total_processed s.
Proof.
  split.
  - apply (main_summary_coverage []). reflexivity.
  - apply (main_summary_coverage [NoName]). discriminate.
Defined.

End MainCounts.

(** ** Safe property names *)

Section SafeNameShape.
Import SafeNames.

Lemma startswith_cons (a c : ascii) (p s : string) :
  startswith (String a p) (String c s) = Ascii.eqb a c && startswith p s.
Proof. unfold startswith. simpl. destruct (Ascii.eqb a c); reflexivity. Qed.

Lemma startswith_empty (s : string) : startswith EmptyString s = true.
Proof. reflexivity. Qed.

Lemma contains_cons (sub : string) (c : ascii) (s : string) :
  contains sub (String c s) = startswith sub (String c s) || contains sub s.
Proof. reflexivity. Qed.

Lemma startswith_append (sub a b : string) :
  startswith sub a = true -> startswith sub (a +:+ b) = true.
Proof.
  intros [r ->]%startswith_inv. rewrite append_assoc. apply startswith_self.
Qed.

Lemma contains_append (sub a b : string) :
  contains sub a = true -> contains sub (a +:+ b) = true.
Proof.
  induction a as [|c a IH].
  - simpl. rewrite orb_false_r. intros [r Hr]%startswith_inv.
    destruct sub; [|discriminate Hr]. destruct b; reflexivity.
  - rewrite append_cons, !contains_cons.
    intros [H|H]%orb_true_iff; apply orb_true_iff.
    + left. rewrite <- append_cons. apply startswith_append, H.
    + right. apply IH, H.
Qed.

Lemma all_chars_app (test : ascii -> bool) (a b : string) :
  all_chars test (a +:+ b) = all_chars test a && all_chars test b.
Proof.
  induction a as [|c a IH]; [reflexivity|].
  rewrite append_cons. simpl. rewrite IH, andb_assoc. reflexivity.
Qed.

(** *** The four passes *)

Lemma replace_non_word_word (s : string) :
  all_chars is_word (replace_non_word s) = true.
Proof.
  induction s as [|c s IH]; [reflexivity|]. simpl. rewrite IH.
  destruct (is_word c) eqn:E; [rewrite E|]; reflexivity.
Qed.

Lemma collapse_go_word (inside : bool) (s : string) :
  all_chars is_word s = true -> all_chars is_word (collapse_go inside s) = true.
Proof.
  revert inside; induction s as [|c s IH]; intros inside; [reflexivity|].
  simpl. intros [Hc Hs]%andb_true_iff.
  destruct (Ascii.eqb c "_"); [destruct inside|]; simpl;
    rewrite ?IH by exact Hs; rewrite ?Hc; reflexivity.
Qed.

Lemma collapse_go_runs (s : string) :
  contains "__" (collapse_go false s) = false
  /\ contains "__" (collapse_go true s) = false
  /\ startswith "_" (collapse_go true s) = false.
Proof.
  induction s as [|c s (IH1 & IH2 & IH3)]; [repeat split|].
  simpl. destruct (Ascii.eqb_spec c "_") as [->|Hne].
  - split; [|split; assumption].
    rewrite contains_cons, startswith_cons, IH3, IH2. reflexivity.
  - assert (Hc : Ascii.eqb "_" c = false)
      by (apply Ascii.eqb_neq; congruence).
    split; [|split].
    + rewrite contains_cons, startswith_cons, Hc, IH1. reflexivity.
    + rewrite contains_cons, startswith_cons, Hc, IH1. reflexivity.
    + rewrite startswith_cons, Hc. reflexivity.
Qed.

Lemma lstrip_suffix (s : string) : exists front, s = front +:+ lstrip s.
Proof.
  induction s as [|c s [front IH]]; [by exists EmptyString|].
  simpl. destruct (Ascii.eqb c "_").
  - exists (String c front). rewrite append_cons. by rewrite <- IH.
  - by exists EmptyString.
Qed.

Lemma contains_suffix (sub front s : string) :
  contains sub (front +:+ s) = false -> contains sub s = false.
Proof.
  induction front as [|c front IH]; [auto|].
  rewrite append_cons, contains_cons. intros [_ H]%orb_false_iff. auto.
Qed.

Lemma lstrip_start (s : string) : startswith "_" (lstrip s) = false.
Proof.
  induction s as [|c s IH]; [reflexivity|]. simpl.
  destruct (Ascii.eqb c "_") eqn:E; [exact IH|].
  rewrite startswith_cons, Ascii.eqb_sym, E. reflexivity.
Qed.

Lemma rstrip_prefix (s : string) : exists back, s = rstrip s +:+ back.
Proof.
  induction s as [|c s [back IH]]; [by exists EmptyString|].
  simpl. destruct (rstrip s) as [|d r] eqn:E.
  - destruct (Ascii.eqb c "_").
    + exists (String c s). reflexivity.
    + exists s. reflexivity.
  - exists back. rewrite append_cons. by rewrite <- IH.
Qed.

Lemma rstrip_end (s : string) : endswith "_" (rstrip s) = false.
Proof.
  induction s as [|c s IH]; [reflexivity|]. simpl.
  destruct (rstrip s) as [|d r] eqn:E.
  - destruct (Ascii.eqb c "_") eqn:Ec; [reflexivity|].
    simpl. rewrite Ec. reflexivity.
  - change (String.eqb (String c (String d r)) "_"
            || endswith "_" (String d r) = false).
    rewrite IH. simpl. destruct (Ascii.eqb c "_"); reflexivity.
Qed.

Lemma rstrip_start (s : string) :
  startswith "_" s = false -> startswith "_" (rstrip s) = false.
Proof.
  destruct (rstrip_prefix s) as [back Hs]. intros H.
  destruct (startswith "_" (rstrip s)) eqn:E; [|reflexivity].
  apply (startswith_append _ _ back) in E. rewrite <- Hs in E. congruence.
Qed.

Lemma convert_shape (field_name : string) :
  all_chars is_word (convert_to_safe_property_name field_name) = true
  /\ contains "__" (convert_to_safe_property_name field_name) = false
  /\ startswith "_" (convert_to_safe_property_name field_name) = false
  /\ endswith "_" (convert_to_safe_property_name field_name) = false.
Proof.
  unfold convert_to_safe_property_name, strip_underscores, collapse.
  set (t := collapse_go false (replace_non_word (remove "form1[0]." field_name))).
  assert (Hword : all_chars is_word t = true)
    by apply collapse_go_word, replace_non_word_word.
  assert (Hruns : contains "__" t = false) by apply collapse_go_runs.
  destruct (lstrip_suffix t) as [front Hfront].
  destruct (rstrip_prefix (lstrip t)) as [back Hback].
  assert (Hword' : all_chars is_word (lstrip t) = true).
  { rewrite Hfront, all_chars_app in Hword.
    by apply andb_true_iff in Hword as [_ ?]. }
  assert (Hruns' : contains "__" (lstrip t) = false).
  { apply (contains_suffix _ front). by rewrite <- Hfront. }
  split; [|split; [|split]].
  - rewrite Hback, all_chars_app in Hword'.
    by apply andb_true_iff in Hword' as [? _].
  - destruct (contains "__" (rstrip (lstrip t))) eqn:E; [|reflexivity].
    apply (contains_append _ _ back) in E. rewrite <- Hback in E. congruence.
  - apply rstrip_start, lstrip_start.
  - apply rstrip_end.
Qed.

(** X6.  A safe property name consists of letters, digits and
    underscores only, has no two underscores in a row and neither
    starts nor ends with an underscore, whatever the field name. *)
Theorem safe_property_name_shape (field_name : string) :
  all_chars is_word (convert_to_safe_property_name field_name) = true
  /\ contains "__" (convert_to_safe_property_name field_name) = false
  /\ startswith "_" (convert_to_safe_property_name field_name) = false
  /\ endswith "_" (convert_to_safe_property_name field_name) = false.
Proof. apply convert_shape. Qed.

(** *** A safe name is left unchanged *)

Lemma remove_go_word (s : string) :
  all_chars is_word s = true -> remove_go "form1[0]." 0 s = s.
Proof.
  induction s as [|c s IH]; [reflexivity|].
  intros Hword. simpl remove_go.
  destruct (startswith "form1[0]." (String c s)) eqn:E.
  - apply startswith_inv in E as [r Hr]. rewrite Hr in Hword.
    discriminate Hword.
  - simpl in Hword. apply andb_true_iff in Hword as [_ Hs].
    by rewrite IH.
Qed.

Lemma replace_non_word_id (s : string) :
  all_chars is_word s = true -> replace_non_word s = s.
Proof.
  induction s as [|c s IH]; [reflexivity|]. simpl.
  intros [Hc Hs]%andb_true_iff. by rewrite Hc, IH.
Qed.

Lemma collapse_go_id (s : string) (inside : bool) :
  contains "__" s = false ->
  (inside = true -> startswith "_" s = false) ->
  collapse_go inside s = s.
Proof.
  revert inside; induction s as [|c s IH]; intros inside; [reflexivity|].
  rewrite contains_cons. intros [Hstart Hs]%orb_false_iff Hin. simpl.
  rewrite startswith_cons in Hstart.
  destruct (Ascii.eqb_spec c "_") as [->|Hne].
  - destruct inside.
    + specialize (Hin eq_refl). rewrite startswith_cons in Hin.
      discriminate Hin.
    + f_equal. apply IH; [exact Hs|]. intros _. exact Hstart.
  - f_equal. apply IH; [exact Hs | discriminate].
Qed.

Lemma lstrip_id (s : string) : startswith "_" s = false -> lstrip s = s.
Proof.
  destruct s as [|c s]; [reflexivity|].
  rewrite startswith_cons, startswith_empty, andb_true_r. intros H.
  change (lstrip (String c s))
    with (if Ascii.eqb c "_" then lstrip s else String c s).
  rewrite Ascii.eqb_sym, H. reflexivity.
Qed.

Lemma rstrip_id (s : string) : endswith "_" s = false -> rstrip s = s.
Proof.
  induction s as [|c s IH]; [reflexivity|].
  change (String.eqb (String c s) "_" || endswith "_" s = false
          -> rstrip (String c s) = String c s).
  intros [Heq Hs]%orb_false_iff. simpl. rewrite (IH Hs).
  destruct s as [|d r]; [|reflexivity].
  simpl in Heq. destruct (Ascii.eqb c "_"); [discriminate | reflexivity].
Qed.

(** X7.  Converting a safe property name again leaves it unchanged. *)
Theorem safe_property_name_idempotent (field_name : string) :
  convert_to_safe_property_name (convert_to_safe_property_name field_name)
  = convert_to_safe_property_name field_name.
Proof.
  destruct (convert_shape field_name) as (Hword & Hruns & Hstart & Hend).
  set (name := convert_to_safe_property_name field_name) in *.
  unfold convert_to_safe_property_name at 1.
  unfold remove, collapse, strip_underscores.
  rewrite (remove_go_word name Hword), (replace_non_word_id name Hword).
  rewrite (collapse_go_id name false Hruns) by discriminate.
  rewrite (lstrip_id name Hstart). apply rstrip_id, Hend.
Qed.

End SafeNameShape.

(** ** The dicts and groups of [generate_section16_interfaces] *)

Section InterfaceDicts.
Import GenerateSection16Interfaces.

Lemma setitem_keys {V : Type} (k : string) (v : V) (d : list (string * V)) :
  (setitem k v d).*1 = if decide (k ∈ d.*1) then d.*1 else d.*1 ++ [k].
Proof.
  induction d as [|[k' v'] d IH]; [reflexivity|].
  change (setitem k v ((k', v') :: d))
    with (if String.eqb k k' then (k, v) :: d else (k', v') :: setitem k v d).
  rewrite (fmap_cons fst (k', v') d). cbn [fst].
  destruct (String.eqb_spec k k') as [->|Hne].
  - rewrite decide_True by apply list_elem_of_here. reflexivity.
  - rewrite fmap_cons, IH. cbn [fst].
    destruct (decide (k ∈ d.*1)) as [Hin|Hout].
    + rewrite decide_True by (by right). reflexivity.
    + rewrite decide_False; [reflexivity|].
      intros [?|?]%elem_of_cons; congruence.
Qed.

Lemma setitem_NoDup {V : Type} (k : string) (v : V) (d : list (string * V)) :
  NoDup d.*1 -> NoDup (setitem k v d).*1.
Proof.
  intros Hd. rewrite setitem_keys. case_decide as Hin; [exact Hd|].
  apply NoDup_app. split; [exact Hd|]. split.
  - intros x Hx [->|[]%elem_of_nil]%elem_of_cons. contradiction.
  - apply NoDup_singleton.
Qed.

Lemma setitem_elem_of {V : Type} (k : string) (v : V) (d : list (string * V))
    (k0 : string) (v0 : V) :
  NoDup d.*1 ->
  (k0, v0) ∈ setitem k v d <->
  (k0 = k /\ v0 = v) \/ (k0 <> k /\ (k0, v0) ∈ d).
Proof.
  induction d as [|[k' v'] d IH]; intros Hd; simpl.
  - rewrite elem_of_cons, elem_of_nil. split.
    + intros [[= -> ->]|[]]. by left.
    + intros [[-> ->]|[_ []]]. by left.
  - apply NoDup_cons in Hd as [Hk' Hd].
    destruct (String.eqb_spec k k') as [->|Hne].
    + rewrite !elem_of_cons. split.
      * intros [[= -> ->]|Hin]; [by left|].
        right. split; [|by right].
        intros ->. apply Hk'. apply list_elem_of_fmap. by exists (k', v0).
      * intros [[-> ->]|[Hn [[= -> ->]|Hin]]]; [by left | done | by right].
    + rewrite !elem_of_cons, IH by exact Hd. split.
      * intros [[= -> ->]|[[-> ->]|[Hn Hin]]].
        -- right. split; [congruence | by left].
        -- by left.
        -- right. split; [exact Hn | by right].
      * intros [[-> ->]|[Hn [[= -> ->]|Hin]]].
        -- right. by left.
        -- by left.
        -- right. right. by split.
Qed.

(** The dict built from a list of fields by [d[name] = field_info]. *)
Lemma categorize_spec (fields : list field) :
  categorize fields
  = (foldl (fun d f => setitem (name f) (field_info_of f) d) []
       (List.filter (fun f => contains "Section16_1" (name f)) fields),
     foldl (fun d f => setitem (name f) (field_info_of f) d) []
       (List.filter (fun f => negb (contains "Section16_1" (name f))
                              && contains "Section16_3" (name f)) fields)).
Proof.
  unfold categorize.
  generalize (@nil (string * field_info)) at 1 3 as d1.
  generalize (@nil (string * field_info)) as d3.
  induction fields as [|f fields IH]; intros d3 d1; [reflexivity|].
  simpl. destruct (contains "Section16_1" (name f)); simpl.
  - apply IH.
  - destruct (contains "Section16_3" (name f)); simpl; apply IH.
Qed.

Lemma built_dict (fs : list field) :
  NoDup (foldl (fun d f => setitem (name f) (field_info_of f) d) [] fs).*1
  /\ forall k v,
       (k, v) ∈ foldl (fun d f => setitem (name f) (field_info_of f) d) [] fs
       <-> exists f, last_named k fs = Some f /\ v = field_info_of f.
Proof.
  unfold last_named.
  induction fs as [|f fs [IHd IHm]] using rev_ind.
  - simpl. split; [apply NoDup_nil_2|].
    intros k v. rewrite elem_of_nil. split; [done|]. intros (f & [=] & _).
  - rewrite foldl_app. simpl. split; [by apply setitem_NoDup|].
    intros k v. rewrite setitem_elem_of by exact IHd.
    rewrite filter_app, filter_cons, filter_nil.
    destruct (decide (name f = k)) as [Hk|Hk].
    + rewrite last_snoc. split.
      * intros [[-> ->]|[Hn _]]; [eauto | congruence].
      * intros (f' & [= <-] & ->). left. by split.
    + rewrite app_nil_r, IHm. split.
      * intros [[-> _]|[_ H]]; [congruence | exact H].
      * intros H. right. split; [congruence | exact H].
Qed.

(** X8.  [categorize] keeps one entry per field name in each of its
    two dicts, and the entry holds the information of the last field
    with that name: a later field with the same name replaces the
    earlier one.  A field whose name contains both markers goes to the
    [Section16_1] dict only. *)
Theorem categorize_keeps_last_field (fields : list field) :
  NoDup (categorize fields).1.*1
  /\ NoDup (categorize fields).2.*1
  /\ (forall k v,
        (k, v) ∈ (categorize fields).1
        <-> exists f,
              last_named k
                (List.filter (fun f => contains "Section16_1" (name f)) fields)
              = Some f
              /\ v = field_info_of f)
  /\ (forall k v,
        (k, v) ∈ (categorize fields).2
        <-> exists f,
              last_named k
                (List.filter
                   (fun f => negb (contains "Section16_1" (name f))
                             && contains "Section16_3" (name f)) fields)
              = Some f
              /\ v = field_info_of f).
Proof.
  rewrite categorize_spec. simpl.
  split; [apply built_dict|]. split; [apply built_dict|].
  split; apply built_dict.
Qed.

Lemma group_16_3_total (xs : list (string * field_info)) :
  (length (filter (fun e => group_16_3 e.1 e.2 = "person1") xs)
   + length (filter (fun e => group_16_3 e.1 e.2 = "person2") xs)
   + length (filter (fun e => group_16_3 e.1 e.2 = "person3") xs)
   + length (filter (fun e => group_16_3 e.1 e.2 = "shared") xs)
   = length xs)%nat.
Proof.
  induction xs as [|[n fi] xs IH]; [reflexivity|].
  rewrite !filter_cons. cbn [fst snd].
  assert (Hg : group_16_3 n fi = "person1" \/ group_16_3 n fi = "person2"
               \/ group_16_3 n fi = "person3" \/ group_16_3 n fi = "shared").
  { unfold group_16_3.
    repeat match goal with
           | |- context [if ?b || ?c then _ else _] => destruct (b || c)
           end; auto. }
  destruct Hg as [ -> | [ -> | [ -> | -> ] ] ];
    repeat case_decide; try congruence; cbn [length]; lia.
Qed.

Lemma group_16_1_total (xs : list (string * field_info)) :
  (length (filter (fun e => group_16_1 e.1 e.2 = "organization") xs)
   + length (filter (fun e => group_16_1 e.1 e.2 = "service_details") xs)
   + length (filter (fun e => group_16_1 e.1 e.2 = "contact1") xs)
   + length (filter (fun e => group_16_1 e.1 e.2 = "contact2") xs)
   + length (filter (fun e => group_16_1 e.1 e.2 = "dates") xs)
   + length (filter (fun e => group_16_1 e.1 e.2 = "other") xs)
   = length xs)%nat.
Proof.
  induction xs as [|[n fi] xs IH]; [reflexivity|].
  rewrite !filter_cons. cbn [fst snd].
  assert (Hg : group_16_1 n fi = "organization"
               \/ group_16_1 n fi = "service_details"
               \/ group_16_1 n fi = "contact1"
               \/ group_16_1 n fi = "contact2"
               \/ group_16_1 n fi = "dates"
               \/ group_16_1 n fi = "other").
  { unfold group_16_1.
    repeat match goal with
           | |- context [if ?b then _ else _] => destruct b
           end; auto 7. }
  destruct Hg as [ -> | [ -> | [ -> | [ -> | [ -> | -> ] ] ] ] ];
    repeat case_decide; try congruence; cbn [length]; lia.
Qed.

(** X9.  The groups of [analyze_section16_3_fields] and of
    [analyze_section16_1_fields] partition the fields they are given:
    every field is filed under exactly one of the four, respectively
    six, keys, so the group sizes add up to the number of fields. *)
Theorem groups_partition_the_fields (fields : list (string * field_info)) :
  len (get_list (analyze_section16_3_fields fields) "person1")
  + len (get_list (analyze_section16_3_fields fields) "person2")
  + len (get_list (analyze_section16_3_fields fields) "person3")
  + len (get_list (analyze_section16_3_fields fields) "shared")
  = len fields
  /\ len (get_list (analyze_section16_1_fields fields) "organization")
     + len (get_list (analyze_section16_1_fields fields) "service_details")
     + len (get_list (analyze_section16_1_fields fields) "contact1")
     + len (get_list (analyze_section16_1_fields fields) "contact2")
     + len (get_list (analyze_section16_1_fields fields) "dates")
     + len (get_list (analyze_section16_1_fields fields) "other")
     = len fields.
Proof.
  rewrite !analyze_section16_3_fields_spec, !analyze_section16_1_fields_spec.
  unfold len.
  pose proof (group_16_3_total fields). pose proof (group_16_1_total fields).
  lia.
Qed.

End InterfaceDicts.

(** ** The field analysis and its coverage *)

Section FieldAnalysis.
Import VerifySection13.

Lemma analyze_loop_spec (fs : list pdf_field) (fa : field_analysis) (i : Z) :
  total_fields (analyze_loop fa i fs) = total_fields fa
  /\ (forall t,
        get_list (by_type (analyze_loop fa i fs)) t
        = get_list (by_type fa) t
          ++ ((fun p => entry_of p.1 p.2)
                <$> filter (fun p => type_of p.2 = t) (indexed i fs)))
  /\ (forall s,
        s ∈ string_values (analyze_loop fa i fs)
        <-> s ∈ string_values fa \/ exists f, f ∈ fs /\ pdf_value f = VStr s)
  /\ (forall n,
        n ∈ field_names (analyze_loop fa i fs)
        <-> n ∈ field_names fa
            \/ exists p, p ∈ indexed i fs /\ n = name_of p.1 p.2).
Proof.
  revert fa i; induction fs as [|f fs IH]; intros fa i.
  - simpl. split; [reflexivity|]. split; [intros t; by rewrite app_nil_r|].
    split; [intros s|intros n]; split; auto.
    + intros [H|(f & []%elem_of_nil & _)]. exact H.
    + intros [H|(p & []%elem_of_nil & _)]. exact H.
  - simpl analyze_loop. simpl indexed.
    destruct (IH (analyze_step fa i f) (i + 1)) as (Ht & Hby & Hs & Hn).
    split; [exact Ht|]. split; [|split].
    + intros t. rewrite Hby.
      change (by_type (analyze_step fa i f))
        with (append_to (type_of f) (entry_of i f) (by_type fa)).
      rewrite get_list_append_to.
      rewrite filter_cons. cbn [snd fst].
      destruct (decide (type_of f = t)) as [E|Hne].
      * rewrite fmap_cons, <- app_assoc. reflexivity.
      * reflexivity.
    + intros s. rewrite Hs.
      change (string_values (analyze_step fa i f))
        with (match pdf_value f with
              | VStr s => {[s]} ∪ string_values fa
              | _ => string_values fa
              end).
      split.
      * intros [H|(g & Hg & Hv)].
        -- destruct (pdf_value f) eqn:E; try (by left).
           apply elem_of_union in H as [->%elem_of_singleton|H]; [|by left].
           right. exists f. split; [by left | exact E].
        -- right. exists g. split; [by right | exact Hv].
      * intros [H|(g & [->|Hg]%elem_of_cons & Hv)].
        -- left. destruct (pdf_value f); try exact H.
           apply elem_of_union. by right.
        -- left. rewrite Hv. apply elem_of_union. left.
           by apply elem_of_singleton.
        -- right. eauto.
    + intros n. rewrite Hn.
      change (field_names (analyze_step fa i f))
        with ({[name_of i f]} ∪ field_names fa).
      split.
      * intros [[->%elem_of_singleton|H]%elem_of_union|(p & Hp & ->)].
        -- right. exists (i, f). split; [by left | reflexivity].
        -- by left.
        -- right. exists p. split; [by right | reflexivity].
      * intros [H|(p & [->|Hp]%elem_of_cons & ->)].
        -- left. apply elem_of_union. by right.
        -- left. apply elem_of_union. left. by apply elem_of_singleton.
        -- right. eauto.
Qed.

Lemma analyze_all_fields_spec (fields_array : list pdf_field) :
  total_fields (analyze_all_fields fields_array) = len fields_array
  /\ (forall t,
        get_list (by_type (analyze_all_fields fields_array)) t
        = (fun p => entry_of p.1 p.2)
            <$> filter (fun p => type_of p.2 = t) (indexed 0 fields_array))
  /\ (forall s,
        s ∈ string_values (analyze_all_fields fields_array)
        <-> exists f, f ∈ fields_array /\ pdf_value f = VStr s)
  /\ (forall n,
        n ∈ field_names (analyze_all_fields fields_array)
        <-> exists p, p ∈ indexed 0 fields_array /\ n = name_of p.1 p.2).
Proof.
  unfold analyze_all_fields.
  match goal with
  | |- context [analyze_loop ?fa 0 fields_array] =>
      destruct (analyze_loop_spec fields_array fa 0) as (Ht & Hby & Hs & Hn)
  end.
  split; [exact Ht|]. split; [|split].
  - intros t. rewrite Hby. reflexivity.
  - intros s. rewrite Hs. simpl. split; [|by right].
    intros [[]%elem_of_empty|H]. exact H.
  - intros n. rewrite Hn. simpl. split; [|by right].
    intros [[]%elem_of_empty|H]. exact H.
Qed.

(** X10.  [analyze_all_fields] files every field exactly once under
    its type, falling back to "unknown", with its position as index and
    in the order of the dump; [string_values] is the set of the string
    values of the fields, [field_names] the set of their names, a field
    without a name being called [field_<position>], and [total_fields]
    is the length of the dump. *)
Theorem analyze_all_fields_invariants (fields_array : list pdf_field) :
  total_fields (analyze_all_fields fields_array) = len fields_array
  /\ (forall t,
        get_list (by_type (analyze_all_fields fields_array)) t
        = (fun p => entry_of p.1 p.2)
            <$> filter (fun p => type_of p.2 = t) (indexed 0 fields_array))
  /\ (forall s,
        s ∈ string_values (analyze_all_fields fields_array)
        <-> exists f, f ∈ fields_array /\ pdf_value f = VStr s)
  /\ (forall n,
        n ∈ field_names (analyze_all_fields fields_array)
        <-> exists p, p ∈ indexed 0 fields_array /\ n = name_of p.1 p.2).
Proof. apply analyze_all_fields_spec. Qed.

End FieldAnalysis.

Section CoverageBounds.
Import VerifySection13.

Lemma percent_within (k a b : Z) :
  0 <= a <= k * b -> 0 < b ->
  (0 <= inject_Z a / inject_Z b * 100 <= inject_Z (100 * k))%Q.
Proof.
  intros Ha Hb. destruct b as [|pb|pb]; try lia.
  unfold Qle, Qdiv, Qmult, Qinv, inject_Z. simpl. split; nia.
Qed.

Lemma percent_range (k : Z) (guard : bool) (a b : Z) :
  (guard = true -> 0 < b /\ 0 <= a <= k * b) -> 0 <= k ->
  exists q,
    percent guard a b = Val q /\ (0 <= q <= inject_Z (100 * k))%Q.
Proof.
  intros Hg Hk. unfold percent, truediv. destruct guard.
  - destruct (Hg eq_refl) as [Hb Ha].
    destruct (Z.eqb_spec b 0) as [E|_]; [lia|].
    simpl. eexists. split; [reflexivity|].
    apply percent_within; assumption.
  - exists 0%Q. split; [reflexivity|].
    unfold Qle, inject_Z. simpl. lia.
Qed.

Lemma size_list_to_set_le (l : list string) :
  (size (list_to_set (C := gset string) l) <= length l)%nat.
Proof.
  induction l as [|x l IH].
  - rewrite list_to_set_nil, size_empty. simpl. lia.
  - rewrite list_to_set_cons. simpl length.
    rewrite size_union_alt.
    rewrite size_singleton.
    assert (size (list_to_set (C := gset string) l ∖ {[x]})
            <= size (list_to_set (C := gset string) l))%nat
      by (apply subseteq_size; intros y [Hy _]%elem_of_difference; exact Hy).
    lia.
Qed.

Lemma nonempty_positive {A : Type} (xs : list A) :
  nonempty xs = true -> 0 < len xs.
Proof. destruct xs; [discriminate|]. unfold len. simpl. lia. Qed.

Lemma widget_coverage_range (fa : field_analysis) (kind : string)
    (mapped : gset string) :
  exists q,
    widget_coverage fa kind mapped
    = Val (q, set_of (name <$> get_list (by_type fa) kind) ∩ mapped,
           elements (set_of (name <$> get_list (by_type fa) kind) ∖ mapped))
    /\ (0 <= q <= 100)%Q
    /\ 0 <= set_len (set_of (name <$> get_list (by_type fa) kind) ∩ mapped)
       <= len (get_list (by_type fa) kind).
Proof.
  unfold widget_coverage.
  assert (Hm : 0 <= set_len (set_of (name <$> get_list (by_type fa) kind)
                             ∩ mapped)
               <= len (name <$> get_list (by_type fa) kind)).
  { unfold set_len, set_of, len. split; [lia|].
    apply inj_le. etransitivity; [|apply size_list_to_set_le].
    apply subseteq_size. intros y [Hy _]%elem_of_intersection. exact Hy. }
  destruct (percent_range 1 (nonempty (name <$> get_list (by_type fa) kind))
              (set_len (set_of (name <$> get_list (by_type fa) kind) ∩ mapped))
              (len (name <$> get_list (by_type fa) kind)))
    as (q & -> & Hq).
  - intros Hg. split; [by apply nonempty_positive | lia].
  - lia.
  - simpl. exists q. split; [reflexivity|]. split; [exact Hq|].
    unfold len in *. rewrite length_fmap in Hm. exact Hm.
Qed.

Lemma verify_coverage_spec (fa : field_analysis) (im : interface_mappings) :
  exists r,
    verify_coverage fa im = Val r
    /\ (0 <= string_coverage r <= 100)%Q
    /\ (0 <= checkbox_coverage r <= 100)%Q
    /\ (0 <= radio_coverage r <= 100)%Q
    /\ (0 <= dropdown_coverage r <= 100)%Q
    /\ 0 <= total_mapped r
       <= set_len (string_values fa)
          + len (get_list (by_type fa) "PDFCheckBox")
          + len (get_list (by_type fa) "PDFRadioGroup")
          + len (get_list (by_type fa) "PDFDropdown")
    /\ percent (negb (total_fields fa =? 0)) (total_mapped r) (total_fields fa)
       = Val (total_coverage r).
Proof.
  unfold verify_coverage.
  assert (Hs : 0 <= set_len (string_values fa ∩ im_string_values im)
               <= set_len (string_values fa)).
  { unfold set_len. split; [lia|]. apply inj_le, subseteq_size.
    intros y [Hy _]%elem_of_intersection. exact Hy. }
  destruct (percent_range 1 (nonempty (elements (string_values fa)))
              (set_len (string_values fa ∩ im_string_values im))
              (set_len (string_values fa)))
    as (qs & -> & Hqs).
  { intros Hg. split; [|lia].
    apply (nonempty_positive (elements (string_values fa)) Hg). }
  { lia. }
  destruct (widget_coverage_range fa "PDFCheckBox" (checkbox_fields im))
    as (qc & -> & Hqc & Hc).
  destruct (widget_coverage_range fa "PDFRadioGroup" (radio_fields im))
    as (qr & -> & Hqr & Hr).
  destruct (widget_coverage_range fa "PDFDropdown" (dropdown_fields im))
    as (qd & -> & Hqd & Hd).
  cbn [bind].
  match goal with
  | |- context [percent ?g ?a ?b] =>
      destruct (percent_val g a b) as (qt & Hqt & _)
  end.
  { intros Hg. apply negb_true_iff, Z.eqb_neq in Hg. exact Hg. }
  rewrite Hqt. cbn [bind]. eexists. split; [reflexivity|].
  cbn [string_coverage checkbox_coverage radio_coverage dropdown_coverage
       total_coverage total_mapped].
  split; [exact Hqs|]. split; [exact Hqc|]. split; [exact Hqr|].
  split; [exact Hqd|]. split; [lia | exact Hqt].
Qed.

Lemma length_indexed (fs : list pdf_field) (i : Z) :
  length (indexed i fs) = length fs.
Proof.
  revert i; induction fs as [|f fs IH]; intros i; simpl; [|rewrite IH];
    reflexivity.
Qed.

Lemma length_three_filters {A : Type} (key : A -> string) (a b c : string)
    (l : list A) :
  a <> b -> a <> c -> b <> c ->
  (length (filter (fun x => key x = a) l)
   + length (filter (fun x => key x = b) l)
   + length (filter (fun x => key x = c) l) <= length l)%nat.
Proof.
  intros Hab Hac Hbc. induction l as [|x l IH]; [reflexivity|].
  rewrite !filter_cons.
  destruct (decide (key x = a)) as [Ea|Na];
    destruct (decide (key x = b)) as [Eb|Nb];
    destruct (decide (key x = c)) as [Ec|Nc];
    try congruence; simpl; lia.
Qed.

Lemma size_string_values (fields_array : list pdf_field) :
  set_len (string_values (analyze_all_fields fields_array))
  <= len fields_array.
Proof.
  set (text := fun f => match pdf_value f with
                        | VStr s => Some s
                        | _ => None
                        end).
  assert (Hsub : string_values (analyze_all_fields fields_array)
                 ⊆ list_to_set (omap text fields_array)).
  { intros s Hs.
    apply (proj1 (proj2 (proj2 (analyze_all_fields_spec fields_array)))) in Hs.
    destruct Hs as (f & Hf & Hv).
    apply elem_of_list_to_set, list_elem_of_omap. exists f.
    split; [exact Hf|]. unfold text. rewrite Hv. reflexivity. }
  unfold set_len, len. apply inj_le.
  etransitivity; [apply subseteq_size, Hsub|].
  etransitivity; [apply size_list_to_set_le|].
  clear Hsub. induction fields_array as [|f fs IH]; [reflexivity|].
  cbn [omap list_omap]. fold (omap text fs).
  destruct (text f); simpl; lia.
Qed.

(** X11.  Each of the four coverage figures [verify_coverage] computes
    for its categories lies between 0 and 100, whatever the analysis
    and the mappings are, and the number of mapped fields it reports is
    at most the number of string values plus the numbers of check
    boxes, radio groups and dropdowns of the analysis. *)
Theorem category_coverage_is_a_percentage (fa : field_analysis)
    (im : interface_mappings) :
  exists r,
    verify_coverage fa im = Val r
    /\ (0 <= string_coverage r <= 100)%Q
    /\ (0 <= checkbox_coverage r <= 100)%Q
    /\ (0 <= radio_coverage r <= 100)%Q
    /\ (0 <= dropdown_coverage r <= 100)%Q
    /\ 0 <= total_mapped r
       <= set_len (string_values fa)
          + len (get_list (by_type fa) "PDFCheckBox")
          + len (get_list (by_type fa) "PDFRadioGroup")
          + len (get_list (by_type fa) "PDFDropdown").
Proof.
  destruct (verify_coverage_spec fa im) as (r & Hr & Hs & Hc & Hg & Hd & Hm & _).
  exists r. repeat (split; [assumption|]). exact Hm.
Qed.

Lemma total_coverage_bounds (fields_array : list pdf_field)
    (im : interface_mappings) :
  exists r,
    verify_coverage (analyze_all_fields fields_array) im = Val r
    /\ 0 <= total_mapped r <= 2 * len fields_array
    /\ (0 <= total_coverage r <= 200)%Q.
Proof.
  destruct (verify_coverage_spec (analyze_all_fields fields_array) im)
    as (r & Hr & _ & _ & _ & _ & Hm & Ht).
  destruct (analyze_all_fields_spec fields_array) as (Htotal & Hby & _ & _).
  pose proof (size_string_values fields_array) as Hs.
  pose proof (length_three_filters
                (fun p : Z * pdf_field => type_of p.2)
                "PDFCheckBox" "PDFRadioGroup" "PDFDropdown"
                (indexed 0 fields_array)) as H3.
  rewrite length_indexed in H3.
  rewrite !Hby in Hm. unfold len in Hm, Hs |- *.
  rewrite !length_fmap in Hm.
  assert (Hle : 0 <= total_mapped r <= 2 * Z.of_nat (length fields_array)).
  { specialize (H3 ltac:(discriminate) ltac:(discriminate)
                   ltac:(discriminate)). lia. }
  exists r. split; [exact Hr|]. split; [exact Hle|].
  rewrite Htotal in Ht.
  destruct (percent_range 2 (negb (len fields_array =? 0)) (total_mapped r)
              (len fields_array)) as (q & Hq & Hrange).
  { intros Hg. apply negb_true_iff, Z.eqb_neq in Hg. unfold len in *. lia. }
  { lia. }
  rewrite Ht in Hq. injection Hq as <-. exact Hrange.
Qed.


Lemma verify_coverage_total (fa : field_analysis) (im : interface_mappings) :
  exists r,
    verify_coverage fa im = Val r
    /\ total_mapped r
       = set_len (string_values fa ∩ im_string_values im)
         + set_len (set_of (name <$> get_list (by_type fa) "PDFCheckBox")
                    ∩ checkbox_fields im)
         + set_len (set_of (name <$> get_list (by_type fa) "PDFRadioGroup")
                    ∩ radio_fields im)
         + set_len (set_of (name <$> get_list (by_type fa) "PDFDropdown")
                    ∩ dropdown_fields im)
    /\ percent (negb (total_fields fa =? 0)) (total_mapped r) (total_fields fa)
       = Val (total_coverage r).
Proof.
  unfold verify_coverage.
  destruct (percent_val (nonempty (elements (string_values fa)))
              (set_len (string_values fa ∩ im_string_values im))
              (set_len (string_values fa)) (nonempty_elements _))
    as (qs & -> & _).
  destruct (widget_coverage_val fa "PDFCheckBox" (checkbox_fields im))
    as (qc & -> & _).
  destruct (widget_coverage_val fa "PDFRadioGroup" (radio_fields im))
    as (qr & -> & _).
  destruct (widget_coverage_val fa "PDFDropdown" (dropdown_fields im))
    as (qd & -> & _).
  cbn [bind].
  match goal with
  | |- context [percent ?g ?a ?b] =>
      destruct (percent_val g a b) as (qt & Hqt & _)
  end.
  { intros Hg. apply negb_true_iff, Z.eqb_neq in Hg. exact Hg. }
  rewrite Hqt. cbn [bind]. eexists. split; [reflexivity|].
  cbn [total_coverage total_mapped]. split; [reflexivity | exact Hqt].
Qed.

Lemma size_singleton_within (x : string) (S : gset string) :
  x ∈ S -> set_len (({[x]} ∪ ∅) ∩ S) = 1.
Proof.
  intros Hx.
  assert (E : ({[x]} ∪ ∅) ∩ S = {[x]}).
  { apply set_eq. intros y.
    rewrite elem_of_intersection, elem_of_union, elem_of_singleton.
    split.
    - intros [[->|[]%elem_of_empty] _]. reflexivity.
    - intros ->. split; [by left | exact Hx]. }
  unfold set_len. rewrite E, size_singleton. reflexivity.
Qed.

Lemma one_field_counts_twice (f : pdf_field) (n v : string)
    (im : interface_mappings) :
  pdf_type f = Some "PDFCheckBox" ->
  pdf_name f = Some n ->
  pdf_value f = VStr v ->
  v ∈ im_string_values im ->
  n ∈ checkbox_fields im ->
  exists r,
    verify_coverage (analyze_all_fields [f]) im = Val r
    /\ total_mapped r = 2
    /\ (total_coverage r == 200)%Q.
Proof.
  intros Htype Hname Hvalue Hv Hn.
  destruct (verify_coverage_total (analyze_all_fields [f]) im)
    as (r & Hr & Hm & Ht).
  exists r. split; [exact Hr|].
  assert (Hstrings : string_values (analyze_all_fields [f]) = {[v]} ∪ ∅).
  { unfold analyze_all_fields. cbn [analyze_loop analyze_step string_values].
    rewrite Hvalue. reflexivity. }
  assert (Hby : forall kind,
    name <$> get_list (by_type (analyze_all_fields [f])) kind
    = if decide ("PDFCheckBox" = kind) then [n] else []).
  { intros kind. unfold analyze_all_fields.
    cbn [analyze_loop analyze_step by_type].
    rewrite Htype, Hname. rewrite get_list_append_to.
    unfold get_list. rewrite lookup_empty.
    change (default "unknown" (Some "PDFCheckBox")) with "PDFCheckBox".
    destruct (decide ("PDFCheckBox" = kind)); reflexivity. }
  assert (Hmapped : total_mapped r = 2).
  { rewrite Hm, Hstrings, !Hby.
    rewrite decide_True by reflexivity.
    rewrite !decide_False by discriminate.
    unfold set_of. cbn [list_to_set foldr].
    rewrite !size_singleton_within by assumption.
    change (set_len (∅ ∩ radio_fields im))
      with (Z.of_nat (size (∅ ∩ radio_fields im))).
    change (set_len (∅ ∩ dropdown_fields im))
      with (Z.of_nat (size (∅ ∩ dropdown_fields im))).
    rewrite !(left_absorb_L ∅ (∩)), size_empty. reflexivity. }
  split; [exact Hmapped|].
  rewrite Hmapped in Ht.
  change (total_fields (analyze_all_fields [f])) with 1 in Ht.
  injection Ht as <-. reflexivity.
Qed.

(** X12.  On the analysis of a dump the total is counted against the
    number of fields although a field can be matched twice, by its
    string value and by its name: the number of mapped fields is at
    most twice the number of fields, and the total coverage lies
    between 0 and 200, not between 0 and 100.  The bound is reached: a
    dump of one check box whose string value and whose name are both
    mapped counts 2 mapped fields and has a total coverage of 200. *)
Theorem total_coverage_counts_twice (fields_array : list pdf_field)
    (im : interface_mappings) :
  (exists r,
     verify_coverage (analyze_all_fields fields_array) im = Val r
     /\ 0 <= total_mapped r <= 2 * len fields_array
     /\ (0 <= total_coverage r <= 200)%Q)
  /\ (forall f n v,
        pdf_type f = Some "PDFCheckBox" ->
        pdf_name f = Some n ->
        pdf_value f = VStr v ->
        v ∈ im_string_values im ->
        n ∈ checkbox_fields im ->
        exists r,
          verify_coverage (analyze_all_fields [f]) im = Val r
          /\ total_mapped r = 2
          /\ (total_coverage r == 200)%Q).
Proof.
  split; [apply total_coverage_bounds|].
  intros f n v. apply one_field_counts_twice.
Qed.

Lemma total_coverage_counts_twice_witness :
  exists r,
    verify_coverage
      (analyze_all_fields
         [ {| pdf_type := Some "PDFCheckBox";
              pdf_name := Some "form1[0].section_13_1-2[0].#field[5]";
              pdf_value := VStr "YES"; pdf_id := Some "1 0 R";
              pdf_unique_id := Some "u1" |} ])
      {| im_string_values := {["YES"]}; im_field_names := ∅;
         checkbox_fields := {["form1[0].section_13_1-2[0].#field[5]"]};
         radio_fields := ∅; dropdown_fields := ∅ |}
    = Val r
    /\ total_mapped r = 2
    /\ (total_coverage r == 200)%Q.
Proof.
  apply (proj2 (total_coverage_counts_twice []
                  {| im_string_values := {["YES"]}; im_field_names := ∅;
                     checkbox_fields :=
                       {["form1[0].section_13_1-2[0].#field[5]"]};
                     radio_fields := ∅; dropdown_fields := ∅ |})
           {| pdf_type := Some "PDFCheckBox";
              pdf_name := Some "form1[0].section_13_1-2[0].#field[5]";
              pdf_value := VStr "YES"; pdf_id := Some "1 0 R";
              pdf_unique_id := Some "u1" |}
           "form1[0].section_13_1-2[0].#field[5]" "YES"
           eq_refl eq_refl eq_refl).
  - cbn [im_string_values]. apply elem_of_singleton. reflexivity.
  - cbn [checkbox_fields]. apply elem_of_singleton. reflexivity.
Defined.

End CoverageBounds.

(** ** Reading the interface file *)

Section InterfaceFile.
Import VerifySection13 ExtractInterfaceMappings.

Lemma findall_quoted_go_quotable (s : string) (inside : option string) :
  (forall field, inside = Some field -> all_chars not_quote field = true) ->
  Forall quotable (findall_quoted_go inside s).
Proof.
  revert inside; induction s as [|c s IH]; intros inside Hin; [constructor|].
  cbn [findall_quoted_go].
  destruct (Ascii.eqb c "'"%char) eqn:Ec.
  - destruct inside as [[|a field]|].
    + apply IH. intros ? [= <-]. reflexivity.
    + constructor.
      * split; [discriminate | by apply Hin].
      * apply IH. discriminate.
    + apply IH. intros ? [= <-]. reflexivity.
  - destruct inside as [field|].
    + apply IH. intros ? [= <-]. rewrite all_chars_app, (Hin field eq_refl).
      simpl. unfold not_quote. rewrite Ec. reflexivity.
    + apply IH. discriminate.
Qed.

Lemma quoted_in_block_quotable (marker closing content : string) :
  Forall quotable (quoted_in_block marker closing content).
Proof.
  unfold quoted_in_block, findall_quoted.
  destruct (search_text _ content); [|constructor].
  apply findall_quoted_go_quotable. discriminate.
Qed.

Lemma elem_of_form_fields (x : string) (xs : list string) :
  x ∈ form_fields xs <-> x ∈ xs /\ contains "form1[0]" x = true.
Proof.
  unfold form_fields. rewrite elem_of_list_to_set.
  rewrite !list_elem_of_In, List.filter_In. reflexivity.
Qed.

(** X13.  Whatever the interface file contains, every string value
    [extract_interface_mappings] extracts is non-empty and free of
    quotes, every check box, radio and dropdown name it extracts is
    such a text that moreover contains [form1[0]], and its
    [field_names] stay empty. *)
Theorem extracted_texts_are_quotable (interface_content : string) :
  let im := extract_interface_mappings interface_content in
  (forall x, x ∈ im_string_values im -> quotable x)
  /\ (forall x,
        x ∈ checkbox_fields im ∪ radio_fields im ∪ dropdown_fields im ->
        quotable x /\ contains "form1[0]" x = true)
  /\ im_field_names im = ∅.
Proof.
  cbn zeta. unfold extract_interface_mappings. cbn [im_string_values
    checkbox_fields radio_fields dropdown_fields im_field_names].
  split; [|split; [|reflexivity]].
  - intros x Hx%elem_of_list_to_set.
    exact (proj1 (Forall_forall _ _) (quoted_in_block_quotable _ _ _) x Hx).
  - intros x [[Hx|Hx]%elem_of_union|Hx]%elem_of_union;
      apply elem_of_form_fields in Hx as [Hx Hform];
      (split; [|exact Hform]);
      exact (proj1 (Forall_forall _ _) (quoted_in_block_quotable _ _ _) x Hx).
Qed.

Lemma search_text_no_marker (marker closing content : string) :
  contains marker content = false ->
  search_text (pat_block marker closing) content = None.
Proof.
  unfold pat_block.
  induction content as [|c s IH]; cbn [search_text contains]; unfold lit at 1;
    unfold startswith.
  - destruct (strip marker EmptyString); [discriminate | reflexivity].
  - destruct (strip marker (String c s)); [discriminate|]. simpl. exact IH.
Qed.

Lemma quoted_in_block_no_marker (marker closing content : string) :
  contains marker content = false ->
  quoted_in_block marker closing content = [].
Proof.
  intros H. unfold quoted_in_block.
  rewrite (search_text_no_marker _ _ _ H). reflexivity.
Qed.

Lemma percent_zero (guard : bool) (b : Z) :
  (guard = true -> b <> 0) ->
  exists q, percent guard 0 b = Val q /\ (q == 0)%Q.
Proof.
  intros Hg. unfold percent, truediv. destruct guard.
  - destruct (Z.eqb_spec b 0) as [E|_]; [by destruct (Hg eq_refl)|].
    simpl. eexists. split; [reflexivity|].
    unfold Qeq, Qdiv, Qmult, inject_Z. simpl. reflexivity.
  - exists 0%Q. split; reflexivity.
Qed.

(** X14.  An interface file that contains none of the four block
    names gives empty mappings, and [verify_coverage] then reports
    nothing as mapped: every coverage is 0 and every string value and
    widget name of the analysis is listed as missing. *)
Theorem no_blocks_no_coverage (fa : field_analysis) (interface_content : string) :
  contains "SECTION13_FIELD_MAPPINGS" interface_content = false ->
  contains "CHECKBOX_FIELDS:" interface_content = false ->
  contains "RADIO_BUTTON_GROUPS:" interface_content = false ->
  contains "DROPDOWN_FIELDS:" interface_content = false ->
  extract_interface_mappings interface_content
  = {| im_string_values := ∅; im_field_names := ∅; checkbox_fields := ∅;
       radio_fields := ∅; dropdown_fields := ∅ |}
  /\ exists r,
       verify_coverage fa (extract_interface_mappings interface_content) = Val r
       /\ total_mapped r = 0
       /\ (string_coverage r == 0)%Q /\ (checkbox_coverage r == 0)%Q
       /\ (radio_coverage r == 0)%Q /\ (dropdown_coverage r == 0)%Q
       /\ (total_coverage r == 0)%Q
       /\ missing_fields r !! "strings" = Some (elements (string_values fa))
       /\ missing_fields r !! "checkboxes"
          = Some (elements
                    (set_of (name <$> get_list (by_type fa) "PDFCheckBox")))
       /\ missing_fields r !! "radios"
          = Some (elements
                    (set_of (name <$> get_list (by_type fa) "PDFRadioGroup")))
       /\ missing_fields r !! "dropdowns"
          = Some (elements
                    (set_of (name <$> get_list (by_type fa) "PDFDropdown"))).
Proof.
  intros Hs Hc Hr Hd.
  assert (E : extract_interface_mappings interface_content
    = {| im_string_values := ∅; im_field_names := ∅; checkbox_fields := ∅;
         radio_fields := ∅; dropdown_fields := ∅ |}).
  { unfold extract_interface_mappings.
    rewrite !quoted_in_block_no_marker by assumption. reflexivity. }
  split; [exact E|]. rewrite E.
  unfold verify_coverage, widget_coverage.
  cbn [im_string_values checkbox_fields radio_fields dropdown_fields].
  assert (Hcap : forall X : gset string, X ∩ ∅ = ∅)
    by (intros X; apply leibniz_equiv, intersection_empty_r).
  assert (Hdiff : forall X : gset string, X ∖ ∅ = X)
    by (intros X; apply leibniz_equiv, difference_empty).
  rewrite !Hcap, !Hdiff.
  change (set_len ∅) with 0.
  destruct (percent_zero (nonempty (elements (string_values fa)))
              (set_len (string_values fa)) (nonempty_elements _))
    as (qs & -> & Hqs).
  destruct (percent_zero
              (nonempty (name <$> get_list (by_type fa) "PDFCheckBox"))
              (len (name <$> get_list (by_type fa) "PDFCheckBox"))
              (nonempty_len _)) as (qc & -> & Hqc).
  destruct (percent_zero
              (nonempty (name <$> get_list (by_type fa) "PDFRadioGroup"))
              (len (name <$> get_list (by_type fa) "PDFRadioGroup"))
              (nonempty_len _)) as (qr & -> & Hqr).
  destruct (percent_zero
              (nonempty (name <$> get_list (by_type fa) "PDFDropdown"))
              (len (name <$> get_list (by_type fa) "PDFDropdown"))
              (nonempty_len _)) as (qd & -> & Hqd).
  cbn [bind]. change (0 + set_len ∅ + set_len ∅ + set_len ∅) with 0.
  destruct (percent_zero (negb (total_fields fa =? 0)) (total_fields fa))
    as (qt & -> & Hqt).
  { intros Hg. apply negb_true_iff, Z.eqb_neq in Hg. exact Hg. }
  cbn [bind]. eexists. split; [reflexivity|].
  cbn [total_mapped string_coverage checkbox_coverage radio_coverage
       dropdown_coverage total_coverage missing_fields].
  repeat (split; [first [reflexivity | assumption]|]).
  reflexivity.
Qed.

Lemma no_blocks_no_coverage_witness :
  exists r,
    verify_coverage
      (analyze_all_fields
         [ {| pdf_type := Some "PDFCheckBox";
              pdf_name := Some "form1[0].section_13_1-2[0].#field[5]";
              pdf_value := VStr "YES"; pdf_id := Some "1 0 R";
              pdf_unique_id := Some "u1" |} ])
      (extract_interface_mappings "export const NOTHING = {};") = Val r
    /\ total_mapped r = 0.
Proof.
  destruct (no_blocks_no_coverage
              (analyze_all_fields
                 [ {| pdf_type := Some "PDFCheckBox";
                      pdf_name := Some "form1[0].section_13_1-2[0].#field[5]";
                      pdf_value := VStr "YES"; pdf_id := Some "1 0 R";
                      pdf_unique_id := Some "u1" |} ])
              "export const NOTHING = {};"
              eq_refl eq_refl eq_refl eq_refl)
    as (_ & r & Hr & Hm & _).
  exists r. split; [exact Hr | exact Hm].
Defined.

End InterfaceFile.

Section InterfaceBlocks.
Import VerifySection13 ExtractInterfaceMappings.

Lemma length_append (a b : string) :
  String.length (a +:+ b) = (String.length a + String.length b)%nat.
Proof. induction a as [|c a IH]; simpl; [|rewrite IH]; reflexivity. Qed.

Lemma take_chars_append (a b : string) (n : nat) :
  take_chars (String.length a + n) (a +:+ b) = a +:+ take_chars n b.
Proof.
  induction a as [|c a IH]; [reflexivity|].
  rewrite !append_cons. simpl. rewrite IH. reflexivity.
Qed.

Lemma take_chars_all (a : string) : take_chars (String.length a) a = a.
Proof. induction a as [|c a IH]; simpl; [|rewrite IH]; reflexivity. Qed.

Lemma take_chars_prefix (a b : string) :
  take_chars (String.length (a +:+ b) - String.length b) (a +:+ b) = a.
Proof.
  rewrite length_append.
  replace (String.length a + String.length b - String.length b)%nat
    with (String.length a + 0)%nat by lia.
  rewrite take_chars_append. destruct b; apply append_empty.
Qed.

Lemma all_chars_weaken (p q : ascii -> bool) (s : string) :
  (forall c, p c = true -> q c = true) ->
  all_chars p s = true -> all_chars q s = true.
Proof.
  intros Hpq. induction s as [|c s IH]; [reflexivity|]. simpl.
  intros [Hc Hs]%andb_true_iff. rewrite (Hpq c Hc), (IH Hs). reflexivity.
Qed.

Lemma plain_not_quote (s : string) : plain s -> all_chars not_quote s = true.
Proof.
  apply all_chars_weaken. unfold plain_char.
  by intros c [H _]%andb_true_iff.
Qed.

Lemma plain_not_brace (s : string) :
  plain s -> all_chars (fun c => negb (Ascii.eqb c "}"%char)) s = true.
Proof.
  apply all_chars_weaken. unfold plain_char.
  by intros c [_ H]%andb_true_iff.
Qed.

(** The lazy [.*?] stops at the first place where the closing text
    starts. *)
Lemma lazy_any_first (c0 : ascii) (closing body tail : string) :
  all_chars (fun c => negb (Ascii.eqb c c0)) body = true ->
  lazy_any (lit (String c0 closing) rest)
    (body +:+ String c0 closing +:+ tail) = Some tail.
Proof.
  induction body as [|b body IH]; intros Hbody.
  - change (EmptyString +:+ String c0 closing +:+ tail)
      with (String c0 (closing +:+ tail)).
    cbn [lazy_any]. unfold lit at 1.
    change (String c0 (closing +:+ tail))
      with (String c0 closing +:+ tail).
    rewrite strip_self. reflexivity.
  - simpl in Hbody. apply andb_true_iff in Hbody as [Hb Hbody].
    rewrite append_cons. cbn [lazy_any]. unfold lit at 1. cbn [strip].
    rewrite Ascii.eqb_sym. apply negb_true_iff in Hb. rewrite Hb.
    apply IH, Hbody.
Qed.

Lemma search_text_block (marker closing content after tail : string) :
  search (lit marker rest) content = Some after ->
  lazy_any (lit closing rest) after = Some tail ->
  search_text (pat_block marker closing) content
  = Some (take_chars
            (String.length (marker +:+ after) - String.length tail)
            (marker +:+ after)).
Proof.
  intros Hsearch Hlazy. unfold pat_block.
  induction content as [|c s IH].
  - cbn [search search_text] in *. unfold lit at 1 in Hsearch.
    unfold lit at 1.
    destruct (strip marker EmptyString) as [r|] eqn:E; [|discriminate].
    unfold rest in Hsearch. injection Hsearch as ->.
    rewrite Hlazy. rewrite <- (strip_inv _ _ _ E). reflexivity.
  - cbn [search search_text] in *. unfold lit at 1 in Hsearch.
    unfold lit at 1.
    destruct (strip marker (String c s)) as [r|] eqn:E.
    + unfold rest in Hsearch. injection Hsearch as ->.
      rewrite Hlazy. rewrite <- (strip_inv _ _ _ E). reflexivity.
    + apply IH, Hsearch.
Qed.

Lemma findall_quoted_go_skip (s t : string) :
  all_chars not_quote s = true ->
  findall_quoted_go None (s +:+ t) = findall_quoted_go None t.
Proof.
  induction s as [|c s IH]; [reflexivity|]. simpl all_chars.
  intros [Hc Hs]%andb_true_iff. rewrite append_cons. cbn [findall_quoted_go].
  unfold not_quote in Hc. apply negb_true_iff in Hc. rewrite Hc.
  apply IH, Hs.
Qed.

Lemma findall_quoted_go_close (x field t : string) :
  all_chars not_quote x = true ->
  field +:+ x <> EmptyString ->
  findall_quoted_go (Some field) (x +:+ "'" +:+ t)
  = (field +:+ x) :: findall_quoted_go None t.
Proof.
  revert field; induction x as [|c x IH]; intros field Hx Hne.
  - rewrite append_empty in *.
    change (EmptyString +:+ "'" +:+ t) with (String "'"%char t).
    cbn [findall_quoted_go]. rewrite Ascii.eqb_refl.
    destruct field; [congruence | reflexivity].
  - simpl in Hx. apply andb_true_iff in Hx as [Hc Hx].
    rewrite append_cons. cbn [findall_quoted_go].
    unfold not_quote in Hc. apply negb_true_iff in Hc. rewrite Hc.
    rewrite IH.
    + rewrite append_assoc. reflexivity.
    + exact Hx.
    + destruct field; discriminate.
Qed.

Lemma findall_quoted_go_item (x t : string) :
  quotable x ->
  findall_quoted_go None ("'" +:+ x +:+ "'" +:+ t)
  = x :: findall_quoted_go None t.
Proof.
  intros [Hne Hx].
  change ("'" +:+ x +:+ "'" +:+ t) with (String "'"%char (x +:+ "'" +:+ t)).
  cbn [findall_quoted_go]. rewrite Ascii.eqb_refl.
  rewrite findall_quoted_go_close by assumption. reflexivity.
Qed.

Lemma findall_quoted_block (items : list (string * string))
    (last t : string) :
  plain_block items last ->
  findall_quoted_go None (block_body items last +:+ t)
  = items.*2 ++ findall_quoted_go None t.
Proof.
  intros [Hitems Hlast]. induction Hitems as [|[before x] items Hp _ IH].
  - simpl. apply findall_quoted_go_skip, plain_not_quote, Hlast.
  - destruct Hp as (Hbefore & Hx & Hne). cbn [fst snd] in *.
    cbn [block_body]. rewrite !append_assoc.
    rewrite findall_quoted_go_skip by apply plain_not_quote, Hbefore.
    rewrite findall_quoted_go_item
      by (split; [exact Hne | apply plain_not_quote, Hx]).
    rewrite IH. reflexivity.
Qed.

Lemma findall_quoted_go_none (s : string) :
  all_chars not_quote s = true -> findall_quoted_go None s = [].
Proof.
  intros H. rewrite <- (append_empty s).
  rewrite findall_quoted_go_skip by exact H. reflexivity.
Qed.

Lemma quoted_in_block_body (marker c0 closing content : string)
    (items : list (string * string)) (last tail : string) :
  all_chars not_quote marker = true ->
  all_chars not_quote closing = true ->
  strip "}" closing = Some c0 ->
  plain_block items last ->
  search (lit marker rest) content
  = Some (block_body items last +:+ closing +:+ tail) ->
  quoted_in_block marker closing content = items.*2.
Proof.
  intros Hmarker Hclosing Hc0 Hblock Hsearch.
  apply strip_inv in Hc0. subst closing.
  change ("}" +:+ c0) with (String "}"%char c0) in *.
  assert (Hbody : all_chars (fun c => negb (Ascii.eqb c "}"%char))
                    (block_body items last) = true).
  { clear Hsearch. destruct Hblock as [Hitems Hlast].
    induction Hitems as [|[before x] items (Hbefore & Hx & _) _ IH];
      [exact (plain_not_brace _ Hlast)|].
    cbn [block_body fst snd] in *.
    rewrite !all_chars_app, (plain_not_brace _ Hbefore),
      (plain_not_brace _ Hx), IH.
    reflexivity. }
  unfold quoted_in_block.
  rewrite (search_text_block _ _ _ _ tail Hsearch)
    by apply lazy_any_first, Hbody.
  rewrite <- !append_assoc. rewrite take_chars_prefix.
  unfold findall_quoted. rewrite !append_assoc.
  rewrite findall_quoted_go_skip by exact Hmarker.
  rewrite findall_quoted_block by exact Hblock.
  rewrite findall_quoted_go_none by exact Hclosing.
  apply app_nil_r.
Qed.

(** X15.  A block of the interface file is read back as it was
    written.  When the text after the first occurrence of a block name
    consists of quoted texts, separated by text without quotes and
    closing braces, and then the closing of that block, the string
    values are exactly the quoted texts of the mappings block, and the
    check box, radio and dropdown names are the quoted texts of their
    blocks that contain [form1[0]]; whatever follows the closing is
    not read. *)
Theorem blocks_are_read_back (interface_content : string)
    (items : list (string * string)) (last tail : string) :
  plain_block items last ->
  (search (lit "SECTION13_FIELD_MAPPINGS" rest) interface_content
   = Some (block_body items last +:+ "} as const;" +:+ tail) ->
   im_string_values (extract_interface_mappings interface_content)
   = list_to_set items.*2)
  /\ (search (lit "CHECKBOX_FIELDS:" rest) interface_content
      = Some (block_body items last +:+ "}," +:+ tail) ->
      checkbox_fields (extract_interface_mappings interface_content)
      = form_fields items.*2)
  /\ (search (lit "RADIO_BUTTON_GROUPS:" rest) interface_content
      = Some (block_body items last +:+ "}," +:+ tail) ->
      radio_fields (extract_interface_mappings interface_content)
      = form_fields items.*2)
  /\ (search (lit "DROPDOWN_FIELDS:" rest) interface_content
      = Some (block_body items last +:+ "}" +:+ tail) ->
      dropdown_fields (extract_interface_mappings interface_content)
      = form_fields items.*2).
Proof.
  intros Hblock. unfold extract_interface_mappings.
  cbn [im_string_values checkbox_fields radio_fields dropdown_fields].
  repeat split; intros Hsearch;
    erewrite quoted_in_block_body; try reflexivity; try exact Hblock;
    try exact Hsearch; reflexivity.
Qed.

Lemma blocks_are_read_back_witness :
  checkbox_fields
    (extract_interface_mappings
       "const F = { CHECKBOX_FIELDS: { a: 'form1[0].x', b: 'y' }, REST: 'z' };")
  = form_fields ["form1[0].x"; "y"].
Proof.
  apply (proj1 (proj2 (blocks_are_read_back
    "const F = { CHECKBOX_FIELDS: { a: 'form1[0].x', b: 'y' }, REST: 'z' };"
    [(" { a: ", "form1[0].x"); (", b: ", "y")] " " " REST: 'z' };"
    ltac:(split; [repeat constructor; discriminate | reflexivity])))).
  reflexivity.
Defined.

End InterfaceBlocks.

(** ** The counts of [verify_field_pattern] *)

Section PatternCounts.
Import VerifyFieldPattern.

Lemma pat_index_startswith (tag s g : string) :
  pat_index tag s = Some g -> startswith (tag +:+ "[") s = true.
Proof.
  unfold pat_index, lit.
  destruct (strip tag s) as [r|] eqn:Et; [|discriminate].
  destruct (strip "[" r) as [r'|] eqn:Eb; [|discriminate].
  intros _. apply strip_inv in Et, Eb. subst r. subst s.
  rewrite <- append_assoc. apply startswith_self.
Qed.

Lemma pat_index_contains (tag s g : string) :
  search (pat_index tag) s = Some g -> contains (tag +:+ "[") s = true.
Proof.
  induction s as [|c s IH]; cbn [search].
  - destruct (pat_index tag EmptyString) as [a|] eqn:E; [|discriminate].
    intros _. cbn [contains].
    rewrite (pat_index_startswith _ _ _ E). reflexivity.
  - destruct (pat_index tag (String c s)) as [a|] eqn:E.
    + intros _. rewrite contains_cons.
      rewrite (pat_index_startswith _ _ _ E). reflexivity.
    + intros H. rewrite contains_cons, (IH H). apply orb_true_r.
Qed.

Lemma area_of_has_area_tag (f : field) (k : Z) :
  area_of f = Some k -> has "#area[" f = true.
Proof.
  unfold area_of, has.
  destruct (search (pat_index "#area") (name f)) as [g|] eqn:E; [|discriminate].
  intros _. exact (pat_index_contains _ _ _ E).
Qed.

Lemma area_of_is_Some (f : field) :
  is_Some (area_of f) <-> is_Some (search (pat_index "#area") (name f)).
Proof.
  unfold area_of.
  destruct (search (pat_index "#area") (name f)) as [g|] eqn:E.
  - destruct (int_numeral g (pat_index_numeral _ _ _ E)) as (area & -> & _).
    split; eauto.
  - split; intros [? [=]].
Qed.

Lemma filter_within {A : Type} (P : A -> Prop) `{forall x, Decision (P x)}
    (b : A -> bool) (l : list A) :
  (forall x, P x -> b x = true) ->
  filter P (List.filter b l) = filter P l.
Proof.
  intros HP. induction l as [|x l IH]; [reflexivity|].
  cbn [List.filter]. rewrite (filter_cons _ x l).
  destruct (decide (P x)) as [Hx|Hx].
  - rewrite (HP x Hx), filter_cons, decide_True by exact Hx. by rewrite IH.
  - destruct (b x); [rewrite filter_cons, decide_False by exact Hx|]; exact IH.
Qed.

Lemma area_step_cases (counts : gmap Z Z) (f : field) :
  (exists area,
     area_of f = Some area
     /\ area_step counts f
        = Val (<[area := default 0 (counts !! area) + 1]> counts))
  \/ (area_of f = None /\ area_step counts f = Val counts).
Proof.
  unfold area_of, area_step.
  destruct (search (pat_index "#area") (name f)) as [g|] eqn:E.
  - destruct (int_numeral g (pat_index_numeral _ _ _ E)) as (area & -> & _).
    left. exists area. split; reflexivity.
  - right. split; reflexivity.
Qed.

Lemma area_counts_spec (fs : list field) (counts : gmap Z Z) :
  exists counts',
    area_loop counts fs = Val counts'
    /\ (forall k,
          default 0 (counts' !! k)
          = default 0 (counts !! k)
            + len (filter (fun f => area_of f = Some k) fs))
    /\ total_of counts'
       = total_of counts + len (filter (fun f => has_area f = true) fs).
Proof.
  unfold len. revert counts; induction fs as [|f fs IH]; intros counts.
  - exists counts. simpl. split; [reflexivity|]. split; [intros k|]; lia.
  - cbn [area_loop]. rewrite (filter_cons (fun f => has_area f = true)).
    destruct (area_step_cases counts f) as [(area & Ha & ->)|[Ha ->]];
      cbn [bind].
    + destruct (IH (<[area := default 0 (counts !! area) + 1]> counts))
        as (counts' & -> & Hk & Htotal).
      exists counts'. split; [reflexivity|]. split.
      * intros k. rewrite Hk, filter_cons, Ha.
        destruct (decide (area = k)) as [->|Hne].
        -- rewrite lookup_insert_eq, decide_True by reflexivity.
           simpl. lia.
        -- rewrite lookup_insert_ne by exact Hne.
           rewrite decide_False by congruence. reflexivity.
      * assert (Hh : has_area f = true)
          by (unfold has_area; rewrite Ha; apply bool_decide_eq_true_2; eauto).
        rewrite Htotal, total_of_insert.
        rewrite decide_True by exact Hh. simpl length. lia.
    + destruct (IH counts) as (counts' & -> & Hk & Htotal).
      exists counts'. split; [reflexivity|]. split.
      * intros k. rewrite Hk, filter_cons, Ha.
        rewrite decide_False by discriminate. reflexivity.
      * assert (Hh : has_area f = false).
        { unfold has_area. rewrite Ha. apply bool_decide_eq_false_2.
          intros [? [=]]. }
        rewrite Htotal, decide_False by congruence. reflexivity.
Qed.

Lemma length_by_person (tokens : list (Z * field)) :
  (length (filter (fun t => person_of_index t.1 = 0%Z) tokens)
   + length (filter (fun t => person_of_index t.1 = 1%Z) tokens)
   + length (filter (fun t => person_of_index t.1 = 2%Z) tokens)
   + length (filter (fun t => person_of_index t.1 = 3%Z) tokens)
   = length tokens)%nat.
Proof.
  induction tokens as [|t tokens IH]; [reflexivity|].
  rewrite !filter_cons.
  destruct (person_of_index_cases t.1) as [[_ E]|[[_ E]|[[_ E]|[_ E]]]];
    rewrite E; unfold unknown_person;
    repeat match goal with
           | |- context [decide (?a = ?b)] =>
               destruct (decide (a = b)); [try lia|try lia]
           end; simpl; lia.
Qed.

Lemma length_textfield_tokens (fs : list field) :
  length (textfield_tokens fs)
  = length (filter (fun f => is_textfield f = true) fs).
Proof.
  unfold textfield_tokens. induction fs as [|f fs IH]; [reflexivity|].
  cbn [omap list_omap]. rewrite filter_cons.
  destruct (search (pat_index "TextField11") (name f)) as [g|] eqn:E.
  - destruct (int_numeral g (pat_index_numeral _ _ _ E)) as (index & -> & _).
    assert (Ht : is_textfield f = true)
      by (unfold is_textfield; rewrite E; apply bool_decide_eq_true_2; eauto).
    rewrite decide_True by exact Ht. simpl. f_equal. exact IH.
  - assert (Ht : is_textfield f = false).
    { unfold is_textfield. rewrite E. apply bool_decide_eq_false_2.
      intros [? [=]]. }
    rewrite decide_False by congruence. exact IH.
Qed.

Lemma filter_no_match (fs : list field) :
  filter (fun f => search (pat_index "TextField11") (name f) = None) fs
  = filter (fun f => is_textfield f = false) fs.
Proof.
  apply list_filter_iff. intros f. unfold is_textfield.
  destruct (search (pat_index "TextField11") (name f)) as [g|].
  - rewrite bool_decide_eq_true_2 by eauto. split; discriminate.
  - rewrite bool_decide_eq_false_2 by (intros [? [=]]). split; reflexivity.
Qed.

Lemma length_filter_bool {A : Type} (b : A -> bool) (l : list A) :
  (length (filter (fun x => b x = true) l)
   + length (filter (fun x => b x = false) l) = length l)%nat.
Proof.
  induction l as [|x l IH]; [reflexivity|]. rewrite !filter_cons.
  destruct (b x); simpl; lia.
Qed.

Lemma verify_field_pattern_counts (fields : list field) :
  exists r,
    verify_field_pattern fields = Val r
    /\ (forall person,
          get_list (textfield_pattern (pattern r)) person =
          filter (fun t => person_of_index t.1 = person)
            (textfield_tokens
               (List.filter (fun f => has "Section16_3" f) fields)))
    /\ other_fields (pattern r)
       = filter (fun f => is_textfield f = false)
           (List.filter (fun f => has "Section16_3" f) fields)
    /\ (forall k,
          default 0 (area_counts r !! k)
          = len (filter (fun f => area_of f = Some k)
                   (List.filter (fun f => has "Section16_3" f) fields)))
    /\ sum_values (area_counts r)
       = len (filter (fun f => has_area f = true)
                (List.filter (fun f => has "Section16_3" f) fields))
    /\ remaining_fields r
       = len (other_fields (pattern r))
         - len (List.filter (fun f => has "suffix[" f)
                  (List.filter (fun f => has "Section16_3" f) fields))
         - len (List.filter (fun f => has "p3-t68[" f)
                  (List.filter (fun f => has "Section16_3" f) fields))
         - sum_values (area_counts r)
    /\ shared_per_person r = remaining_fields r `div` 3.
Proof.
  unfold verify_field_pattern.
  destruct (split_loop_spec
              (List.filter (fun f => has "Section16_3" f) fields)
              {| textfield_pattern := ∅; other_fields := [] |})
    as (pat & -> & Hpat & Hother).
  cbn [bind].
  match goal with
  | |- context [area_loop ∅ ?fs] =>
      destruct (area_counts_spec fs ∅) as (counts & -> & Hk & Htotal)
  end.
  cbn [bind]. eexists. split; [reflexivity|].
  cbn [pattern area_counts remaining_fields shared_per_person].
  split; [intros person; rewrite Hpat; reflexivity|].
  split; [rewrite Hother; apply filter_no_match|].
  split; [|split; [|split; reflexivity]].
  - intros k. rewrite Hk, lookup_empty. cbn [default].
    rewrite filter_within by (intros f; apply area_of_has_area_tag).
    lia.
  - change (sum_values counts) with (total_of counts). rewrite Htotal.
    change (total_of (∅ : gmap Z Z)) with 0.
    rewrite filter_within; [lia|].
    intros f Hf. unfold has_area in Hf.
    apply bool_decide_eq_true_1 in Hf as [k Hk'].
    exact (area_of_has_area_tag f k Hk').
Qed.

(** X16.  [verify_field_pattern] sorts every field whose name contains
    [Section16_3] into exactly one place: one of the buckets 0 to 3
    of [textfield_pattern], or [other_fields]; the sizes of the five
    add up to the number of these fields and no other bucket is
    filled.  [area_counts] counts, for each number, the fields whose
    first well-formed [#area[n]] marker carries it, so its sum is the
    number of fields with such a marker. *)
Theorem pattern_partitions_the_fields (fields : list field) :
  exists r,
    verify_field_pattern fields = Val r
    /\ len (get_list (textfield_pattern (pattern r)) 0)
       + len (get_list (textfield_pattern (pattern r)) 1)
       + len (get_list (textfield_pattern (pattern r)) 2)
       + len (get_list (textfield_pattern (pattern r)) 3)
       + len (other_fields (pattern r))
       = len (List.filter (fun f => has "Section16_3" f) fields)
    /\ (forall person,
          ~ 0 <= person <= 3 ->
          get_list (textfield_pattern (pattern r)) person = [])
    /\ (forall k,
          default 0 (area_counts r !! k)
          = len (filter (fun f => area_of f = Some k)
                   (List.filter (fun f => has "Section16_3" f) fields)))
    /\ sum_values (area_counts r)
       = len (filter (fun f => has_area f = true)
                (List.filter (fun f => has "Section16_3" f) fields)).
Proof.
  destruct (verify_field_pattern_counts fields)
    as (r & Hr & Hpat & Hother & Hk & Hsum & _).
  exists r. split; [exact Hr|]. split; [|split; [|split; assumption]].
  - rewrite !Hpat, Hother. unfold len.
    pose proof (length_by_person
                  (textfield_tokens
                     (List.filter (fun f => has "Section16_3" f) fields))).
    pose proof (length_textfield_tokens
                  (List.filter (fun f => has "Section16_3" f) fields)).
    pose proof (length_filter_bool is_textfield
                  (List.filter (fun f => has "Section16_3" f) fields)).
    lia.
  - intros person Hp. rewrite Hpat. clear -Hp.
    induction (textfield_tokens
                 (List.filter (fun f => has "Section16_3" f) fields))
      as [|t tokens IH]; [reflexivity|].
    rewrite filter_cons, decide_False; [exact IH|].
    destruct (person_of_index_cases t.1) as [[_ E']|[[_ E']|[[_ E']|[_ E']]]];
      unfold unknown_person in E'; lia.
Qed.

Lemma length_unclassified (l : list field) :
  Forall (fun f => class_count f <= 1) l ->
  len (filter (fun f => is_textfield f = false) l)
  - len (List.filter (fun f => has "suffix[" f) l)
  - len (List.filter (fun f => has "p3-t68[" f) l)
  - len (filter (fun f => has_area f = true) l)
  = len (filter (fun f => class_count f = 0) l).
Proof.
  unfold len. induction 1 as [|f l Hf _ IH]; [reflexivity|].
  rewrite !filter_cons. cbn [List.filter]. unfold class_count in *.
  destruct (is_textfield f), (has "suffix[" f), (has "p3-t68[" f),
    (has_area f); simpl in Hf |- *; lia.
Qed.

(** X17.  When no field of Section16_3 falls in two of the classes
    text field, suffix, phone and area, [remaining_fields] is the
    number of fields in none of them: it is not negative, and the
    share of each person is a third of it, rounded down.  (A field in
    two classes is subtracted twice, and the remainder can then fall
    below zero.) *)
Theorem remaining_fields_are_the_unclassified (fields : list field) :
  Forall (fun f => class_count f <= 1)
    (List.filter (fun f => has "Section16_3" f) fields) ->
  exists r,
    verify_field_pattern fields = Val r
    /\ remaining_fields r
       = len (filter (fun f => class_count f = 0)
                (List.filter (fun f => has "Section16_3" f) fields))
    /\ 0 <= 3 * shared_per_person r <= remaining_fields r
    /\ remaining_fields r < 3 * shared_per_person r + 3.
Proof.
  intros Hclasses.
  destruct (verify_field_pattern_counts fields)
    as (r & Hr & _ & Hother & _ & Hsum & Hrem & Hshared).
  exists r. split; [exact Hr|].
  assert (E : remaining_fields r
              = len (filter (fun f => class_count f = 0)
                       (List.filter (fun f => has "Section16_3" f) fields))).
  { rewrite Hrem, Hother, Hsum. apply length_unclassified, Hclasses. }
  split; [exact E|]. rewrite Hshared.
  assert (0 <= remaining_fields r) by (rewrite E; unfold len; lia).
  pose proof (Z.div_mod (remaining_fields r) 3 ltac:(lia)).
  pose proof (Z.mod_pos_bound (remaining_fields r) 3 ltac:(lia)).
  lia.
Qed.

Lemma remaining_fields_are_the_unclassified_witness :
  exists r,
    verify_field_pattern
      [ {| name := "form1[0].Section16_3[0].TextField11[4]";
           label := None; type := None; page := None |};
        {| name := "form1[0].Section16_3[0].suffix[0]";
           label := None; type := None; page := None |};
        {| name := "form1[0].Section16_3[0].#area[1].From_Datefield[0]";
           label := None; type := None; page := None |};
        {| name := "form1[0].Section16_3[0].RadioButtonList[0]";
           label := None; type := None; page := None |} ] = Val r
    /\ remaining_fields r = 1.
Proof.
  destruct (remaining_fields_are_the_unclassified
    [ {| name := "form1[0].Section16_3[0].TextField11[4]";
         label := None; type := None; page := None |};
      {| name := "form1[0].Section16_3[0].suffix[0]";
         label := None; type := None; page := None |};
      {| name := "form1[0].Section16_3[0].#area[1].From_Datefield[0]";
         label := None; type := None; page := None |};
      {| name := "form1[0].Section16_3[0].RadioButtonList[0]";
         label := None; type := None; page := None |} ])
    as (r & Hr & Hrem & _).
  - repeat constructor; apply Z.leb_le; vm_compute; reflexivity.
  - exists r. split; [exact Hr|]. rewrite Hrem. vm_compute. reflexivity.
Defined.

End PatternCounts.

(** ** Index ranges and area markers *)

Section RangesAndMarkers.
Import VerifyFieldPattern.

Lemma elem_of_textfield_tokens (fs : list field) (index : Z) (f : field) :
  (index, f) ∈ textfield_tokens fs
  <-> f ∈ fs /\ (index, f) ∈ textfield_tokens [f].
Proof.
  unfold textfield_tokens. rewrite !list_elem_of_omap. split.
  - intros (f' & Hf' & E).
    assert (f' = f) as ->.
    { destruct (search (pat_index "TextField11") (name f')); [|discriminate].
      destruct (int s); [|discriminate]. by injection E. }
    split; [exact Hf'|]. exists f. split; [apply list_elem_of_here | exact E].
  - intros (Hf & f' & Hf' & E).
    apply list_elem_of_singleton in Hf'. subst f'. eauto.
Qed.

Lemma token_bucket (fields : list field) (r : report) :
  (forall person,
     get_list (textfield_pattern (pattern r)) person =
     filter (fun t => person_of_index t.1 = person)
       (textfield_tokens (List.filter (fun f => has "Section16_3" f) fields))) ->
  forall index f,
    (index, f) ∈ textfield_tokens
                   (List.filter (fun f => has "Section16_3" f) fields) ->
    (index, f) ∈ get_list (textfield_pattern (pattern r)) (person_of_index index)
    /\ forall person,
         (index, f) ∈ get_list (textfield_pattern (pattern r)) person ->
         person = person_of_index index.
Proof.
  intros Hpat index f Hin. split.
  - rewrite Hpat. apply list_elem_of_filter. split; [reflexivity | exact Hin].
  - intros person. rewrite Hpat. intros [E _]%list_elem_of_filter.
    symmetry. exact E.
Qed.

Lemma area_counted (fields : list field) (r : report) (f : field) (area : Z) :
  (forall k,
     default 0 (area_counts r !! k)
     = len (filter (fun f => area_of f = Some k)
              (List.filter (fun f => has "Section16_3" f) fields))) ->
  f ∈ List.filter (fun f => has "Section16_3" f) fields ->
  area_of f = Some area ->
  1 <= default 0 (area_counts r !! area).
Proof.
  intros Hk Hf Ha. rewrite Hk.
  assert (Hin : f ∈ filter (fun f => area_of f = Some area)
                      (List.filter (fun f => has "Section16_3" f) fields))
    by (apply list_elem_of_filter; auto).
  unfold len. destruct (filter _ _); [by apply elem_of_nil in Hin|].
  simpl. lia.
Qed.



(** C7, as stated, fails.  Where index ranges exist, in
    [verify_field_pattern], the marker is not authoritative: the field
    with the marker [#area[0]], the area of person 1, and the index 15
    is filed for person 2, by its range, and for nobody else.  And
    [analyze_section16_structure] files by the text of the marker, not
    by the index it denotes: [#area[1]] and [#area[01]] carry the same
    index and get two different groups. *)
Lemma area_marker_is_not_authoritative :
  (exists v,
     verify_field_pattern
       [Field "form1[0].Section16_3[0].#area[0].TextField11[15]"
          None None None]
     = Val v
     /\ area_of (Field "form1[0].Section16_3[0].#area[0].TextField11[15]"
                   None None None) = Some 0
     /\ get_list (textfield_pattern (pattern v)) 2
        = [(15, Field "form1[0].Section16_3[0].#area[0].TextField11[15]"
                  None None None)]
     /\ get_list (textfield_pattern (pattern v)) 1 = [])
  /\ area_of (Field "form1[0].Section16_3[0].#area[1].a[0]" None None None)
     = Some 1
  /\ area_of (Field "form1[0].Section16_3[0].#area[01].b[0]" None None None)
     = Some 1
  /\ AnalyzeSection16Structure.group
       (AnalyzeSection16Structure.section_groups
          [Field "form1[0].Section16_3[0].#area[1].a[0]" None None None;
           Field "form1[0].Section16_3[0].#area[01].b[0]" None None None])
       "Section16_3" "area_1"
     = [Field "form1[0].Section16_3[0].#area[1].a[0]" None None None]
  /\ AnalyzeSection16Structure.group
       (AnalyzeSection16Structure.section_groups
          [Field "form1[0].Section16_3[0].#area[1].a[0]" None None None;
           Field "form1[0].Section16_3[0].#area[01].b[0]" None None None])
       "Section16_3" "area_01"
     = [Field "form1[0].Section16_3[0].#area[01].b[0]" None None None].
Proof.
  split.
  - eexists. split; [vm_compute; reflexivity|].
    repeat split; vm_compute; reflexivity.
  - repeat split; vm_compute; reflexivity.
Qed.

(** C7 (amended).  A field whose name carries a marker [#area[k]] is
    filed under the area of the marker, and under no other, by the two
    scripts that have no index ranges: [analyze_section16_structure]
    files it under the key made of the marker's text, [area_] followed
    by the digits as written, and [calculate_field_distribution] files
    a field of Section16_3 under the number the digits denote, never
    among the shared fields.  Where index ranges exist, in
    [verify_field_pattern], the marker does not decide the person: a
    field of Section16_3 is counted under the area of its marker, and
    its [TextField11] index, if it has one, puts it in the bucket of
    the range of that index and in no other, whatever the marker
    says. *)
Theorem area_marker_and_index_range (fields : list field) (f : field)
    (g : string) :
  f ∈ fields ->
  search (pat_index "#area") (name f) = Some g ->
  (forall s, section_key f = Some s ->
     f ∈ AnalyzeSection16Structure.group
           (AnalyzeSection16Structure.section_groups fields) s
           ("area_" +:+ g))
  /\ (forall s a,
        f ∈ AnalyzeSection16Structure.group
              (AnalyzeSection16Structure.section_groups fields) s a ->
        a = "area_" +:+ g)
  /\ exists area,
       int g = Val area
       /\ (exists r,
             CalculateFieldDistribution.calculate_field_distribution fields
             = Val r
             /\ (contains "Section16_1" (name f) = false ->
                 contains "Section16_3" (name f) = true ->
                 f ∈ get_list
                       (CalculateFieldDistribution.section16_3_by_area
                          (CalculateFieldDistribution.by_area r)) area
                 /\ (f ∉ CalculateFieldDistribution.section16_3_shared
                           (CalculateFieldDistribution.by_area r))
                 /\ (forall k,
                       f ∈ get_list
                             (CalculateFieldDistribution.section16_3_by_area
                                (CalculateFieldDistribution.by_area r)) k ->
                       k = area)))
       /\ (exists v,
             verify_field_pattern fields = Val v
             /\ (has "Section16_3" f = true ->
                 1 <= default 0 (area_counts v !! area)
                 /\ forall index,
                      (index, f) ∈ textfield_tokens [f] ->
                      (index, f) ∈ get_list (textfield_pattern (pattern v))
                                     (person_of_index index)
                      /\ forall person,
                           (index, f) ∈ get_list
                                          (textfield_pattern (pattern v))
                                          person ->
                           person = person_of_index index)).
Proof.
  intros Hin Hg.
  destruct (area_of_search f g Hg) as (area & Hint & Harea).
  assert (Hkey : area_key f = "area_" +:+ g)
    by (unfold area_key; rewrite Hg; reflexivity).
  split; [|split].
  - intros s Hs. rewrite section_groups_spec.
    apply list_elem_of_filter. auto.
  - intros s a. rewrite section_groups_spec.
    intros [[_ <-] _]%list_elem_of_filter. exact Hkey.
  - exists area. split; [exact Hint|]. split.
    + destruct (calculate_field_distribution_spec fields)
        as (r & Hr & Hby & Hshared & _).
      exists r. split; [exact Hr|]. intros H1 H3.
      pose proof (elem_of_section16_3_fields fields f Hin H1 H3) as Hf.
      split; [|split].
      * rewrite Hby. apply list_elem_of_filter. auto.
      * rewrite Hshared. intros [Hnone _]%list_elem_of_filter. congruence.
      * intros k. rewrite Hby. intros [Hk _]%list_elem_of_filter. congruence.
    + destruct (verify_field_pattern_counts fields)
        as (v & Hv & Hpat & _ & Hk & _).
      exists v. split; [exact Hv|]. intros H3.
      assert (Hf : f ∈ List.filter (fun f => has "Section16_3" f) fields).
      { apply list_elem_of_In, filter_In.
        split; [by apply list_elem_of_In | exact H3]. }
      split; [exact (area_counted fields v f area Hk Hf Harea)|].
      intros index Htoken.
      apply (token_bucket fields v Hpat).
      apply elem_of_textfield_tokens. auto.
Qed.

Lemma area_marker_and_index_range_witness :
  exists v,
    verify_field_pattern
      [Field "form1[0].Section16_3[0].#area[0].TextField11[15]"
         None None None]
    = Val v
    /\ 1 <= default 0 (area_counts v !! 0)
    /\ (15, Field "form1[0].Section16_3[0].#area[0].TextField11[15]"
              None None None)
       ∈ get_list (textfield_pattern (pattern v)) (person_of_index 15).
Proof.
  destruct (area_marker_and_index_range
              [Field "form1[0].Section16_3[0].#area[0].TextField11[15]"
                 None None None]
              (Field "form1[0].Section16_3[0].#area[0].TextField11[15]"
                 None None None)
              "0")
    as (_ & _ & area & Hint & _ & v & Hv & Hrange).
  - apply list_elem_of_here.
  - reflexivity.
  - injection Hint as <-. exists v. split; [exact Hv|].
    destruct (Hrange eq_refl) as [Harea Hbucket].
    split; [exact Harea|].
    apply (Hbucket 15). apply list_elem_of_here.
Defined.

End RangesAndMarkers.

(** ** The totals of [calculate_field_distribution] *)

Section DistributionTotals.
Import CalculateFieldDistribution.

Lemma total_of_lengths `{Countable K} {A : Type} (d : gmap K (list A)) :
  sum ((fun kv => len kv.2) <$> map_to_list d) = total_of (len <$> d).
Proof.
  unfold total_of. apply sum_permutation.
  rewrite map_to_list_fmap, <- !list_fmap_compose. reflexivity.
Qed.

Lemma total_of_append_to `{Countable K} {A : Type} (k : K) (x : A)
    (d : gmap K (list A)) :
  total_of (len <$> append_to k x d) = total_of (len <$> d) + 1.
Proof.
  unfold append_to. rewrite fmap_insert, total_of_insert, lookup_fmap.
  unfold len. rewrite length_app. destruct (d !! k); simpl; lia.
Qed.

Lemma area_step_by_cases (st : areas) (f : field) :
  (exists area,
     area_of f = Some area
     /\ area_step st f
        = Val {| section16_3_by_area := append_to area f (section16_3_by_area st);
                 section16_3_shared := section16_3_shared st |})
  \/ (area_of f = None
      /\ area_step st f
         = Val {| section16_3_by_area := section16_3_by_area st;
                  section16_3_shared := section16_3_shared st ++ [f] |}).
Proof.
  unfold area_of, area_step.
  destruct (search (pat_index "#area") (name f)) as [g|] eqn:E.
  - destruct (int_numeral g (pat_index_numeral _ _ _ E)) as (area & -> & _).
    left. exists area. split; reflexivity.
  - right. split; reflexivity.
Qed.

Lemma area_loop_totals (fs : list field) (st st' : areas) :
  area_loop st fs = Val st' ->
  total_of (len <$> section16_3_by_area st')
  = total_of (len <$> section16_3_by_area st) + len (omap area_of fs)
  /\ dom (section16_3_by_area st')
     = dom (section16_3_by_area st) ∪ list_to_set (omap area_of fs)
  /\ (map_Forall (fun _ l => l <> []) (section16_3_by_area st) ->
      map_Forall (fun _ l => l <> []) (section16_3_by_area st')).
Proof.
  revert st; induction fs as [|f fs IH]; intros st.
  - intros [= ->]. simpl. split; [unfold len; simpl; lia|]. split; [|auto].
    symmetry. apply (right_id_L ∅ (∪)).
  - cbn [area_loop omap list_omap]. fold (omap area_of fs).
    destruct (area_step_by_cases st f) as [(area & Ha & ->)|[Ha ->]];
      cbn [bind]; rewrite Ha; intros Hloop;
      destruct (IH _ Hloop) as (Htotal & Hdom & Hne);
      cbn [section16_3_by_area] in Htotal, Hdom, Hne.
    + split; [|split].
      * rewrite Htotal, total_of_append_to. unfold len. simpl length. lia.
      * rewrite Hdom. unfold append_to. rewrite dom_insert_L, list_to_set_cons.
        rewrite (comm_L (∪) {[area]} (dom (section16_3_by_area st))).
        rewrite <- (assoc_L (∪)). reflexivity.
      * intros Hst. apply Hne. unfold append_to.
        apply map_Forall_insert_2; [|exact Hst].
        destruct (default [] _); discriminate.
    + split; [exact Htotal|]. split; [exact Hdom | exact Hne].
Qed.

Lemma sum_at_least_length (xs : list Z) :
  Forall (fun x => 1 <= x) xs -> len xs <= sum xs.
Proof.
  unfold len. induction 1 as [|x xs Hx _ IH]; simpl; [lia|].
  fold (sum xs). lia.
Qed.

Lemma length_omap_area_of (fs : list field) :
  (length (omap area_of fs)
   + length (filter (fun f => area_of f = None) fs) = length fs)%nat.
Proof.
  induction fs as [|f fs IH]; [reflexivity|].
  cbn [omap list_omap]. fold (omap area_of fs). rewrite filter_cons.
  destruct (area_of f) as [area|].
  - rewrite decide_False by discriminate. simpl. lia.
  - rewrite decide_True by reflexivity. simpl. lia.
Qed.

Lemma length_three_areas (fs : list field) :
  (length (filter (fun f => area_of f = Some 0%Z) fs)
   + length (filter (fun f => area_of f = Some 1%Z) fs)
   + length (filter (fun f => area_of f = Some 2%Z) fs)
   <= length (omap area_of fs))%nat.
Proof.
  induction fs as [|f fs IH]; [reflexivity|].
  cbn [omap list_omap]. fold (omap area_of fs). rewrite !filter_cons.
  destruct (area_of f) as [a|] eqn:Ea.
  - destruct (decide (Some a = Some 0)) as [E0|_];
      destruct (decide (Some a = Some 1)) as [E1|_];
      destruct (decide (Some a = Some 2)) as [E2|_];
      try congruence; simpl; lia.
  - rewrite !decide_False by discriminate. exact IH.
Qed.

Lemma length_sections (fields : list field) :
  len (section16_1_fields fields) + len (section16_3_fields fields)
  <= len fields.
Proof.
  unfold len, section16_1_fields, section16_3_fields.
  induction fields as [|f fields IH]; [reflexivity|].
  cbn [List.filter].
  destruct (contains "Section16_1" (name f)),
    (contains "Section16_3" (name f)); simpl; lia.
Qed.

Lemma calculate_field_distribution_totals (fields : list field) :
  exists r,
    calculate_field_distribution fields = Val r
    /\ total_area_fields r = len (omap area_of (section16_3_fields fields))
    /\ shared_fields_count r
       = len (filter (fun f => area_of f = None) (section16_3_fields fields))
    /\ dom (section16_3_by_area (by_area r))
       = list_to_set (omap area_of (section16_3_fields fields))
    /\ num_people r = Z.of_nat (size (section16_3_by_area (by_area r)))
    /\ num_people r <= total_area_fields r
    /\ entries r
       = if num_people r =? 3
         then Some [len (section16_1_fields fields);
                    len (filter (fun f => area_of f = Some 0)
                           (section16_3_fields fields))
                    + shared_fields_count r `div` 3;
                    len (filter (fun f => area_of f = Some 1)
                           (section16_3_fields fields))
                    + shared_fields_count r `div` 3;
                    len (filter (fun f => area_of f = Some 2)
                           (section16_3_fields fields))
                    + shared_fields_count r `div` 3]
         else None.
Proof.
  unfold calculate_field_distribution.
  destruct (area_loop_spec (section16_3_fields fields)
              {| section16_3_by_area := ∅; section16_3_shared := [] |})
    as (st & Hloop & Hby & Hshared).
  destruct (area_loop_totals _ _ _ Hloop) as (Htotal & Hdom & Hne).
  rewrite Hloop. cbn [bind]. cbn [section16_3_by_area section16_3_shared]
    in Hby, Hshared, Htotal, Hdom, Hne.
  destruct (distribute_spec (section16_3_by_area st)
              (len (section16_3_shared st))) as (dist & -> & _).
  cbn [bind]. unfold hypothesis_entries, floordiv.
  change (3 =? 0) with false. cbv iota.
  assert (Hentries : forall b : bool,
    (if b then
       bind (Val (len (section16_3_shared st) `div` 3)) (fun per =>
         Val (Some [len (section16_1_fields fields);
                    len (get_list (section16_3_by_area st) 0) + per;
                    len (get_list (section16_3_by_area st) 1) + per;
                    len (get_list (section16_3_by_area st) 2) + per]))
     else Val None)
    = Val (if b then
             Some [len (section16_1_fields fields);
                   len (get_list (section16_3_by_area st) 0)
                   + len (section16_3_shared st) `div` 3;
                   len (get_list (section16_3_by_area st) 1)
                   + len (section16_3_shared st) `div` 3;
                   len (get_list (section16_3_by_area st) 2)
                   + len (section16_3_shared st) `div` 3]
           else None)) by (intros []; reflexivity).
  rewrite Hentries. cbn [bind]. eexists. split; [reflexivity|].
  cbn [total_area_fields shared_fields_count by_area num_people entries
       section16_3_by_area section16_3_shared].
  rewrite fmap_empty in Htotal.
  change (total_of (∅ : gmap Z Z)) with 0 in Htotal.
  rewrite Z.add_0_l in Htotal.
  split; [rewrite total_of_lengths; exact Htotal|].
  split; [rewrite Hshared; reflexivity|].
  split; [rewrite Hdom, dom_empty_L; apply (left_id_L ∅ (∪))|].
  split; [reflexivity|]. split.
  - rewrite <- (length_map_to_list (section16_3_by_area st)).
    etransitivity; [|apply sum_at_least_length].
    + unfold len. rewrite length_fmap. lia.
    + apply Forall_fmap, Forall_forall. intros [k l] Hkl.
      apply elem_of_map_to_list in Hkl.
      specialize (Hne (map_Forall_empty _) k l Hkl).
      unfold len. simpl. destruct l; [congruence | simpl; lia].
  - rewrite !Hby, Hshared. reflexivity.
Qed.

(** X18.  [calculate_field_distribution] accounts for every field of
    Section16_3 once: the area-specific total and the number of shared
    fields add up to the number of these fields, which together with
    the fields of Section16_1 are at most all fields.  The number of
    people is the number of distinct area numbers that occur, and it
    never exceeds the area-specific total. *)
Theorem distribution_accounts_for_every_field (fields : list field) :
  exists r,
    calculate_field_distribution fields = Val r
    /\ total_area_fields r + shared_fields_count r
       = len (section16_3_fields fields)
    /\ len (section16_1_fields fields) + len (section16_3_fields fields)
       <= len fields
    /\ num_people r
       = Z.of_nat
           (size (list_to_set (C := gset Z)
                    (omap area_of (section16_3_fields fields))))
    /\ num_people r <= total_area_fields r.
Proof.
  destruct (calculate_field_distribution_totals fields)
    as (r & Hr & Htotal & Hshared & Hdom & Hpeople & Hle & _).
  exists r. split; [exact Hr|]. split; [|split; [|split]].
  - rewrite Htotal, Hshared. unfold len.
    pose proof (length_omap_area_of (section16_3_fields fields)). lia.
  - apply length_sections.
  - rewrite Hpeople, <- Hdom, size_dom. reflexivity.
  - exact Hle.
Qed.

(** X19.  The four entries of the hypothesis test are computed exactly
    when three distinct area numbers occur, whichever they are.  Their
    total is then the number of fields of Section16_1, the fields of
    the areas 0, 1 and 2 and three times the rounded-down third of the
    shared fields, and it never exceeds the number of all fields. *)
Theorem entries_total_is_bounded (fields : list field) :
  exists r,
    calculate_field_distribution fields = Val r
    /\ (is_Some (entries r) <-> num_people r = 3)
    /\ forall total,
         total_of_entries (entries r) = Some total ->
         total
         = len (section16_1_fields fields)
           + len (filter (fun f => area_of f = Some 0)
                    (section16_3_fields fields))
           + len (filter (fun f => area_of f = Some 1)
                    (section16_3_fields fields))
           + len (filter (fun f => area_of f = Some 2)
                    (section16_3_fields fields))
           + 3 * (shared_fields_count r `div` 3)
         /\ total <= len fields.
Proof.
  destruct (calculate_field_distribution_totals fields)
    as (r & Hr & Htotal & Hshared & _ & _ & _ & Hentries).
  exists r. split; [exact Hr|]. rewrite Hentries.
  destruct (Z.eqb_spec (num_people r) 3) as [E|E].
  - split; [split; eauto|]. intros total [= <-].
    cbn [sum foldr]. split; [lia|].
    pose proof (length_sections fields).
    pose proof (length_three_areas (section16_3_fields fields)).
    pose proof (length_omap_area_of (section16_3_fields fields)).
    assert (0 <= shared_fields_count r) by (rewrite Hshared; unfold len; lia).
    pose proof (Z.div_mod (shared_fields_count r) 3 ltac:(lia)).
    pose proof (Z.mod_pos_bound (shared_fields_count r) 3 ltac:(lia)).
    rewrite Hshared in *. unfold len in *. lia.
  - split; [split; [intros [? [=]] | intros; contradiction]|].
    intros total [=].
Qed.

End DistributionTotals.

(** ** The totals of [analyze_section16_structure] *)

Section StructureTotals.
Import AnalyzeSection16Structure AnalyzeSection16Totals.

Lemma total_of_values `{Countable K} {A : Type} (f : A -> Z) (d : gmap K A) :
  sum ((fun kv => f kv.2) <$> map_to_list d) = total_of (f <$> d).
Proof.
  unfold total_of. apply sum_permutation.
  rewrite map_to_list_fmap, <- !list_fmap_compose. reflexivity.
Qed.

Lemma section_total_append_to (a : string) (f : field)
    (areas : gmap string (list field)) :
  section_total (append_to a f areas) = section_total areas + 1.
Proof. unfold section_total. rewrite !total_of_lengths. apply total_of_append_to. Qed.

Lemma group_step_cases (groups : gmap string (gmap string (list field)))
    (f : field) :
  (exists s,
     section_key f = Some s
     /\ group_step groups f
        = <[s := append_to (area_key f) f (default ∅ (groups !! s))]> groups)
  \/ (section_key f = None /\ group_step groups f = groups).
Proof.
  unfold section_key, group_step, area_key.
  destruct (search pat_section16 (name f)) as [g|].
  - left. eexists. split; reflexivity.
  - right. split; reflexivity.
Qed.

Lemma total_counted_step (groups : gmap string (gmap string (list field)))
    (f : field) :
  total_counted (group_step groups f)
  = total_counted groups + (if decide (is_Some (section_key f)) then 1 else 0).
Proof.
  unfold total_counted. rewrite !total_of_values.
  destruct (group_step_cases groups f) as [(s & Hs & ->)|[Hs ->]]; rewrite Hs.
  - rewrite decide_True by eauto.
    rewrite fmap_insert, total_of_insert, lookup_fmap, section_total_append_to.
    destruct (groups !! s); simpl; [lia|].
    change (section_total ∅) with 0. lia.
  - rewrite decide_False by (intros [? [=]]). lia.
Qed.

Lemma dom_step (groups : gmap string (gmap string (list field)))
    (f : field) (s : string) :
  dom (default ∅ (group_step groups f !! s))
  = dom (default ∅ (groups !! s))
    ∪ (if decide (section_key f = Some s) then {[area_key f]} else ∅).
Proof.
  destruct (group_step_cases groups f) as [(s' & Hs & ->)|[Hs ->]]; rewrite Hs.
  - destruct (decide (s' = s)) as [->|Hne].
    + rewrite lookup_insert_eq, decide_True by reflexivity.
      cbn [from_option id]. unfold append_to. rewrite dom_insert_L.
      apply (comm_L (∪)).
    + rewrite lookup_insert_ne by exact Hne.
      rewrite decide_False by congruence.
      symmetry. apply (right_id_L ∅ (∪)).
  - rewrite decide_False by discriminate. symmetry. apply (right_id_L ∅ (∪)).
Qed.

Lemma section_groups_totals (fields : list field)
    (groups : gmap string (gmap string (list field))) :
  total_counted (foldl group_step groups fields)
  = total_counted groups
    + len (filter (fun f => is_Some (section_key f)) fields)
  /\ forall s,
       dom (default ∅ (foldl group_step groups fields !! s))
       = dom (default ∅ (groups !! s))
         ∪ list_to_set
             (area_key <$> filter (fun f => section_key f = Some s) fields).
Proof.
  unfold len. revert groups; induction fields as [|f fields IH]; intros groups.
  - simpl. split; [lia|]. intros s. symmetry. apply (right_id_L ∅ (∪)).
  - cbn [foldl]. destruct (IH (group_step groups f)) as [Htotal Hdom].
    split.
    + rewrite Htotal, total_counted_step, filter_cons.
      destruct (decide (is_Some (section_key f))); simpl length; lia.
    + intros s. rewrite Hdom, dom_step, filter_cons.
      destruct (decide (section_key f = Some s)).
      * rewrite fmap_cons, list_to_set_cons, (assoc_L (∪)). reflexivity.
      * rewrite (right_id_L ∅ (∪)). reflexivity.
Qed.

Lemma length_filter_le {A : Type} (P : A -> Prop) `{forall x, Decision (P x)}
    (l : list A) :
  (length (filter P l) <= length l)%nat.
Proof.
  induction l as [|x l IH]; [reflexivity|]. rewrite filter_cons.
  destruct (decide (P x)); simpl; lia.
Qed.

(** X20.  The total [analyze_section16_structure] prints as counted is
    the number of fields whose name carries a [Section16_<digits>]
    marker, so it never exceeds the number of fields.  The areas of a
    section are the distinct area keys of its fields, where fields
    without an area marker share the key [no_area]: the number of
    Section16_3 areas counts [no_area] as an area whenever such a field
    exists. *)
Theorem structure_totals (fields : list field) :
  total_counted (section_groups fields)
  = len (filter (fun f => is_Some (section_key f)) fields)
  /\ total_counted (section_groups fields) <= len fields
  /\ (forall s,
        dom (default ∅ (section_groups fields !! s))
        = list_to_set
            (area_key <$> filter (fun f => section_key f = Some s) fields))
  /\ section16_3_areas fields
     = Z.of_nat
         (size (list_to_set (C := gset string)
                  (area_key
                     <$> filter (fun f => section_key f = Some "Section16_3")
                           fields))).
Proof.
  unfold section_groups.
  destruct (section_groups_totals fields ∅) as [Htotal Hdom].
  assert (Hdom' : forall s,
    dom (default ∅ (foldl group_step ∅ fields !! s))
    = list_to_set
        (area_key <$> filter (fun f => section_key f = Some s) fields)).
  { intros s. rewrite Hdom, lookup_empty. cbn [from_option id].
    rewrite dom_empty_L. apply (left_id_L ∅ (∪)). }
  change (total_counted ∅) with 0 in Htotal. rewrite Z.add_0_l in Htotal.
  split; [exact Htotal|]. split; [|split; [exact Hdom'|]].
  - rewrite Htotal. unfold len. apply inj_le, length_filter_le.
  - unfold section16_3_areas, section_groups.
    rewrite <- Hdom', size_dom. reflexivity.
Qed.

End StructureTotals.
